(** * Sane snippets: a shallow embedding of [sane_snippets.py]

    The plugin converts [.sane-snippet] documents into Sublime Text XML
    snippets and keeps the generated files next to their sources.  This
    development embeds the parser ([parse_snippet] and its two regular
    expressions), the serializer ([snippet_to_xml] and ElementTree's
    writer), the path pairing ([swap_extension]), the synchronization
    loop ([regenerate_snippets]) and the entry points of the plugin, and
    states the properties of the specification, and further properties
    of the code, against them.

    Python values are modelled as follows:
    - a [str] is the list of its code points ([N]);
    - a [dict] with string keys is a [gmap str str];
    - a function that may raise returns [Return] or [Raise];
    - the file system is a finite map from paths to the texts of the
      files, with the faults the system may answer with; a pass over it
      records the effects it performs in a log, and ends early when an
      exception leaves it. *)

From Stdlib Require Import NArith String Ascii DecimalN.
From stdpp Require Import base list option gmap.

Local Open Scope N_scope.
Local Open Scope list_scope.

(** ** Python strings *)

Abbreviation str := (list N).

Module Py.

(** A literal: the code points of an ASCII string. *)
Fixpoint lit (s : string) : str :=
  match s with
  | EmptyString => []
  | String a s' => N_of_ascii a :: lit s'
  end.

Definition LF : N := 10.
Definition CR : N := 13.

Definition eqb (s t : str) : bool := bool_decide (s = t).

(** [s.startswith(pre)] *)
Fixpoint startswith (pre s : str) : bool :=
  match pre, s with
  | [], _ => true
  | a :: pre', b :: s' => (a =? b) && startswith pre' s'
  | _ :: _, [] => false
  end.

(** [s.endswith(suf)] *)
Definition endswith (suf s : str) : bool :=
  startswith (reverse suf) (reverse s).

(** [s.replace(old, new)]: every non-overlapping occurrence of [old],
    found from the left, is replaced.  [skip] counts the characters of
    an occurrence that are still to be passed over. *)
Fixpoint replace_from (skip : nat) (old new s : str) : str :=
  match s with
  | [] => []
  | c :: s' =>
      match skip with
      | S k => replace_from k old new s'
      | O =>
          if startswith old s
          then new ++ replace_from (pred (length old)) old new s'
          else c :: replace_from O old new s'
      end
  end.

Definition replace (old new s : str) : str :=
  match old with
  | [] => new ++ flat_map (fun c => c :: new) s
  | _ :: _ => replace_from O old new s
  end.

(** [c.isspace()], which is also the class [\s] of a [str] pattern:
    the Unicode characters of bidirectional type WS, B or S, or of
    category Zs. *)
Definition isspace (c : N) : bool :=
  ((9 <=? c) && (c <=? 13)) || ((28 <=? c) && (c <=? 32))
  || (c =? 133) || (c =? 160) || (c =? 5760)
  || ((8192 <=? c) && (c <=? 8202))
  || (c =? 8232) || (c =? 8233) || (c =? 8239) || (c =? 8287)
  || (c =? 12288).

Fixpoint lstrip (s : str) : str :=
  match s with
  | c :: s' => if isspace c then lstrip s' else s
  | [] => []
  end.

Definition rstrip (s : str) : str := reverse (lstrip (reverse s)).

(** [s.strip()] *)
Definition strip (s : str) : str := rstrip (lstrip s).

(** The line boundaries of [str.splitlines]; [\r\n] counts as one. *)
Definition is_linebreak (c : N) : bool :=
  (c =? 10) || (c =? 11) || (c =? 12) || (c =? 13)
  || (c =? 28) || (c =? 29) || (c =? 30)
  || (c =? 133) || (c =? 8232) || (c =? 8233).

(** [s.splitlines()]: [cur] is the line read so far, in reverse.  A
    line boundary at the very end opens no further line. *)
Fixpoint splitlines_from (cur : str) (s : str) : list str :=
  match s with
  | [] => match cur with [] => [] | _ :: _ => [reverse cur] end
  | c :: s' =>
      if is_linebreak c then
        reverse cur ::
          match s' with
          | d :: s'' =>
              if (c =? CR) && (d =? LF)
              then splitlines_from [] s''
              else splitlines_from [] s'
          | [] => []
          end
      else splitlines_from (c :: cur) s'
  end.

Definition splitlines (s : str) : list str := splitlines_from [] s.

End Py.

Notation "'py' s" := (Py.lit s%string) (at level 9, s at level 0, only parsing).

(** ** Regular expressions

    The fragment of Python's [re] that the two patterns of the plugin
    use, with the semantics of its backtracking matcher: [run r st] lists
    the states in which a match of [r] from [st] can end, in the order in
    which the matcher tries them.  [re.match] takes the first one. *)

Module Re.

Inductive regex : Type :=
| Str (s : str)                          (* literal characters *)
| Cat (r1 r2 : regex)                    (* r1 r2 *)
| Alt (r1 r2 : regex)                    (* r1|r2 *)
| Opt (r : regex)                        (* r?, greedy *)
| Star (greedy : bool) (p : N -> bool)   (* c* or c*? for a class c *)
| Group (name : str) (r : regex)         (* (?P<name>r) *)
| Bol                                    (* ^ *)
| Eol.                                   (* $ *)

(** A state of the matcher: the number of characters consumed, the
    text that remains, and the groups captured so far, most recent
    first. *)
Record mstate : Type :=
  MState { pos : nat; rest : str; caps : list (str * str) }.

Fixpoint strip_prefix (l s : str) : option str :=
  match l, s with
  | [], _ => Some s
  | a :: l', b :: s' => if a =? b then strip_prefix l' s' else None
  | _ :: _, [] => None
  end.

(** The ends of [c*] (longest first) and [c*?] (shortest first). *)
Fixpoint star (greedy : bool) (p : N -> bool)
    (cs : list (str * str)) (n : nat) (s : str) : list mstate :=
  let here := MState n s cs in
  match s with
  | c :: s' =>
      if p c then
        if greedy then star greedy p cs (S n) s' ++ [here]
        else here :: star greedy p cs (S n) s'
      else [here]
  | [] => [here]
  end.

Fixpoint run (r : regex) (st : mstate) : list mstate :=
  match r with
  | Str l =>
      match strip_prefix l (rest st) with
      | Some t => [MState (pos st + length l) t (caps st)]
      | None => []
      end
  | Cat r1 r2 => flat_map (run r2) (run r1 st)
  | Alt r1 r2 => run r1 st ++ run r2 st
  | Opt r1 => run r1 st ++ [st]
  | Star greedy p => star greedy p (caps st) (pos st) (rest st)
  | Group name r1 =>
      map (fun st' =>
             MState (pos st') (rest st')
               ((name, take (pos st' - pos st) (rest st)) :: caps st'))
          (run r1 st)
  | Bol => match pos st with O => [st] | S _ => [] end
  | Eol =>
      match rest st with
      | [] => [st]
      | c :: [] => if c =? Py.LF then [st] else []
      | _ :: _ :: _ => []
      end
  end.

(** [pattern.match(text)]: the first match at the start of [text]. *)
Definition match_ (r : regex) (text : str) : option mstate :=
  head (run r (MState O text [])).

(** [m.groupdict()] *)
Definition groupdict (m : mstate) : gmap str str := list_to_map (caps m).

(** The character classes of the two patterns. *)
Definition any_char (c : N) : bool := true.           (* . under re.S *)
Definition not_newline (c : N) : bool := negb (c =? Py.LF).   (* . *)

End Re.

(** ** The parser *)

Definition EXT_SANESNIPPET : str := py ".sane-snippet".
Definition EXT_SNIPPET_SANE : str := py ".sane.sublime-snippet".

(** The newline [nl] of the pattern: a carriage return with an optional
    linefeed, or else a linefeed. *)
Definition nl : Re.regex :=
  Re.Alt (Re.Cat (Re.Str [Py.CR]) (Re.Opt (Re.Str [Py.LF]))) (Re.Str [Py.LF]).

(** The newline [nnl]: the same, captured as the group [linesep]. *)
Definition nnl : Re.regex := Re.Group (py "linesep") nl.

(** The pattern [template], compiled with [re.S | re.X]: the white space
    and the comments of the pattern are not part of it, and a dot
    matches every character.  It reads: three dashes, [nl], a group
    [header] that is a lazy run of dots, [nnl], three dashes, [nl], and
    a group [content] that is a greedy run of dots. *)
Definition template : Re.regex :=
  Re.Cat (Re.Str (py "---")) (Re.Cat nl
  (Re.Cat (Re.Group (py "header") (Re.Star false Re.any_char)) (Re.Cat nnl
  (Re.Cat (Re.Str (py "---")) (Re.Cat nl
  (Re.Group (py "content") (Re.Star true Re.any_char))))))).

(** The pattern [line_template]: the start of the line, a group [key]
    that is a lazy run of dots, a colon, a greedy run of white space, a
    group [val] that is a greedy run of dots, and the end of the line.
    No flag is set, so a dot matches every character but a linefeed. *)
Definition line_template : Re.regex :=
  Re.Cat Re.Bol
  (Re.Cat (Re.Group (py "key") (Re.Star false Re.not_newline))
  (Re.Cat (Re.Str (py ":"))
  (Re.Cat (Re.Star true Py.isspace)
  (Re.Cat (Re.Group (py "val") (Re.Star true Re.not_newline)) Re.Eol)))).

Inductive exn : Type := SyntaxError (msg : str).

Inductive raises (A : Type) : Type :=
| Return (a : A)
| Raise (e : exn).
Arguments Return {A} a.
Arguments Raise {A} e.

Definition parse_val (text : str) : str := Py.strip text.

Definition known_keys : list str :=
  [py "description"; py "tabTrigger"; py "scope"].

Definition unexpected_property (key : str) : str :=
  py "Unexpected SaneSnippet property: " ++ [34] ++ key ++ [34].

(** The body of the loop over the header lines. *)
Definition parse_header_line (snippet : gmap str str) (line : str)
    : raises (gmap str str) :=
  match Re.match_ line_template line with
  | None => Raise (SyntaxError (py "Unable to parse SaneSnippet header"))
  | Some match_ =>
      let m := Re.groupdict match_ in
      let m := <[py "key" := Py.strip (m !!! py "key")]> m in
      if bool_decide (m !!! py "key" ∈ known_keys)
      then Return (<[m !!! py "key" := parse_val (m !!! py "val")]> snippet)
      else Raise (SyntaxError (unexpected_property (m !!! py "key")))
  end.

Fixpoint parse_header (snippet : gmap str str) (lines : list str)
    : raises (gmap str str) :=
  match lines with
  | [] => Return snippet
  | line :: lines' =>
      match parse_header_line snippet line with
      | Return snippet' => parse_header snippet' lines'
      | Raise e => Raise e
      end
  end.

Section Parser.

(** [os.linesep], the platform's line separator. *)
Variable os_linesep : str.

Definition parse_snippet (path name text : str) : raises (gmap str str) :=
  let snippet : gmap str str :=
    <[py "linesep" := os_linesep]> (<[py "scope" := []]>
    (<[py "tabTrigger" := []]> (<[py "description" := name]>
    (<[py "name" := name]> (<[py "path" := path]> ∅))))) in
  match Re.match_ template text with
  | None => Raise (SyntaxError (py "Unable to parse SaneSnippet"))
  | Some match_ =>
      let m := Re.groupdict match_ in
      let snippet := <[py "content" := m !!! py "content"]> snippet in
      let snippet := <[py "linesep" := m !!! py "linesep"]> snippet in
      parse_header snippet (Py.splitlines (m !!! py "header"))
  end.

End Parser.

(** ** The serializer *)

Module Etree.

(** An [xml.etree.ElementTree.Element]: tag, attributes, text and
    children ([text] is [None] until it is assigned). *)
#[warnings="-register-all"] Inductive Element : Type :=
  Elem (tag : str) (attrib : list (str * str)) (text : option str)
       (children : list Element).

Definition tag (e : Element) : str := let 'Elem t _ _ _ := e in t.
Definition text (e : Element) : option str := let 'Elem _ _ x _ := e in x.
Definition children (e : Element) : list Element :=
  let 'Elem _ _ _ c := e in c.

(** [e.text = x] and [e.append(c)] *)
Definition set_text (x : str) (e : Element) : Element :=
  let 'Elem t a _ c := e in Elem t a (Some x) c.
Definition append (c : Element) (e : Element) : Element :=
  let 'Elem t a x cs := e in Elem t a x (cs ++ [c]).

(** [_escape_cdata]: the three replacements, in this order. *)
Definition escape_cdata (x : str) : str :=
  Py.replace (py ">") (py "&gt;")
    (Py.replace (py "<") (py "&lt;")
       (Py.replace (py "&") (py "&amp;") x)).

Fixpoint digits (u : Decimal.uint) : str :=
  match u with
  | Decimal.Nil => []
  | Decimal.D0 u' => 48 :: digits u'
  | Decimal.D1 u' => 49 :: digits u'
  | Decimal.D2 u' => 50 :: digits u'
  | Decimal.D3 u' => 51 :: digits u'
  | Decimal.D4 u' => 52 :: digits u'
  | Decimal.D5 u' => 53 :: digits u'
  | Decimal.D6 u' => 54 :: digits u'
  | Decimal.D7 u' => 55 :: digits u'
  | Decimal.D8 u' => 56 :: digits u'
  | Decimal.D9 u' => 57 :: digits u'
  end.

(** The stream is opened with the encoding [us-ascii] and the error
    handler [xmlcharrefreplace]: a character outside ASCII is written
    as a decimal character reference. *)
Definition charref (c : N) : str :=
  if c <? 128 then [c] else py "&#" ++ digits (N.to_uint c) ++ py ";".

Definition encode (x : str) : str := flat_map charref x.

(** [_serialize_xml] for elements without attributes and tails: an
    element with neither text nor children is written in short form. *)
Fixpoint serialize (e : Element) : str :=
  let 'Elem t _ x cs := e in
  let has_text := match x with Some (_ :: _) => true | _ => false end in
  match has_text, cs with
  | false, [] => py "<" ++ t ++ py " />"
  | _, _ =>
      py "<" ++ t ++ py ">"
      ++ (if has_text then escape_cdata (default [] x) else [])
      ++ flat_map serialize cs
      ++ py "</" ++ t ++ py ">"
  end.

(** [ElementTree(e).write(sio)] followed by
    [sio.getvalue().decode('utf-8')]. *)
Definition write (e : Element) : str := encode (serialize e).

End Etree.

Definition xml_append_node (s : Etree.Element) (tag text : str)
    : Etree.Element :=
  let c := Etree.Elem tag [] None [] in
  let c := Etree.set_text text c in
  Etree.append c s.

(** [snippet[key]] raises [KeyError] when the key is missing: [None]. *)
Definition snippet_to_xml (snippet : gmap str str) : option Etree.Element :=
  let s := Etree.Elem (py "snippet") [] None [] in
  s ← foldl (fun s key => s ← s; text ← snippet !! key;
                           Some (xml_append_node s key text))
            (Some s) known_keys;
  let content := Etree.Elem (py "content") [] None [] in
  text ← snippet !! py "content";
  let content := Etree.set_text text content in
  Some (Etree.append content s).

(** ** Paths and the file system *)

Definition swap_extension (path : str) : str :=
  if Py.endswith EXT_SNIPPET_SANE path
  then Py.replace EXT_SNIPPET_SANE EXT_SANESNIPPET path
  else Py.replace EXT_SANESNIPPET EXT_SNIPPET_SANE path.

Module Os.

Definition sep : N := 47.
Definition extsep : N := 46.

(** [os.path.join(a, b)] *)
Definition join (a b : str) : str :=
  if Py.startswith [sep] b then b
  else if bool_decide (a = []) || Py.endswith [sep] a then a ++ b
  else a ++ [sep] ++ b.

(** The characters of [r] before the first [x]. *)
Fixpoint before (x : N) (r : str) : str :=
  match r with
  | [] => []
  | c :: r' => if c =? x then [] else c :: before x r'
  end.

(** [os.path.basename(p)]: the text after the last [sep]. *)
Definition basename (p : str) : str := reverse (before sep (reverse p)).

(** [head.rstrip(sep)] on the reversed text: the text after its leading
    separators. *)
Fixpoint after_seps (r : str) : str :=
  match r with
  | [] => []
  | c :: r' => if c =? sep then after_seps r' else r
  end.

(** [os.path.dirname(p)]: the text up to the last [sep], without its
    trailing separators unless it is made of separators only. *)
Definition dirname (p : str) : str :=
  let head := take (length p - length (basename p)) p in
  if forallb (fun c => c =? sep) head then head
  else reverse (after_seps (reverse head)).

(** The directory a file path lies in: the path without its basename
    and the separator before it. *)
Definition parent (p : str) : str :=
  take (length p - S (length (basename p))) p.

(** [os.path.splitext(p)] for a path without separator: the extension
    starts at the last dot, unless only dots precede it. *)
Definition splitext (p : str) : str * str :=
  let ext := reverse (before extsep (reverse p)) in
  let stem := take (length p - S (length ext)) p in
  if bool_decide (length ext < length p)%nat
     && negb (forallb (fun c => c =? extsep) stem)
  then (stem, drop (length stem) p)
  else (p, []).

(** The file system, as far as the plugin can tell.  A file or a
    directory is identified by the text of its path, in the spelling in
    which [os.walk] builds it from the root: the model does not resolve
    repeated separators, [.] and [..] components, or links.

    - [dirs]: the directories, in the order in which the system
      enumerates the entries of a directory;
    - [files]: the regular files, each with its text as the locale's
      codec decodes it, before any translation of newlines;
    - [order]: the order in which the system enumerates files; the
      files it does not name follow, in the order of the map;
    - [undecodable]: the files whose bytes are no text of the locale's
      encoding, for which [f.read()] raises [UnicodeDecodeError];
    - [unreadable]: the files that [open(path, 'r')] refuses;
    - [locked]: the paths that [os.remove] and [open(path, 'w')]
      refuse (a file in use, a file or directory without permission). *)
Record filesystem : Type :=
  Filesystem { dirs : list str; files : gmap str str; order : list str;
               undecodable : list str; unreadable : list str;
               locked : list str }.

(** [os.path.exists(p)] *)
Definition exists_ (fs : filesystem) (p : str) : bool :=
  bool_decide (is_Some (files fs !! p)) || bool_decide (p ∈ dirs fs).

(** The files in the order in which the system enumerates them. *)
Definition entries (fs : filesystem) : list str :=
  let keys := (map_to_list (files fs)).*1 in
  filter (fun p => p ∈ keys) (remove_dups (order fs))
  ++ filter (fun p => p ∉ order fs) keys.

(** The names of the files that lie directly in the directory that
    [os.walk] yields as [d]. *)
Definition listdir (fs : filesystem) (d : str) : list str :=
  omap (fun p => if bool_decide (join d (basename p) = p
                                 ∧ basename p ≠ [])
                 then Some (basename p) else None)
       (entries fs).

(** The directories that lie directly in [d], as [os.walk] names them. *)
Definition subdirs (fs : filesystem) (d : str) : list str :=
  filter (fun p => join d (basename p) = p ∧ basename p ≠ []) (dirs fs).

(** [os.path.isdir(p)]: [p] is the path of a directory, or that path
    followed by one separator. *)
Definition isdir (fs : filesystem) (p : str) : bool :=
  bool_decide (p ≠ [] ∧ (p ∈ dirs fs ∨ Exists (fun d => p = d ++ [sep]) (dirs fs))).

(** The directories below [top], top-down and depth first, [n] levels
    deep. *)
Fixpoint walk_from (n : nat) (fs : filesystem) (top : str) : list str :=
  match n with
  | O => [top]
  | S n' => top :: flat_map (walk_from n' fs) (subdirs fs top)
  end.

(** The directories [os.walk(root)] yields: none when [root] is no
    directory (the error of [scandir] is ignored), and else [root] and
    the directories below it, top-down and depth first.  The
    directories of a tree do not change during a pass; the files of
    each directory are listed when the walk reaches it. *)
Definition walk (fs : filesystem) (root : str) : list str :=
  if isdir fs root then walk_from (length (dirs fs)) fs root else [].

End Os.

(** ** Text files *)

(** The text that [f.read()] returns for a file opened with
    [open(path, 'r')]: in this mode [\r\n] and [\r] are read as [\n]. *)
Fixpoint universal_newlines (s : str) : str :=
  match s with
  | [] => []
  | c :: s' =>
      if c =? Py.CR then
        Py.LF :: match s' with
                 | d :: s'' =>
                     if d =? Py.LF then universal_newlines s''
                     else universal_newlines s'
                 | [] => []
                 end
      else c :: universal_newlines s'
  end.

(** ** The synchronization pass *)

Inductive event : Type :=
| Print (msg : str)            (* print(msg) *)
| ErrorMessage (msg : str)     (* sublime.error_message(msg) *)
| Remove (path : str)          (* os.remove(path) succeeded *)
| Write (path data : str)      (* f.write(data) on a file opened for writing *)
| Uncaught (exception : str).  (* an exception left the plugin's code *)

Record world : Type :=
  World { fs : Os.filesystem; trace : list event }.

Definition emit (e : event) (w : world) : world :=
  World (fs w) (trace w ++ [e]).

(** What a call leaves: it returns a value, or an exception that no
    handler of the plugin catches leaves it; the effects up to there
    stay. *)
Inductive outcome (A : Type) : Type :=
| Returned (a : A) (w : world)
| Raised (w : world).
Arguments Returned {A} a w.
Arguments Raised {A} w.

Definition world_of {A} (o : outcome A) : world :=
  match o with Returned _ w => w | Raised w => w end.

(** [for x in l: f(x)] *)
Fixpoint for_each {B} (f : B -> world -> outcome unit) (l : list B)
    (w : world) : outcome unit :=
  match l with
  | [] => Returned tt w
  | x :: l' =>
      match f x w with
      | Returned _ w' => for_each f l' w'
      | Raised w' => Raised w'
      end
  end.

(** [open(path, 'r')] followed by [f.read()], which is not guarded by
    the handler of [open]. *)
Inductive reading : Type :=
| OpenFails             (* open raises: the handler prints *)
| ReadRaises            (* read raises UnicodeDecodeError: no handler *)
| Reads (text : str).

Definition open_read (w : world) (path : str) : reading :=
  match Os.files (fs w) !! path with
  | None => OpenFails
  | Some content =>
      if bool_decide (path ∈ Os.unreadable (fs w)) then OpenFails
      else if bool_decide (path ∈ Os.undecodable (fs w)) then ReadRaises
      else Reads (universal_newlines content)
  end.

(** The text that [open] and [read] give for [path], when both
    succeed. *)
Definition read_file (w : world) (path : str) : option str :=
  match open_read w path with Reads text => Some text | _ => None end.

(** The list [l] without [path]. *)
Definition forget (path : str) (l : list str) : list str :=
  filter (fun p => p ≠ path) l.

(** [os.remove(path)]; it raises when there is no such file, or when
    the system refuses. *)
Definition remove_file (path : str) (w : world) : option world :=
  match Os.files (fs w) !! path with
  | Some _ =>
      if bool_decide (path ∈ Os.locked (fs w)) then None
      else
        Some (emit (Remove path)
                (World (Os.Filesystem (Os.dirs (fs w))
                          (delete path (Os.files (fs w)))
                          (Os.order (fs w))
                          (forget path (Os.undecodable (fs w)))
                          (forget path (Os.unreadable (fs w)))
                          (Os.locked (fs w)))
                       (trace w)))
  | None => None
  end.

Definition quoted (path : str) : str := [96] ++ path ++ [96].

Section Sync.

Variable os_linesep : str.

(** [open(path, 'w')] followed by [f.write(data)]; opening raises when
    the directory of [path] does not exist, when [path] is a directory,
    or when the system refuses.  In this mode every [\n] is written as
    [os.linesep]; the text written is ASCII, which every codec of a
    locale that Python supports encodes. *)
Definition write_file (path data : str) (w : world) : option world :=
  if bool_decide (Os.parent path ∈ Os.dirs (fs w)
                  ∧ (path ∉ Os.dirs (fs w)) ∧ (path ∉ Os.locked (fs w))) then
    Some (emit (Write path data)
            (World (Os.Filesystem (Os.dirs (fs w))
                      (<[path := Py.replace [Py.LF] os_linesep data]>
                         (Os.files (fs w)))
                      (Os.order (fs w))
                      (forget path (Os.undecodable (fs w)))
                      (Os.unreadable (fs w))
                      (Os.locked (fs w)))
                   (trace w)))
  else None.

Definition regenerate_snippet (path : str) (onload : bool) (w : world)
    : outcome (option str) :=
  let name := (Os.splitext (Os.basename path)).1 in
  match open_read w path with
  | OpenFails =>
      Returned None
        (emit (Print (py "SaneSnippet: Unable to read " ++ quoted path)) w)
  | ReadRaises => Raised w
  | Reads read =>
      match parse_snippet os_linesep path name read with
      | Raise (SyntaxError e) =>
          let msg := match e with
                     | [] => py "Error parsing SaneSnippet"
                     | _ :: _ => e
                     end in
          let msg := msg ++ py " in file " ++ quoted path in
          Returned None
            (if onload then emit (Print (py "Error: " ++ msg)) w
             else emit (ErrorMessage msg) w)
      | Return snippet =>
          match snippet_to_xml snippet with
          | None =>
              Returned None
                (emit (Print (py "SaneSnippet: Could not write XML data into stream for file "
                              ++ quoted path)) w)
          | Some s => Returned (Some (Etree.write s)) w
          end
      end
  end.

(** The body of the loop over the files of one directory. *)
Definition visit_file (onload force : bool) (root basename : str)
    (w : world) : outcome unit :=
  let path := Os.join root basename in
  if Py.endswith EXT_SNIPPET_SANE basename then
    let sane_path := swap_extension path in
    if negb (Os.exists_ (fs w) sane_path) then
      match remove_file path w with
      | Some w' => Returned tt w'
      | None =>
          Returned tt
            (emit (Print (py "SaneSnippet: Unable to delete " ++ quoted path
                          ++ py ", file is probably in use")) w)
      end
    else Returned tt w
  else if Py.endswith EXT_SANESNIPPET basename then
    let sane_path := path in
    let path := swap_extension path in
    match regenerate_snippet sane_path onload w with
    | Raised w => Raised w
    | Returned None w => Returned tt w
    | Returned (Some generated) w =>
        let write (w : world) : outcome unit :=
          match write_file path generated w with
          | Some w' => Returned tt w'
          | None =>
              Returned tt
                (emit (Print (py "SaneSnippet: Unable to open " ++ quoted path)) w)
          end in
        if force || negb (Os.exists_ (fs w) path) then write w
        else match open_read w path with
             | OpenFails =>
                 Returned tt
                   (emit (Print (py "SaneSnippet: Unable to read " ++ quoted path)) w)
             | ReadRaises => Raised w
             | Reads read =>
                 if negb (Py.eqb read generated) then write w
                 else Returned tt w
             end
    end
  else Returned tt w.

(** The two loops of [regenerate_snippets]. *)
Definition visit_tree (root : str) (onload force : bool) (w : world)
    : outcome unit :=
  for_each (fun root w =>
              for_each (visit_file onload force root)
                       (Os.listdir (fs w) root) w)
           (Os.walk (fs w) root) w.

(** A call of [regenerate_snippets] from Sublime Text: an exception
    that leaves it ends the call, and Sublime Text logs it. *)
Definition regenerate_snippets (root : str) (onload force : bool)
    (w : world) : world :=
  match visit_tree root onload force w with
  | Returned _ w' => w'
  | Raised w' => emit (Uncaught (py "UnicodeDecodeError")) w'
  end.

End Sync.

(** ** The entry points of the plugin *)

Section Plugin.

Variable os_linesep : str.

(** [sublime.packages_path()], the default of [root], evaluated when the
    module is loaded. *)
Variable packages_path : str.

(** The call at module level: [regenerate_snippets(onload=True)]. *)
Definition on_load (w : world) : world :=
  regenerate_snippets os_linesep packages_path true false w.

(** [SaneSnippet.on_post_save] for a view with the file name [fn]. *)
Definition on_post_save (fn : str) (w : world) : world :=
  if Py.endswith (py ".sane-snippet") fn
  then regenerate_snippets os_linesep (Os.dirname fn) false false w
  else w.

(** [RegenerateSaneSnippetsCommand.run(force)]; [force] defaults to
    [True]. *)
Definition run (force : bool) (w : world) : world :=
  regenerate_snippets os_linesep packages_path false force w.

End Plugin.


(** * Notions of the specification

    The predicates in which the properties are stated: the newlines and
    delimiters of a document, the header lines, the records that the
    parser builds, the text that the serializer writes, the pairing of
    files by name, and the example documents and trees. *)


(** The newlines that the patterns accept. *)
Definition newline (x : str) : Prop :=
  x = [Py.CR; Py.LF] ∨ x = [Py.CR] ∨ x = [Py.LF].

(** The characters a newline is made of. *)
Definition eol (c : N) : Prop := c = Py.CR ∨ c = Py.LF.

(** [first r st st']: the matcher, started in [st], ends first in [st']. *)
Definition first (r : Re.regex) (st st' : Re.mstate) : Prop :=
  head (Re.run r st) = Some st'.

(** The part of [template] after the header. *)
Definition closing : Re.regex :=
  Re.Cat nnl (Re.Cat (Re.Str (py "---")) (Re.Cat nl
    (Re.Group (py "content") (Re.Star true Re.any_char)))).

(** [s] starts with a newline, three dashes and a newline. *)
Definition closing_at (s : str) : Prop :=
  ∃ ls nl2 c, newline ls ∧ newline nl2 ∧ s = ls ++ py "---" ++ nl2 ++ c.

(** The captured groups of [template.match(text)]. *)
Definition template_groups (text : str) : option (str * str * str) :=
  m ← Re.match_ template text;
  let d := Re.groupdict m in
  Some (d !!! py "header", d !!! py "linesep", d !!! py "content").

(** [text] has the three-delimiter form of [template]. *)
Definition delimited (text : str) : Prop :=
  ∃ nl1 h ls nl2 c, newline nl1 ∧ newline ls ∧ newline nl2
    ∧ text = py "---" ++ nl1 ++ h ++ ls ++ py "---" ++ nl2 ++ c.

(** The colon of a header line. *)
Definition COLON : N := 58.

(** A character that ends no line. *)
Definition inline (c : N) : Prop := Py.is_linebreak c = false.

(** A header line of a document: not empty, not a delimiter, without
    line boundary. *)
Definition plain (l : str) : Prop :=
  l ≠ [] ∧ l ≠ py "---" ∧ Forall inline l.

(** The header of a document: the lines [init] with their newlines, and
    the line [last], whose newline is the group [linesep]. *)
Definition header_of (init : list (str * str)) (last : str) : str :=
  flat_map (λ ls, ls.1 ++ ls.2) init ++ last.

(** A document: the opening delimiter line, the header with its last
    newline [ls], the closing delimiter line and the content [c]. *)
Definition document (nl1 : str) (init : list (str * str)) (last : str)
    (ls nl2 c : str) : str :=
  py "---" ++ nl1 ++ header_of init last ++ ls ++ py "---" ++ nl2 ++ c.

(** [h], followed by [R], contains no closing delimiter that starts
    inside [h]. *)
Definition unclosed (h R : str) : Prop :=
  ∀ k, (k < length h)%nat → ¬ closing_at (drop k (h ++ R)).

(** The record when the header is about to be read. *)
Definition initial (path name ls c : str) : gmap str str :=
  <[py "linesep" := ls]> (<[py "content" := c]> (<[py "scope" := []]>
  (<[py "tabTrigger" := []]> (<[py "description" := name]>
  (<[py "name" := name]> (<[py "path" := path]> ∅)))))).

(** A header line [key: value]: [kv.1] is the text before the first
    colon, [kv.2] the text after it. *)
Definition line_of (kv : str * str) : str := kv.1 ++ py ":" ++ kv.2.

(** A line [key: value] that the parser reads as one line with this key
    and this value: the key holds no colon, neither the key nor the
    value holds a line boundary of [str.splitlines], and the key, once
    trimmed, is one of the three known keys. *)
Definition recognized (kv : str * str) : Prop :=
  (COLON ∉ kv.1) ∧ Forall inline (kv.1) ∧ Forall inline (kv.2)
  ∧ Py.strip (kv.1) ∈ known_keys.

(** The record after the header lines [kvs] are read into [snippet]. *)
Definition fields (kvs : list (str * str)) (snippet : gmap str str)
    : gmap str str :=
  foldl (λ s kv, <[Py.strip kv.1 := Py.strip kv.2]> s) snippet kvs.

(** The value the lines [kvs] leave under [key]: that of the last line
    with this key, or [default]. *)
Definition last_value (key default : str) (kvs : list (str * str)) : str :=
  foldl (λ d kv, if bool_decide (Py.strip kv.1 = key) then Py.strip kv.2 else d)
        default kvs.

(** A document whose header is made of the [key: value] lines [init],
    each with its newline, and of the line [last], followed by the
    newline [ls]. *)
Definition sane_document (nl1 : str) (init : list (str * str * str))
    (last : str * str) (ls nl2 c : str) : str :=
  document nl1 (map (λ x, (line_of x.1, x.2)) init) (line_of last) ls nl2 c.

(** The messages of the two errors that name no key. *)
Definition header_error : str := py "Unable to parse SaneSnippet header".
Definition malformed_error : str := py "Unable to parse SaneSnippet".

(** The three characters that [_escape_cdata] escapes. *)
Definition AMP : N := 38.
Definition LT : N := 60.
Definition GT : N := 62.

(** The text of an element as it is written: the three escapes of
    [_escape_cdata], and a character reference for a character outside
    ASCII. *)
Definition xml_char (c : N) : str :=
  if c =? AMP then py "&amp;"
  else if c =? LT then py "&lt;"
  else if c =? GT then py "&gt;"
  else if c <? 128 then [c]
  else py "&#" ++ Etree.digits (N.to_uint c) ++ py ";".

Definition xml_text (x : str) : str := flat_map xml_char x.

(** An element with the text [x] as it is written. *)
Definition xml_node (tag x : str) : str :=
  match x with
  | [] => py "<" ++ tag ++ py " />"
  | _ :: _ => py "<" ++ tag ++ py ">" ++ xml_text x ++ py "</" ++ tag ++ py ">"
  end.

(** The element of a record with the four fields. *)
Definition snippet_element (d t s c : str) : Etree.Element :=
  Etree.Elem (py "snippet") [] None
    [Etree.Elem (py "description") [] (Some d) [];
     Etree.Elem (py "tabTrigger") [] (Some t) [];
     Etree.Elem (py "scope") [] (Some s) [];
     Etree.Elem (py "content") [] (Some c) []].

(** ** Examples *)

Definition hello_path : str := py "Packages/User/hello.sane-snippet".
Definition hello_name : str := py "hello".

(** The example document of the specification. *)
Definition hello_content : str :=
  py "print(" ++ [34] ++ py "Hello, $1" ++ [34] ++ py ")".

Definition hello_document : str :=
  py "---" ++ [Py.LF] ++ py "description: Hello World" ++ [Py.LF]
  ++ py "tabTrigger: hello" ++ [Py.LF] ++ py "scope: source.python" ++ [Py.LF]
  ++ py "---" ++ [Py.LF] ++ hello_content.

Definition hello_xml : str :=
  py "<snippet><description>Hello World</description>"
  ++ py "<tabTrigger>hello</tabTrigger><scope>source.python</scope>"
  ++ py "<content>print(" ++ [34] ++ py "Hello, $1" ++ [34]
  ++ py ")</content></snippet>".

(** The header lines of [hello_document]. *)
Definition hello_init : list (str * str * str) :=
  [((py "description", py " Hello World"), [Py.LF]);
   ((py "tabTrigger", py " hello"), [Py.LF])].
Definition hello_last : str * str := (py "scope", py " source.python").


(** Documents with an empty line in the header block: before the closing
    delimiter, and before a header line. *)
Definition blank_tail_document : str :=
  py "---" ++ [Py.LF] ++ py "description: x" ++ [Py.LF] ++ [Py.LF]
  ++ py "---" ++ [Py.LF] ++ py "c".
Definition blank_middle_document : str :=
  py "---" ++ [Py.LF] ++ [Py.LF] ++ py "description: x" ++ [Py.LF]
  ++ py "---" ++ [Py.LF] ++ py "c".

(** A document that gives the key [scope] twice. *)
Definition repeated_key_document : str :=
  py "---" ++ [Py.LF] ++ py "scope: a" ++ [Py.LF] ++ py "scope: b" ++ [Py.LF]
  ++ py "---" ++ [Py.LF] ++ py "c".



(** The header block of a text, as the specification delimits it: the
    lines between the two delimiter lines, each with its newline. *)
Definition spec_header_block (text : str) (lines : list (str * str)) : Prop :=
  ∃ nl1 nl2 content,
    newline nl1 ∧ newline nl2 ∧ Forall (λ x, newline x.2) lines
    ∧ text = py "---" ++ nl1 ++ flat_map (λ x, x.1 ++ x.2) lines
             ++ py "---" ++ nl2 ++ content.

(** A source file whose name holds the generated extension, and the
    generated file the pass writes for it. *)
Definition odd_source : str := py "pkg/x.sane.sublime-snippet.sane-snippet".
Definition odd_generated : str :=
  py "pkg/x.sane.sublime-snippet.sane.sublime-snippet".

(** The source file that pairs with a generated file by name: same
    directory, same base name, source extension. *)
Definition paired_source (generated : str) : str :=
  take (length generated - length EXT_SNIPPET_SANE) generated
  ++ EXT_SANESNIPPET.

(** The generated file that pairs with a source file by name. *)
Definition paired_generated (source : str) : str :=
  take (length source - length EXT_SANESNIPPET) source ++ EXT_SNIPPET_SANE.

Definition empty_world (dirs : list str) (files : gmap str str) : world :=
  World (Os.Filesystem dirs files [] [] [] []) [].

(** A tree with the one source file [odd_source]. *)
Definition odd_world : world :=
  empty_world [py "pkg"] (<[odd_source := hello_document]> ∅).

(** The same tree with its generated file, as the first pass leaves it. *)
Definition odd_world_synced : world :=
  empty_world [py "pkg"]
    (<[odd_generated := hello_xml]> (<[odd_source := hello_document]> ∅)).

#[global] Instance newline_dec x : Decision (newline x).
Proof. unfold newline. apply _. Defined.
#[global] Instance inline_dec c : Decision (inline c).
Proof. unfold inline. apply _. Defined.
#[global] Instance recognized_dec kv : Decision (recognized kv).
Proof. unfold recognized. apply _. Defined.

(** ** Notions of the further properties

    Trimmed values, occurrences of a text in a path, the reports of a
    pass and the files it touches, and the trees on which the pairing
    by [swap_extension] is the pairing by name. *)

(** A text without white space at either end. *)
Definition trimmed (s : str) : Prop := Py.strip s = s.

(** [x in s] *)
Definition contains (x s : str) : bool :=
  existsb (λ i, Py.startswith x (drop i s)) (seq 0 (S (length s))).

(** No proper suffix of [old] is a prefix of [old]: two occurrences of
    [old] in a text do not overlap. *)
Definition unbordered (old : str) : Prop :=
  ∀ k, (0 < k < length old)%nat → Py.startswith (drop k old) old = false.

(** The report of a failure for the file [path]. *)
Definition failure_report (onload : bool) (msg path : str) : event :=
  if onload then Print (py "Error: " ++ msg ++ py " in file " ++ quoted path)
  else ErrorMessage (msg ++ py " in file " ++ quoted path).

(** An event that removes or writes a file does so for a file with the
    generated extension. *)
Definition touches_generated (e : event) : Prop :=
  match e with
  | Remove p | Write p _ => Py.endswith EXT_SNIPPET_SANE p = true
  | _ => True
  end.

(** A message: printed, or shown in a dialog. *)
Definition is_report (e : event) : Prop :=
  match e with
  | Print _ | ErrorMessage _ => True
  | _ => False
  end.

(** A message of a pass with the flag [onload]: printed, or shown in a
    dialog when the flag is not set. *)
Definition reports (onload : bool) (e : event) : Prop :=
  match e with
  | Print _ => True
  | ErrorMessage _ => onload = false
  | _ => False
  end.

(** The world after [os.remove(path)] has succeeded. *)
Definition removed (path : str) (w : world) : world :=
  World (Os.Filesystem (Os.dirs (fs w)) (delete path (Os.files (fs w)))
           (Os.order (fs w)) (forget path (Os.undecodable (fs w)))
           (forget path (Os.unreadable (fs w))) (Os.locked (fs w)))
        (trace w ++ [Remove path]).

(** The world after [data] has been written to [path]. *)
Definition written (os_linesep path data : str) (w : world) : world :=
  World (Os.Filesystem (Os.dirs (fs w))
           (<[path := Py.replace [Py.LF] os_linesep data]> (Os.files (fs w)))
           (Os.order (fs w)) (forget path (Os.undecodable (fs w)))
           (Os.unreadable (fs w)) (Os.locked (fs w)))
        (trace w ++ [Write path data]).

(** [w'] differs from [w] in files with the generated extension only:
    the directories, the locks and the other files are those of [w],
    no file has become unreadable, and the trace of [w] is extended by
    events that touch generated files only. *)
Definition frame (w w' : world) : Prop :=
  Os.dirs (fs w') = Os.dirs (fs w)
  ∧ Os.locked (fs w') = Os.locked (fs w)
  ∧ (∀ p, p ∈ Os.undecodable (fs w') → p ∈ Os.undecodable (fs w))
  ∧ (∀ p, p ∈ Os.unreadable (fs w') → p ∈ Os.unreadable (fs w))
  ∧ (∀ p, Py.endswith EXT_SNIPPET_SANE p = false →
          Os.files (fs w') !! p = Os.files (fs w) !! p
          ∧ open_read w' p = open_read w p)
  ∧ ∃ evs, trace w' = trace w ++ evs ∧ Forall touches_generated evs.

Definition is_dialog (e : event) : Prop :=
  match e with ErrorMessage _ => True | _ => False end.

(** The events that [w'] adds to the trace of [w] hold no dialog. *)
Definition silent (w w' : world) : Prop :=
  ∃ evs, trace w' = trace w ++ evs ∧ Forall (λ e, ¬ is_dialog e) evs.

(** Swapping the extension twice gives back the path of every source
    file of the tree. *)
Definition swaps_back (fs : Os.filesystem) : Prop :=
  map_Forall (λ s _, Py.endswith EXT_SANESNIPPET s = true →
                     swap_extension (swap_extension s) = s) (Os.files fs).

(** No directory of the tree has the generated extension. *)
Definition no_generated_dir (fs : Os.filesystem) : Prop :=
  Forall (λ d, Py.endswith EXT_SNIPPET_SANE d = false) (Os.dirs fs).

(** Every file with the source extension or the generated extension
    can be decoded. *)
Definition snippets_decodable (fs : Os.filesystem) : Prop :=
  Forall (λ p, Py.endswith EXT_SANESNIPPET p = false
               ∧ Py.endswith EXT_SNIPPET_SANE p = false) (Os.undecodable fs).

(** The file [t] holds the document [xml]: the text written for it,
    each [\n] as [os.linesep], or, when [force] is not set, a text that
    is read as [xml]; it has been written when [force] is set. *)
Definition generated_file (os_linesep t xml : str) (force : bool)
    (w : world) : Prop :=
  ∃ content,
    Os.files (fs w) !! t = Some content
    ∧ (content = Py.replace [Py.LF] os_linesep xml
       ∨ (force = false ∧ open_read w t = Reads xml))
    ∧ (force = true → Write t xml ∈ trace w).

(** A tree with a source file whose generated file is stale, a source
    file that does not parse, a generated file without source, and a
    file of another kind that cannot be decoded. *)
Definition sample_world : world :=
  World (Os.Filesystem [py "pkg"; py "pkg/sub"]
           (<[py "pkg/hello.sane-snippet" := hello_document]>
            (<[py "pkg/hello.sane.sublime-snippet" := py "stale"]>
            (<[py "pkg/sub/broken.sane-snippet" := py "no header"]>
            (<[py "pkg/sub/old.sane.sublime-snippet" := hello_xml]>
            (<[py "pkg/icon.png" := [137; 80; 78; 71]]> ∅)))))
           [py "pkg/icon.png"; py "pkg/hello.sane-snippet"]
           [py "pkg/icon.png"] [] [])
        [].

(** Every file with the generated extension can be opened for
    reading. *)
Definition generated_readable (fs : Os.filesystem) : Prop :=
  Forall (λ p, Py.endswith EXT_SNIPPET_SANE p = false) (Os.unreadable fs).

(** No path of a file holds a carriage return. *)
Definition paths_without_CR (fs : Os.filesystem) : Prop :=
  map_Forall (λ (p : str) (_ : str), Py.CR ∉ p) (Os.files fs).

(** [w'] has the files of [w], and more messages. *)
Definition reported (w w' : world) : Prop :=
  ∃ evs, w' = World (fs w) (trace w ++ evs) ∧ Forall is_report evs.

(** Two outcomes of the same kind that leave the same files. *)
Definition same_files (o o' : outcome unit) : Prop :=
  match o, o' with
  | Returned _ w, Returned _ w' => fs w = fs w'
  | Raised w, Raised w' => fs w = fs w'
  | _, _ => False
  end.

(** A tree whose generated file is up to date, and cannot be opened for
    reading. *)
Definition synced_world : world :=
  World (Os.Filesystem [py "pkg"]
           (<[py "pkg/hello.sane-snippet" := hello_document]>
            (<[py "pkg/hello.sane.sublime-snippet" := hello_xml]> ∅))
           [] [] [py "pkg/hello.sane.sublime-snippet"] [])
        [].

(** A tree with a source file that does not parse and the generated
    file of an earlier version. *)
Definition broken_world : world :=
  empty_world [py "pkg"]
    (<[py "pkg/hello.sane-snippet" := py "no header"]>
     (<[py "pkg/hello.sane.sublime-snippet" := hello_xml]> ∅)).

(** A tree with a source file that cannot be decoded, listed before a
    source file that parses. *)
Definition undecodable_world : world :=
  World (Os.Filesystem [py "pkg"]
           (<[py "pkg/bad.sane-snippet" := [255; 254]]>
            (<[py "pkg/hello.sane-snippet" := hello_document]> ∅))
           [py "pkg/bad.sane-snippet"; py "pkg/hello.sane-snippet"]
           [py "pkg/bad.sane-snippet"] [] [])
        [].


(** * Facts *)

#[local] Arguments N.eqb : simpl nomatch.
#[global] Arguments Py.lit : simpl never.


(** ** Facts on strings *)

Lemma startswith_app pre t : Py.startswith pre (pre ++ t) = true.
Proof. induction pre as [|a pre IH]; simpl; [done|]. by rewrite N.eqb_refl. Qed.

Lemma startswith_inv pre s : Py.startswith pre s = true → ∃ t, s = pre ++ t.
Proof.
  revert s. induction pre as [|a pre IH]; intros s H; simpl in *; [by exists s|].
  destruct s as [|b s]; [done|].
  apply andb_prop in H as [Hab Hs]. apply N.eqb_eq in Hab as ->.
  destruct (IH _ Hs) as [t ->]. by exists t.
Qed.

Lemma strip_prefix_app l t : Re.strip_prefix l (l ++ t) = Some t.
Proof. induction l as [|a l IH]; simpl; [done|]. by rewrite N.eqb_refl. Qed.

Lemma strip_prefix_inv l s t : Re.strip_prefix l s = Some t → s = l ++ t.
Proof.
  revert s. induction l as [|a l IH]; intros s H; simpl in *; [congruence|].
  destruct s as [|b s]; [done|].
  destruct (N.eqb_spec a b) as [->|]; [|done]. by rewrite (IH _ H).
Qed.

(** ** Facts on the matcher *)

Lemma run_str l n t cs :
  Re.run (Re.Str l) (Re.MState n (l ++ t) cs) = [Re.MState (n + length l) t cs].
Proof. simpl. by rewrite strip_prefix_app. Qed.

Lemma run_str_inv l st st' :
  st' ∈ Re.run (Re.Str l) st →
  Re.rest st = l ++ Re.rest st' ∧ Re.pos st' = (Re.pos st + length l)%nat
  ∧ Re.caps st' = Re.caps st.
Proof.
  simpl. destruct (Re.strip_prefix l (Re.rest st)) as [t|] eqn:E.
  - intros ->%list_elem_of_singleton. simpl. by apply strip_prefix_inv in E.
  - by intros ?%elem_of_nil.
Qed.

Lemma run_nl_crlf n t cs :
  Re.run nl (Re.MState n (Py.CR :: Py.LF :: t) cs)
  = [Re.MState (n + 1 + 1) t cs; Re.MState (n + 1) (Py.LF :: t) cs].
Proof. reflexivity. Qed.

Lemma run_nl_lf n t cs :
  Re.run nl (Re.MState n (Py.LF :: t) cs) = [Re.MState (n + 1) t cs].
Proof. reflexivity. Qed.

Lemma run_nl_cr n t cs :
  head t ≠ Some Py.LF →
  Re.run nl (Re.MState n (Py.CR :: t) cs) = [Re.MState (n + 1) t cs].
Proof.
  intros H. destruct t as [|d t]; [reflexivity|].
  cbn. destruct (N.eqb_spec Py.LF d) as [<-|]; [by destruct H|done].
Qed.

Lemma run_nl_other n s cs :
  (∀ c, head s = Some c → ¬ eol c) → Re.run nl (Re.MState n s cs) = [].
Proof.
  intros H. destruct s as [|c s]; [reflexivity|].
  specialize (H c eq_refl). cbn.
  destruct (N.eqb_spec Py.CR c) as [<-|]; [destruct H; by left|].
  destruct (N.eqb_spec Py.LF c) as [<-|]; [destruct H; by right|done].
Qed.

(** Every end of [nl] has consumed a newline, and the groups are kept. *)
Lemma run_nl_inv st st' :
  st' ∈ Re.run nl st →
  ∃ x, newline x ∧ Re.rest st = x ++ Re.rest st'
       ∧ Re.pos st' = (Re.pos st + length x)%nat ∧ Re.caps st' = Re.caps st.
Proof.
  destruct st as [n s cs]. destruct s as [|c s].
  { rewrite run_nl_other; [by intros ?%elem_of_nil|done]. }
  destruct (decide (c = Py.CR)) as [->|Hcr].
  - destruct s as [|d s].
    + rewrite run_nl_cr by done. intros ->%list_elem_of_singleton.
      exists [Py.CR]. unfold newline. naive_solver.
    + destruct (decide (d = Py.LF)) as [->|Hlf].
      * rewrite run_nl_crlf. intros [->|[->|[]%elem_of_nil]%elem_of_cons]%elem_of_cons.
        -- exists [Py.CR; Py.LF]. unfold newline. simpl. split_and!; auto with lia.
        -- exists [Py.CR]. unfold newline. simpl. split_and!; auto with lia.
      * rewrite run_nl_cr by (simpl; congruence). intros ->%list_elem_of_singleton.
        exists [Py.CR]. unfold newline. naive_solver.
  - destruct (decide (c = Py.LF)) as [->|Hlf].
    + rewrite run_nl_lf. intros ->%list_elem_of_singleton.
      exists [Py.LF]. unfold newline. naive_solver.
    + rewrite run_nl_other; [by intros ?%elem_of_nil|].
      intros ? [= <-] [?|?]; done.
Qed.

Ltac pos_eq :=
  repeat match goal with
         | |- Some _ = Some _ => f_equal
         | |- Re.MState _ _ _ = Re.MState _ _ _ => f_equal
         | |- _ :: _ = _ :: _ => f_equal
         end; try lia; try done.

(** *** First matches *)

Lemma head_flat_map_skip {A B} (f : A → list B) l1 x l2 :
  (∀ y, y ∈ l1 → f y = []) →
  head (flat_map f (l1 ++ x :: l2)) = head (f x ++ flat_map f l2).
Proof.
  induction l1 as [|y l1 IH]; intros H; simpl; [done|].
  rewrite (H y) by left. simpl. apply IH. intros z Hz. apply H. by right.
Qed.

Lemma first_cat_skip r1 r2 st l1 mid l2 st' :
  Re.run r1 st = l1 ++ mid :: l2 →
  (∀ y, y ∈ l1 → Re.run r2 y = []) →
  first r2 mid st' → first (Re.Cat r1 r2) st st'.
Proof.
  unfold first. intros E Hskip Hmid. simpl. rewrite E.
  rewrite head_flat_map_skip by done.
  destruct (Re.run r2 mid); simplify_eq/=. done.
Qed.

Lemma first_cat r1 r2 st mid st' :
  first r1 st mid → first r2 mid st' → first (Re.Cat r1 r2) st st'.
Proof.
  unfold first at 1. intros [l E]%head_Some. apply (first_cat_skip _ _ _ [] mid l); [done|].
  by intros ? ?%elem_of_nil.
Qed.

Lemma first_group name r st st' :
  first r st st' →
  first (Re.Group name r) st
    (Re.MState (Re.pos st') (Re.rest st')
       ((name, take (Re.pos st' - Re.pos st) (Re.rest st)) :: Re.caps st')).
Proof. unfold first. simpl. intros [l ->]%head_Some. done. Qed.

Lemma first_str l n t cs :
  first (Re.Str l) (Re.MState n (l ++ t) cs) (Re.MState (n + length l) t cs).
Proof. unfold first. by rewrite run_str. Qed.

(** The first end of [nl] on a text that starts with the newline [x],
    unless [x] is a bare carriage return before a linefeed. *)
Lemma first_nl x n t cs :
  newline x → (x = [Py.CR] → head t ≠ Some Py.LF) →
  first nl (Re.MState n (x ++ t) cs) (Re.MState (n + length x) t cs).
Proof.
  unfold first. intros [->|[->| ->]] Hcr; simpl app.
  - rewrite run_nl_crlf. simpl. pos_eq.
  - rewrite run_nl_cr by auto. done.
  - by rewrite run_nl_lf.
Qed.

(** *** Runs of dots *)

Lemma star_nonempty g p cs n s : Re.star g p cs n s ≠ [].
Proof.
  revert n. induction s as [|c s IH]; intros n; simpl; [done|].
  destruct (p c); [|done]. destruct g; [|done].
  intros [? _]%app_eq_nil. by eapply IH.
Qed.

Lemma first_star_greedy_any cs n s :
  head (Re.star true Re.any_char cs n s) = Some (Re.MState (n + length s) [] cs).
Proof.
  revert n. induction s as [|c s IH]; intros n; simpl.
  - pos_eq.
  - rewrite head_app, IH. pos_eq.
Qed.

Lemma star_any_inv g cs n s st :
  st ∈ Re.star g Re.any_char cs n s →
  ∃ k, (k ≤ length s)%nat ∧ st = Re.MState (n + k) (drop k s) cs.
Proof.
  revert n. induction s as [|c s IH]; intros n; simpl.
  - intros ->%list_elem_of_singleton. exists O. split; [done|]. pos_eq.
  - intros H.
    assert (st = Re.MState n (c :: s) cs ∨ st ∈ Re.star g Re.any_char cs (S n) s)
      as [->|H'].
    { destruct g.
      - apply elem_of_app in H as [?| ->%list_elem_of_singleton]; auto.
      - apply elem_of_cons in H as [->|?]; auto. }
    + exists O. split; [lia|]. pos_eq.
    + destruct (IH _ H') as (k & Hk & ->). exists (S k). split; [lia|].
      simpl. pos_eq.
Qed.

(** The ends of a lazy run of dots over [h ++ R]: the ends inside [h],
    shortest first, then the end after [h]. *)
Lemma star_lazy_any_app cs n h R :
  ∃ l2, Re.star false Re.any_char cs n (h ++ R)
        = map (λ k, Re.MState (n + k) (drop k (h ++ R)) cs) (seq 0 (length h))
          ++ Re.MState (n + length h) R cs :: l2.
Proof.
  revert n. induction h as [|c h IH]; intros n; simpl.
  - destruct R; simpl; rewrite Nat.add_0_r; eauto.
  - destruct (IH (S n)) as [l2 ->]. exists l2.
    rewrite Nat.add_0_r. f_equal. rewrite <-seq_shift, map_map.
    rewrite <-Nat.add_succ_comm. f_equal.
    apply map_ext. intros k. simpl. f_equal. lia.
Qed.

(** *** Membership *)

Lemma elem_run_cat r1 r2 st st' :
  st' ∈ Re.run (Re.Cat r1 r2) st ↔ ∃ mid, mid ∈ Re.run r1 st ∧ st' ∈ Re.run r2 mid.
Proof.
  simpl. rewrite list_elem_of_In, in_flat_map.
  by setoid_rewrite list_elem_of_In.
Qed.

Lemma elem_run_group name r st st'' :
  st'' ∈ Re.run (Re.Group name r) st ↔
  ∃ st', st' ∈ Re.run r st ∧
         st'' = Re.MState (Re.pos st') (Re.rest st')
                  ((name, take (Re.pos st' - Re.pos st) (Re.rest st)) :: Re.caps st').
Proof.
  simpl. rewrite list_elem_of_In, in_map_iff.
  setoid_rewrite list_elem_of_In. split; intros (st' & ? & ?); eauto.
Qed.

Lemma elem_run_str l st st' :
  st' ∈ Re.run (Re.Str l) st ↔
  Re.rest st = l ++ Re.rest st' ∧ Re.pos st' = (Re.pos st + length l)%nat
  ∧ Re.caps st' = Re.caps st.
Proof.
  split; [apply run_str_inv|]. destruct st as [n s cs], st' as [n' s' cs'].
  simpl. intros (-> & -> & ->). rewrite strip_prefix_app. by left.
Qed.

Lemma elem_run_nl st st' :
  st' ∈ Re.run nl st ↔
  ∃ x, newline x ∧ Re.rest st = x ++ Re.rest st'
       ∧ Re.pos st' = (Re.pos st + length x)%nat ∧ Re.caps st' = Re.caps st.
Proof.
  split; [apply run_nl_inv|]. destruct st as [n s cs], st' as [n' s' cs'].
  cbn [Re.rest Re.pos Re.caps].
  intros (x & [->|[->| ->]] & -> & -> & ->); simpl app; simpl length.
  - replace (n + 2)%nat with (n + 1 + 1)%nat by lia. rewrite run_nl_crlf. left.
  - destruct s' as [|d s']; [rewrite run_nl_cr by done; left|].
    destruct (decide (d = Py.LF)) as [->|].
    + rewrite run_nl_crlf. right. left.
    + rewrite run_nl_cr by (simpl; congruence). left.
  - rewrite run_nl_lf. left.
Qed.

Lemma elem_star_any g cs n s st :
  st ∈ Re.star g Re.any_char cs n s ↔
  ∃ k, (k ≤ length s)%nat ∧ st = Re.MState (n + k) (drop k s) cs.
Proof.
  split; [apply star_any_inv|]. intros (k & Hk & ->).
  revert n k Hk. induction s as [|c s IH]; intros n k Hk; simpl in *.
  - assert (k = O) as -> by lia. rewrite Nat.add_0_r. left.
  - destruct k as [|k].
    + rewrite Nat.add_0_r. simpl. destruct g; [|left].
      apply elem_of_app. right. left.
    + replace (n + S k)%nat with (S n + k)%nat by lia. simpl drop.
      destruct g; [apply elem_of_app; left|right]; apply IH; lia.
Qed.

(** *** The closing delimiter *)

Lemma template_closing :
  template
  = Re.Cat (Re.Str (py "---")) (Re.Cat nl
      (Re.Cat (Re.Group (py "header") (Re.Star false Re.any_char)) closing)).
Proof. reflexivity. Qed.

Lemma elem_run_closing st st' :
  st' ∈ Re.run closing st ↔
  ∃ ls nl2 c, newline ls ∧ newline nl2
    ∧ Re.rest st = ls ++ py "---" ++ nl2 ++ c ++ Re.rest st'
    ∧ Re.pos st' = (Re.pos st + length ls + 3 + length nl2 + length c)%nat
    ∧ Re.caps st' = (py "content", c) :: (py "linesep", ls) :: Re.caps st.
Proof.
  unfold closing, nnl. rewrite elem_run_cat. setoid_rewrite elem_run_group.
  setoid_rewrite elem_run_cat. setoid_rewrite elem_run_str.
  setoid_rewrite elem_run_cat. setoid_rewrite elem_run_group.
  setoid_rewrite elem_run_nl. split.
  - intros (m1 & (m0 & (ls & Hls & E0 & P0 & C0) & ->) & m2 & (E1 & P1 & C1)
            & m3 & (nl2 & Hnl2 & E2 & P2 & C2) & m4 & Hm4 & ->).
    cbn in *. apply elem_star_any in Hm4 as (k & Hk & ->). cbn.
    change (length (py "---")) with 3%nat in P1.
    exists ls, nl2, (take k (Re.rest m3)).
    rewrite take_drop, C2, C1, C0, P0, E0, E1, E2, length_take.
    split_and!; try done; [lia|].
    replace (Re.pos m3 + k - Re.pos m3)%nat with k by lia.
    replace (Re.pos st + length ls - Re.pos st)%nat with (length ls) by lia.
    by rewrite take_app_length.
  - intros (ls & nl2 & c & Hls & Hnl2 & E & P & C).
    destruct st as [n s cs], st' as [n' s' cs']. cbn in *. subst.
    eexists. split.
    { eexists (Re.MState (n + length ls) _ cs). split; [|reflexivity].
      exists ls. cbn. done. }
    cbn. eexists (Re.MState _ _ _). cbn. split; [done|].
    eexists (Re.MState _ _ _). split.
    { exists nl2. cbn. done. }
    eexists (Re.MState _ _ _). split.
    { apply elem_star_any. exists (length c). cbn.
      rewrite length_app. split; [lia|reflexivity]. }
    cbn. rewrite drop_app_length. change (length (py "---")) with 3%nat.
    pos_eq.
    + replace (n + length ls + 3 + length nl2 + length c
               - (n + length ls + 3 + length nl2))%nat with (length c) by lia.
      by rewrite take_app_length.
    + replace (n + length ls - n)%nat with (length ls) by lia.
      by rewrite take_app_length.
Qed.

Lemma run_closing_nil st : ¬ closing_at (Re.rest st) → Re.run closing st = [].
Proof.
  intros H. destruct (Re.run closing st) as [|st' l] eqn:E; [done|].
  destruct H. assert (st' ∈ Re.run closing st) as Hin by (rewrite E; left).
  apply elem_run_closing in Hin as (ls & nl2 & c & ? & ? & -> & _).
  by exists ls, nl2, (c ++ Re.rest st').
Qed.

Lemma first_group_app name r n x t cs n' cs' :
  first r (Re.MState n (x ++ t) cs) (Re.MState n' t cs') →
  n' = (n + length x)%nat →
  first (Re.Group name r) (Re.MState n (x ++ t) cs)
        (Re.MState n' t ((name, x) :: cs')).
Proof.
  intros H ->. apply (first_group name) in H. cbn in H.
  replace (n + length x - n)%nat with (length x) in H by lia.
  by rewrite take_app_length in H.
Qed.

Lemma first_closing ls nl2 c n cs :
  newline ls → newline nl2 → (nl2 = [Py.CR] → head c ≠ Some Py.LF) →
  first closing (Re.MState n (ls ++ py "---" ++ nl2 ++ c) cs)
    (Re.MState (n + length ls + 3 + length nl2 + length c) []
       ((py "content", c) :: (py "linesep", ls) :: cs)).
Proof.
  intros Hls Hnl2 Hc. unfold closing, nnl.
  eapply first_cat.
  { apply first_group_app; [|reflexivity]. apply first_nl; [done|].
    intros _. by compute. }
  eapply first_cat; [apply first_str|].
  eapply first_cat; [by apply first_nl|].
  rewrite <-(app_nil_r c) at 1. apply first_group_app.
  - unfold first. cbn. rewrite first_star_greedy_any, app_nil_r. done.
  - change (length (py "---")) with 3%nat. lia.
Qed.

(** The header is the shortest text after which the closing delimiter
    is found. *)
Lemma first_header_closing n h R cs st' :
  (∀ k, (k < length h)%nat → ¬ closing_at (drop k (h ++ R))) →
  first closing (Re.MState (n + length h) R ((py "header", h) :: cs)) st' →
  first (Re.Cat (Re.Group (py "header") (Re.Star false Re.any_char)) closing)
        (Re.MState n (h ++ R) cs) st'.
Proof.
  intros Hskip Hfirst.
  destruct (star_lazy_any_app cs n h R) as [l2 E].
  eapply first_cat_skip; [cbn; rewrite E, map_app; reflexivity| |].
  - intros y. rewrite list_elem_of_In, in_map_iff.
    intros (x & <- & (k & <- & Hk%in_seq)%in_map_iff).
    apply run_closing_nil. cbn. apply Hskip. lia.
  - cbn. replace (n + length h - n)%nat with (length h) by lia.
    by rewrite take_app_length.
Qed.

(** *** The whole template *)

Lemma groupdict_template n s h ls c :
  let d := Re.groupdict
    (Re.MState n s [(py "content", c); (py "linesep", ls); (py "header", h)]) in
  d !!! py "header" = h ∧ d !!! py "linesep" = ls ∧ d !!! py "content" = c.
Proof.
  unfold Re.groupdict. cbn. split_and!.
  - rewrite !lookup_total_insert_ne by done. by rewrite lookup_total_insert_eq.
  - rewrite lookup_total_insert_ne by done. by rewrite lookup_total_insert_eq.
  - by rewrite lookup_total_insert_eq.
Qed.

Lemma elem_run_template text st' :
  st' ∈ Re.run template (Re.MState 0 text []) →
  ∃ nl1 h ls nl2 c, newline nl1 ∧ newline ls ∧ newline nl2
    ∧ text = py "---" ++ nl1 ++ h ++ ls ++ py "---" ++ nl2 ++ c ++ Re.rest st'
    ∧ Re.caps st' = [(py "content", c); (py "linesep", ls); (py "header", h)].
Proof.
  rewrite template_closing.
  intros (m1 & (E1 & P1 & C1)%elem_run_str
          & (m2 & (nl1 & Hnl1 & E2 & P2 & C2)%elem_run_nl
          & (m3 & (m & (k & Hk & ->)%elem_star_any & ->)%elem_run_group
          & (ls & nl2 & c & Hls & Hnl2 & E3 & P3 & C3)%elem_run_closing
            )%elem_run_cat)%elem_run_cat)%elem_run_cat.
  cbn in *. exists nl1, (take k (Re.rest m2)), ls, nl2, c.
  split_and!; try done.
  - rewrite E1, E2. do 2 f_equal. by rewrite <-E3, take_drop.
  - rewrite C3, C2, C1.
    by replace (Re.pos m2 + k - Re.pos m2)%nat with k by lia.
Qed.

Lemma run_template_delimited text :
  delimited text → Re.run template (Re.MState 0 text []) ≠ [].
Proof.
  intros (nl1 & h & ls & nl2 & c & Hnl1 & Hls & Hnl2 & ->).
  assert (∃ st', st' ∈ Re.run template
            (Re.MState 0 (py "---" ++ nl1 ++ h ++ ls ++ py "---" ++ nl2 ++ c) []))
    as [st' Hst']; [|by intros E; rewrite E in Hst'; apply elem_of_nil in Hst'].
  rewrite template_closing.
  set (R := ls ++ py "---" ++ nl2 ++ c).
  eexists (Re.MState _ [] _). apply elem_run_cat.
  exists (Re.MState (0 + length (py "---")) (nl1 ++ h ++ R) []).
  split; [by apply elem_run_str|]. apply elem_run_cat.
  exists (Re.MState (0 + length (py "---") + length nl1) (h ++ R) []).
  split; [apply elem_run_nl; by exists nl1|]. apply elem_run_cat.
  exists (Re.MState (0 + length (py "---") + length nl1 + length h) R
            [(py "header", h)]).
  split.
  { apply elem_run_group.
    exists (Re.MState (0 + length (py "---") + length nl1 + length h) R []).
    split.
    - apply elem_star_any. exists (length h). cbn [Re.rest Re.pos Re.caps].
      rewrite length_app, drop_app_length.
      split; [lia|done].
    - cbn [Re.rest Re.pos Re.caps]. do 3 f_equal.
      rewrite <-(take_app_length h R) at 1. f_equal. lia. }
  apply elem_run_closing. cbn [Re.rest Re.pos Re.caps].
  exists ls, nl2, c. rewrite app_nil_r. split_and!; done.
Qed.

Lemma first_cat_inv r1 r2 st st' :
  first (Re.Cat r1 r2) st st' → ∃ mid, mid ∈ Re.run r1 st ∧ first r2 mid st'.
Proof.
  unfold first. cbn. induction (Re.run r1 st) as [|x l IH]; cbn; [done|].
  destruct (Re.run r2 x) as [|y l'] eqn:E; cbn.
  - intros (mid & ? & ?)%IH. exists mid. split; [by right|done].
  - intros [= ->]. exists x. split; [left|by rewrite E].
Qed.

(** The first match of [template] reaches the end of the text. *)
Lemma first_template_rest st st' : first template st st' → Re.rest st' = [].
Proof.
  rewrite template_closing. unfold closing.
  intros (? & _ & (? & _ & (? & _ & (? & _ & (? & _ & (m & _ & H
    )%first_cat_inv)%first_cat_inv)%first_cat_inv)%first_cat_inv
    )%first_cat_inv)%first_cat_inv.
  unfold first in H. cbn in H.
  pose proof (first_star_greedy_any (Re.caps m) (Re.pos m) (Re.rest m)) as G.
  destruct (Re.star true Re.any_char (Re.caps m) (Re.pos m) (Re.rest m));
    simplify_eq/=. done.
Qed.

Lemma template_groups_None text :
  template_groups text = None ↔ ¬ delimited text.
Proof.
  unfold template_groups, Re.match_. split.
  - intros H Hd. apply run_template_delimited in Hd.
    by destruct (Re.run template (Re.MState 0 text [])); simplify_eq/=.
  - intros H. destruct (Re.run template (Re.MState 0 text [])) as [|m l] eqn:E;
      [done|]. destruct H.
    assert (m ∈ Re.run template (Re.MState 0 text [])) as Hin by (rewrite E; left).
    apply elem_run_template in Hin
      as (nl1 & h & ls & nl2 & c & ? & ? & ? & -> & _).
    by exists nl1, h, ls, nl2, (c ++ Re.rest m).
Qed.

Lemma template_groups_Some text h ls c :
  template_groups text = Some (h, ls, c) →
  ∃ nl1 nl2, newline nl1 ∧ newline ls ∧ newline nl2
    ∧ text = py "---" ++ nl1 ++ h ++ ls ++ py "---" ++ nl2 ++ c.
Proof.
  unfold template_groups, Re.match_.
  destruct (head _) as [m|] eqn:E; [|done].
  pose proof (first_template_rest _ _ E) as Hrest.
  apply head_Some_elem_of, elem_run_template in E
    as (nl1 & h' & ls' & nl2 & c' & ? & ? & ? & -> & C).
  destruct m as [n s cs]. cbn [Re.rest Re.caps] in *. subst.
  cbn [mbind option_bind].
  destruct (groupdict_template n [] h' ls' c') as (-> & -> & ->).
  intros [= -> -> ->]. exists nl1, nl2. by rewrite app_nil_r.
Qed.

(** The groups of a document whose header has no earlier closing
    delimiter, and whose bare carriage returns are not followed by a
    linefeed. *)
Lemma template_groups_first nl1 h ls nl2 c :
  newline nl1 → newline ls → newline nl2 →
  (nl1 = [Py.CR] → head (h ++ ls) ≠ Some Py.LF) →
  (nl2 = [Py.CR] → head c ≠ Some Py.LF) →
  (∀ k, (k < length h)%nat →
        ¬ closing_at (drop k (h ++ ls ++ py "---" ++ nl2 ++ c))) →
  template_groups (py "---" ++ nl1 ++ h ++ ls ++ py "---" ++ nl2 ++ c)
  = Some (h, ls, c).
Proof.
  intros Hnl1 Hls Hnl2 Hcr1 Hcr2 Hskip.
  unfold template_groups, Re.match_.
  assert (first template
            (Re.MState 0 (py "---" ++ nl1 ++ h ++ ls ++ py "---" ++ nl2 ++ c) [])
            (Re.MState (0 + length (py "---") + length nl1 + length h
                        + length ls + 3 + length nl2 + length c) []
               [(py "content", c); (py "linesep", ls); (py "header", h)]))
    as ->.
  { rewrite template_closing.
    eapply first_cat; [apply first_str|].
    eapply first_cat.
    { apply first_nl; [done|]. intros E. specialize (Hcr1 E).
      destruct h; [by destruct ls|done]. }
    apply first_header_closing; [done|]. by apply first_closing. }
  cbn [mbind option_bind].
  by destruct (groupdict_template
    (0 + length (py "---") + length nl1 + length h + length ls + 3
     + length nl2 + length c) [] h ls c) as (-> & -> & ->).
Qed.

(** *** Runs of a character class *)

Lemma star_inv g p cs n s st :
  st ∈ Re.star g p cs n s →
  ∃ k, (k ≤ length s)%nat ∧ st = Re.MState (n + k) (drop k s) cs.
Proof.
  revert n. induction s as [|c s IH]; intros n; simpl.
  - intros ->%list_elem_of_singleton. exists O. split; [done|]. pos_eq.
  - intros H.
    assert (st = Re.MState n (c :: s) cs ∨ st ∈ Re.star g p cs (S n) s)
      as [->|H'].
    { destruct (p c); [|apply list_elem_of_singleton in H; auto]. destruct g.
      - apply elem_of_app in H as [?| ->%list_elem_of_singleton]; auto.
      - apply elem_of_cons in H as [->|?]; auto. }
    + exists O. split; [lia|]. pos_eq.
    + destruct (IH _ H') as (k & Hk & ->). exists (S k). split; [lia|].
      simpl. pos_eq.
Qed.

Lemma star_lazy_app p cs n h R :
  Forall (λ c, p c = true) h →
  ∃ l2, Re.star false p cs n (h ++ R)
        = map (λ k, Re.MState (n + k) (drop k (h ++ R)) cs) (seq 0 (length h))
          ++ Re.MState (n + length h) R cs :: l2.
Proof.
  intros Hh. revert n. induction Hh as [|c h Hc Hh IH]; intros n; simpl.
  - destruct R as [|c R]; simpl; rewrite Nat.add_0_r; eauto.
    destruct (p c); eauto.
  - rewrite Hc. destruct (IH (S n)) as [l2 ->]. exists l2.
    rewrite Nat.add_0_r. f_equal. rewrite <-seq_shift, map_map.
    rewrite <-Nat.add_succ_comm. f_equal.
    apply map_ext. intros k. simpl. f_equal. lia.
Qed.

Lemma first_star_greedy p cs n w R :
  Forall (λ c, p c = true) w →
  (∀ c, head R = Some c → p c = false) →
  head (Re.star true p cs n (w ++ R)) = Some (Re.MState (n + length w) R cs).
Proof.
  intros Hw HR. revert n. induction Hw as [|c w Hc Hw IH]; intros n; simpl.
  - rewrite Nat.add_0_r. destruct R as [|c R]; simpl; [done|].
    by rewrite (HR c).
  - rewrite Hc, head_app, IH. pos_eq.
Qed.

Lemma elem_of_drop_inv {A} (x : A) n l : x ∈ drop n l → x ∈ l.
Proof. intros H. rewrite <-(take_drop n l). apply elem_of_app. by right. Qed.

(** *** Stripping *)

Lemma lstrip_split v :
  ∃ w, v = w ++ Py.lstrip v ∧ Forall (λ c, Py.isspace c = true) w
       ∧ ∀ c, head (Py.lstrip v) = Some c → Py.isspace c = false.
Proof.
  induction v as [|c v (w & E & Hw & Hh)]; simpl.
  - exists []. split_and!; [done|constructor|done].
  - destruct (Py.isspace c) eqn:Ec.
    + exists (c :: w). split_and!; [by rewrite E at 1|by constructor|done].
    + exists []. split_and!; [done|constructor|]. by intros ? [= <-].
Qed.

Lemma lstrip_idemp v : Py.lstrip (Py.lstrip v) = Py.lstrip v.
Proof.
  induction v as [|c v IH]; simpl; [done|].
  destruct (Py.isspace c) eqn:Ec; [done|]. simpl. by rewrite Ec.
Qed.

Lemma strip_lstrip v : Py.strip (Py.lstrip v) = Py.strip v.
Proof. unfold Py.strip. by rewrite lstrip_idemp. Qed.

Lemma lstrip_suffix v : Py.lstrip v `suffix_of` v.
Proof.
  destruct (lstrip_split v) as (w & E & _). exists w. done.
Qed.

(** *** The header line pattern *)

Lemma py_colon : py ":" = [COLON].
Proof. reflexivity. Qed.

Lemma not_newline_true c : c ≠ Py.LF → Re.not_newline c = true.
Proof. unfold Re.not_newline. by intros ->%N.eqb_neq. Qed.

Lemma Forall_not_newline (l : str) :
  Py.LF ∉ l → Forall (λ c, Re.not_newline c = true) l.
Proof.
  intros H. apply Forall_forall. intros c Hc. apply not_newline_true.
  by intros ->.
Qed.

(** [line_template.match] on a line with a colon: the key is the text
    before the first colon, the value the text after it without its
    leading white space. *)
Lemma first_line_template k v :
  COLON ∉ k → Py.LF ∉ k → Py.LF ∉ v →
  first line_template (Re.MState 0 (k ++ py ":" ++ v) [])
    (Re.MState (0 + length k + 1 + length v) []
       [(py "val", Py.lstrip v); (py "key", k)]).
Proof.
  intros Hcolon Hk Hv. unfold line_template.
  destruct (lstrip_split v) as (w & Ev & Hw & Hhead).
  eapply first_cat; [reflexivity|].
  destruct (star_lazy_app Re.not_newline [] 0 k (py ":" ++ v)
              (Forall_not_newline _ Hk)) as [l2 E].
  eapply first_cat_skip.
  { cbn [Re.run Re.rest Re.pos Re.caps]. rewrite E, map_app. reflexivity. }
  { intros y. rewrite list_elem_of_In, in_map_iff.
    intros (x & <- & (j & <- & Hj%in_seq)%in_map_iff).
    destruct (Re.run _ _) as [|m l] eqn:Em; [done|]. exfalso.
    assert (m ∈ Re.run (Re.Cat (Re.Str (py ":")) (Re.Cat (Re.Star true Py.isspace)
             (Re.Cat (Re.Group (py "val") (Re.Star true Re.not_newline)) Re.Eol)))
             (Re.MState (0 + j) (drop j (k ++ py ":" ++ v))
                ((py "key", take (0 + j - 0) (k ++ py ":" ++ v)) :: [])))
      as (m1 & (E1 & _)%elem_run_str & _)%elem_run_cat
      by (cbn [Re.rest Re.pos Re.caps] in Em; rewrite Em; left).
    cbn [Re.rest] in E1. apply Hcolon.
    rewrite drop_app_le in E1 by lia.
    assert (is_Some (drop j k !! O)) as [c Hc].
    { apply lookup_lt_is_Some. rewrite length_drop. lia. }
    destruct (drop j k) as [|c' t] eqn:Ed; [done|].
    rewrite py_colon in E1. injection E1 as -> _.
    apply (elem_of_drop_inv COLON j k). rewrite Ed. left. }
  cbn [Re.rest Re.pos Re.caps].
  replace (0 + length k - 0)%nat with (length k) by lia.
  rewrite take_app_length.
  eapply first_cat; [apply first_str|].
  eapply first_cat.
  { unfold first. cbn [Re.run Re.rest Re.pos Re.caps].
    rewrite Ev at 1. by apply first_star_greedy. }
  eapply first_cat.
  { rewrite <-(app_nil_r (Py.lstrip v)) at 1. apply first_group_app.
    - unfold first. cbn [Re.run Re.rest Re.pos Re.caps].
      apply first_star_greedy; [|done]. apply Forall_not_newline.
      intros H. apply Hv. destruct (lstrip_suffix v) as [w' ->].
      apply elem_of_app. by right.
    - reflexivity. }
  unfold first. cbn. pos_eq.
  rewrite Ev at 2. rewrite length_app. change (length (py ":")) with 1%nat. lia.
Qed.

Lemma line_template_no_colon line :
  COLON ∉ line → Re.match_ line_template line = None.
Proof.
  intros H. unfold Re.match_.
  destruct (head _) as [m|] eqn:E; [exfalso|done].
  apply head_Some_elem_of in E. unfold line_template in E.
  apply elem_run_cat in E as (m0 & Hm0 & (m1 & (m1' & Hs & ->)%elem_run_group
    & (m2 & (E2 & _)%elem_run_str & _)%elem_run_cat)%elem_run_cat).
  apply list_elem_of_singleton in Hm0 as ->.
  apply star_inv in Hs as (j & _ & ->).
  cbn [Re.rest] in E2. apply H, (elem_of_drop_inv COLON j).
  rewrite E2, py_colon. left.
Qed.

(** *** Header lines *)

Lemma groupdict_line n s k v :
  let d := Re.groupdict (Re.MState n s [(py "val", v); (py "key", k)]) in
  d !!! py "key" = k ∧ d !!! py "val" = v.
Proof.
  unfold Re.groupdict. cbn. split.
  - rewrite lookup_total_insert_ne by done. by rewrite lookup_total_insert_eq.
  - by rewrite lookup_total_insert_eq.
Qed.

(** A line with a colon: the key is the trimmed text before the first
    colon, the value the trimmed text after it. *)
Lemma parse_header_line_colon snippet k v :
  COLON ∉ k → Py.LF ∉ k → Py.LF ∉ v →
  parse_header_line snippet (k ++ py ":" ++ v)
  = if bool_decide (Py.strip k ∈ known_keys)
    then Return (<[Py.strip k := Py.strip v]> snippet)
    else Raise (SyntaxError (unexpected_property (Py.strip k))).
Proof.
  intros Hc Hk Hv. unfold parse_header_line, Re.match_.
  rewrite (first_line_template k v Hc Hk Hv).
  destruct (groupdict_line (0 + length k + 1 + length v) [] k (Py.lstrip v))
    as [Ek Ev].
  cbv zeta in *. rewrite lookup_total_insert_eq.
  rewrite lookup_total_insert_ne by done. rewrite Ek, Ev.
  unfold parse_val. by rewrite strip_lstrip.
Qed.

Lemma parse_header_line_no_colon snippet line :
  COLON ∉ line →
  parse_header_line snippet line
  = Raise (SyntaxError (py "Unable to parse SaneSnippet header")).
Proof.
  intros H. unfold parse_header_line. by rewrite line_template_no_colon.
Qed.

(** *** Lines *)

Lemma inline_not_eol c : inline c → ¬ eol c.
Proof. by intros H [->| ->]. Qed.

Lemma splitlines_from_inline cur l R :
  Forall inline l →
  Py.splitlines_from cur (l ++ R) = Py.splitlines_from (reverse l ++ cur) R.
Proof.
  intros Hl. revert cur. induction Hl as [|c l Hc Hl IH]; intros cur; [done|].
  simpl. rewrite Hc, IH, reverse_cons, <-app_assoc. done.
Qed.

Lemma splitlines_from_newline cur s R :
  newline s → (s = [Py.CR] → head R ≠ Some Py.LF) →
  Py.splitlines_from cur (s ++ R) = reverse cur :: Py.splitlines_from [] R.
Proof.
  intros [->|[->| ->]] Hcr; simpl.
  - by destruct R.
  - destruct R as [|d R]; [done|]. cbn.
    destruct (N.eqb_spec d Py.LF) as [->|]; [by destruct Hcr|done].
  - by destruct R.
Qed.

Lemma splitlines_from_end cur :
  cur ≠ [] → Py.splitlines_from cur [] = [reverse cur].
Proof. by destruct cur. Qed.

(** The lines of [splitlines] contain no line boundary. *)
Lemma splitlines_from_inline_lines cur s :
  Forall inline cur → Forall (Forall inline) (Py.splitlines_from cur s).
Proof.
  revert cur. induction s as [s IH] using (induction_ltof1 _ length).
  unfold ltof in IH. intros cur Hcur.
  assert (Forall inline (reverse cur)) as Hrev by by apply Forall_reverse.
  destruct s as [|c s]; simpl.
  - destruct cur; by repeat constructor.
  - destruct (Py.is_linebreak c) eqn:Ec.
    + constructor; [done|]. destruct s as [|d s]; [constructor|].
      destruct (_ && _); apply IH; simpl; auto with lia.
    + apply IH; [simpl; lia|]. by constructor.
Qed.

Lemma splitlines_inline s : Forall (Forall inline) (Py.splitlines s).
Proof. by apply splitlines_from_inline_lines. Qed.

Lemma header_of_cons l s init last :
  header_of ((l, s) :: init) last = l ++ s ++ header_of init last.
Proof. unfold header_of. simpl. by rewrite <-!app_assoc. Qed.

Lemma plain_head l R : plain l → ∀ c, head (l ++ R) = Some c → ¬ eol c.
Proof.
  intros (Hne & _ & Hin) c. destruct l as [|a l]; [done|]. intros [= <-].
  apply inline_not_eol. by inversion Hin.
Qed.

Lemma splitlines_header cur init last :
  Forall (λ ls, plain ls.1 ∧ newline ls.2) init → plain last →
  Py.splitlines_from cur (header_of init last)
  = match init with
    | [] => [reverse cur ++ last]
    | (l, _) :: init' => (reverse cur ++ l) :: init'.*1 ++ [last]
    end.
Proof.
  intros Hinit Hlast. revert cur.
  induction Hinit as [|[l s] init [Hl Hs] Hinit IH]; intros cur.
  - unfold header_of. simpl. rewrite <-(app_nil_r last) at 1.
    destruct Hlast as (Hne & _ & Hin).
    rewrite splitlines_from_inline by done.
    rewrite splitlines_from_end, reverse_app, reverse_involutive; [done|].
    intros [E _]%app_eq_nil. by apply (f_equal reverse) in E;
      rewrite reverse_involutive in E.
  - rewrite header_of_cons. simpl in *.
    rewrite splitlines_from_inline by apply Hl.
    rewrite splitlines_from_newline, reverse_app, reverse_involutive; [|done|].
    + f_equal. rewrite IH. destruct init as [|[l' s'] init']; by simpl.
    + intros _ E. destruct init as [|[l' s'] init'].
      * eapply (plain_head last [] Hlast); [|by right].
        by rewrite app_nil_r.
      * inversion Hinit as [|? ? [Hl' _]]; subst.
        eapply (plain_head l' _ Hl'); [|by right].
        rewrite header_of_cons in E. done.
Qed.

Lemma splitlines_header_lines init last :
  Forall (λ ls, plain ls.1 ∧ newline ls.2) init → plain last →
  Py.splitlines (header_of init last) = init.*1 ++ [last].
Proof.
  intros Hinit Hlast. unfold Py.splitlines.
  rewrite splitlines_header by done. by destruct init as [|[l s] init].
Qed.

(** *** No closing delimiter inside a header of plain lines *)

Lemma py_dashes : py "---" = [45; 45; 45].
Proof. reflexivity. Qed.

Lemma newline_head x R : newline x → ∃ c, head (x ++ R) = Some c ∧ eol c.
Proof.
  intros [->|[->| ->]]; eexists; (split; [reflexivity|]); unfold eol; auto.
Qed.

Lemma newline_head_nil x : newline x → ∃ c, head x = Some c ∧ eol c.
Proof. intros H. rewrite <-(app_nil_r x). by apply newline_head. Qed.

Lemma closing_at_head s : closing_at s → ∃ c, head s = Some c ∧ eol c.
Proof. intros (ls & nl2 & c & Hls & _ & ->). by apply newline_head. Qed.

Lemma dash_line l t nl2 c :
  plain l → (∃ a, head t = Some a ∧ eol a) → newline nl2 →
  py "---" ++ nl2 ++ c = l ++ t → False.
Proof.
  intros (Hne & Hnd & Hin) (a & Ha & Heol) Hnl2. rewrite py_dashes in *.
  destruct l as [|x1 [|x2 [|x3 [|x4 l]]]]; [done|..]; intros E.
  - simplify_eq/=. destruct Heol; simplify_eq.
  - simplify_eq/=. destruct Heol; simplify_eq.
  - simplify_eq/=.
  - injection E as <- <- <- E.
    destruct (newline_head nl2 c Hnl2) as (b & Hb & Hbe).
    rewrite E in Hb. simplify_eq/=.
    eapply inline_not_eol; [|done].
    by repeat match goal with H : Forall _ (_ :: _) |- _ => inversion_clear H end.
Qed.

Lemma not_closing_line s l t :
  newline s → plain l → (∃ a, head t = Some a ∧ eol a) →
  ¬ closing_at (s ++ l ++ t).
Proof.
  intros Hs Hl Ht (ls & nl2 & c & Hls & Hnl2 & E).
  assert (∀ a, head (l ++ t) = Some a → a ≠ Py.LF) as Hhead.
  { intros a Ha ->. eapply plain_head; [done..|by right]. }
  assert (ls = s) as ->.
  { rewrite py_dashes in E.
    destruct Hs as [->|[->| ->]], Hls as [->|[->| ->]]; simplify_eq/=; try done.
    - destruct (l ++ t) as [|a r] eqn:El; simplify_eq/=.
      by destruct (Hhead Py.LF). }
  apply app_inv_head in E. by eapply dash_line.
Qed.

Lemma unclosed_app h1 h2 R :
  unclosed h1 (h2 ++ R) → unclosed h2 R → unclosed (h1 ++ h2) R.
Proof.
  intros H1 H2 k Hk. rewrite <-app_assoc.
  destruct (decide (k < length h1)%nat) as [?|?]; [by apply H1|].
  rewrite drop_app_ge by lia. apply H2. rewrite length_app in Hk. lia.
Qed.

Lemma unclosed_inline l R : Forall inline l → unclosed l R.
Proof.
  intros Hl k Hk (c & Hc & Heol)%closing_at_head.
  rewrite drop_app_le in Hc by lia.
  destruct (drop k l) as [|a r] eqn:E.
  { apply (f_equal length) in E. rewrite length_drop in E. simpl in E. lia. }
  simplify_eq/=. eapply inline_not_eol; [|done].
  eapply Forall_forall; [done|]. apply (elem_of_drop_inv _ k). rewrite E. left.
Qed.

Lemma unclosed_newline s R :
  newline s → (∀ s', newline s' → ¬ closing_at (s' ++ R)) → unclosed s R.
Proof.
  intros Hs HR k Hk.
  destruct Hs as [->|[->| ->]]; simpl in Hk;
    (destruct k as [|[|k]]; [| |lia]); try lia; simpl;
    first [apply (HR [Py.CR; Py.LF]) | apply (HR [Py.CR]) | apply (HR [Py.LF])];
    unfold newline; auto.
Qed.

Lemma header_of_head init last t :
  Forall (λ ls, plain ls.1 ∧ newline ls.2) init → plain last →
  (∃ a, head t = Some a ∧ eol a) →
  ∃ l t', header_of init last ++ t = l ++ t' ∧ plain l
          ∧ ∃ a, head t' = Some a ∧ eol a.
Proof.
  intros Hinit Hlast Ht. destruct Hinit as [|[l s] init [Hl Hs] Hinit].
  - exists last, t. by unfold header_of.
  - exists l, (s ++ header_of init last ++ t).
    rewrite header_of_cons, <-!app_assoc. split_and!; [done..|].
    by apply newline_head.
Qed.

Lemma unclosed_header init last t :
  Forall (λ ls, plain ls.1 ∧ newline ls.2) init → plain last →
  (∃ a, head t = Some a ∧ eol a) →
  unclosed (header_of init last) t.
Proof.
  intros Hinit Hlast Ht.
  induction Hinit as [|[l s] init [Hl Hs] Hinit IH].
  - apply unclosed_inline, Hlast.
  - rewrite header_of_cons. simpl in *.
    apply unclosed_app; [apply unclosed_inline, Hl|].
    apply unclosed_app; [|done].
    apply unclosed_newline; [done|]. intros s' Hs'.
    destruct (header_of_head init last t) as (l' & t' & -> & Hl' & Ht');
      [done..|].
    by apply not_closing_line.
Qed.

(** *** The parser on a document of plain lines *)

Lemma parse_snippet_groups os_linesep path name text :
  parse_snippet os_linesep path name text
  = match template_groups text with
    | None => Raise (SyntaxError (py "Unable to parse SaneSnippet"))
    | Some (h, ls, c) =>
        parse_header (initial path name ls c) (Py.splitlines h)
    end.
Proof.
  unfold parse_snippet, template_groups, initial.
  destruct (Re.match_ template text) as [m|]; [|done].
  cbn [mbind option_bind]. cbv zeta. f_equal.
Qed.

Lemma parse_snippet_document os_linesep path name nl1 init last ls nl2 c :
  newline nl1 → newline ls → newline nl2 →
  Forall (λ ls, plain ls.1 ∧ newline ls.2) init → plain last →
  (nl2 = [Py.CR] → head c ≠ Some Py.LF) →
  parse_snippet os_linesep path name (document nl1 init last ls nl2 c)
  = parse_header (initial path name ls c) (init.*1 ++ [last]).
Proof.
  intros Hnl1 Hls Hnl2 Hinit Hlast Hcr.
  rewrite parse_snippet_groups. unfold document.
  rewrite template_groups_first; [|done..| |done|].
  - by rewrite splitlines_header_lines.
  - intros _ E.
    destruct (header_of_head init last ls Hinit Hlast (newline_head_nil ls Hls))
      as (l & t & El & Hl & _).
    rewrite El in E.
    eapply plain_head; [done..|by right].
  - apply unclosed_header; [done..|]. by apply newline_head.
Qed.


Lemma parse_snippet_malformed os_linesep path name text :
  ¬ delimited text →
  parse_snippet os_linesep path name text
  = Raise (SyntaxError (py "Unable to parse SaneSnippet")).
Proof.
  intros H%template_groups_None. by rewrite parse_snippet_groups, H.
Qed.

(** *** Recognized header lines *)

Lemma inline_LF (l : str) : Forall inline l → Py.LF ∉ l.
Proof.
  intros H Hin. rewrite Forall_forall in H. specialize (H _ Hin).
  by compute in H.
Qed.

Lemma line_plain k v :
  Forall inline k → Forall inline v → plain (k ++ py ":" ++ v).
Proof.
  intros Hk Hv. rewrite py_colon. split_and!.
  - by destruct k.
  - intros E. assert (COLON ∈ py "---") as Hin
      by (rewrite <-E; apply elem_of_app; right; left).
    rewrite py_dashes, !elem_of_cons, elem_of_nil in Hin.
    by destruct Hin as [?|[?|[?|?]]].
  - apply Forall_app. split; [done|]. by constructor.
Qed.

Lemma recognized_plain kv : recognized kv → plain (line_of kv).
Proof. intros (_ & Hk & Hv & _). by apply line_plain. Qed.

Lemma parse_header_line_recognized snippet kv :
  recognized kv →
  parse_header_line snippet (line_of kv)
  = Return (<[Py.strip kv.1 := Py.strip kv.2]> snippet).
Proof.
  intros (Hc & Hk & Hv & Hkey). unfold line_of.
  rewrite parse_header_line_colon by auto using inline_LF.
  by rewrite bool_decide_eq_true_2.
Qed.

Lemma parse_header_recognized snippet kvs :
  Forall recognized kvs →
  parse_header snippet (map line_of kvs) = Return (fields kvs snippet).
Proof.
  intros H. revert snippet. induction H as [|kv kvs Hkv H IH]; intros snippet;
    [done|].
  simpl. by rewrite parse_header_line_recognized, IH.
Qed.

Lemma fields_lookup kvs snippet key d :
  snippet !! key = Some d →
  fields kvs snippet !! key = Some (last_value key d kvs).
Proof.
  revert snippet d. induction kvs as [|kv kvs IH]; intros snippet d Hd; [done|].
  simpl. apply IH. rewrite lookup_insert. case_bool_decide; by case_decide.
Qed.

Lemma fields_lookup_other kvs snippet key :
  Forall recognized kvs → key ∉ known_keys →
  fields kvs snippet !! key = snippet !! key.
Proof.
  intros H Hkey. revert snippet.
  induction H as [|kv kvs (_ & _ & _ & Hkv) H IH]; intros snippet; [done|].
  simpl. rewrite IH, lookup_insert_ne; [done|]. by intros <-.
Qed.

(** A line that the loop accepts is a [key: value] line with a known
    key. *)
Lemma parse_header_line_Return snippet line s' :
  Forall inline line →
  parse_header_line snippet line = Return s' →
  ∃ kv, line = line_of kv ∧ recognized kv
        ∧ s' = <[Py.strip kv.1 := Py.strip kv.2]> snippet.
Proof.
  intros Hin H. destruct (decide (COLON ∈ line)) as [Hc|Hc].
  - apply list_elem_of_split_l in Hc as (k & v & -> & Hk).
    apply Forall_app in Hin as [Hink Hinv]. inversion_clear Hinv as [|? ? _ Hinv'].
    change (k ++ COLON :: v) with (k ++ py ":" ++ v) in H.
    rewrite parse_header_line_colon in H by auto using inline_LF.
    case_bool_decide; [|done]. injection H as <-.
    by exists (k, v).
  - by rewrite parse_header_line_no_colon in H.
Qed.

Lemma parse_header_Return snippet lines r :
  Forall (Forall inline) lines →
  parse_header snippet lines = Return r →
  ∃ kvs, lines = map line_of kvs ∧ Forall recognized kvs
         ∧ r = fields kvs snippet.
Proof.
  intros H. revert snippet. induction H as [|line lines Hl H IH];
    intros snippet Hr; simpl in Hr.
  - injection Hr as <-. by exists [].
  - destruct (parse_header_line snippet line) as [s'|] eqn:E; [|done].
    apply parse_header_line_Return in E as (kv & -> & Hkv & ->); [|done].
    apply IH in Hr as (kvs & -> & Hkvs & ->).
    exists (kv :: kvs). split_and!; [done|by constructor|done].
Qed.



Lemma parse_header_total snippet lines :
  (∃ r, parse_header snippet lines = Return r)
  ∨ (∃ msg, parse_header snippet lines = Raise (SyntaxError msg)).
Proof. destruct (parse_header snippet lines) as [r|[msg]]; eauto. Qed.

(** The parser on a document of recognized lines. *)
Lemma parse_sane_document os_linesep path name nl1 init last ls nl2 c :
  newline nl1 → newline ls → newline nl2 →
  Forall (λ x, recognized x.1 ∧ newline x.2) init → recognized last →
  (nl2 = [Py.CR] → head c ≠ Some Py.LF) →
  parse_snippet os_linesep path name (sane_document nl1 init last ls nl2 c)
  = Return (fields (init.*1 ++ [last]) (initial path name ls c)).
Proof.
  intros Hnl1 Hls Hnl2 Hinit Hlast Hcr. unfold sane_document.
  rewrite parse_snippet_document; [|done..| |by apply recognized_plain|done].
  - rewrite <-parse_header_recognized.
    + f_equal. rewrite map_app, <-!list_fmap_compose. done.
    + apply Forall_app. split; [|by constructor].
      apply Forall_fmap. by eapply Forall_impl; [done|]; intros ? [? _].
  - apply Forall_forall. intros x (y & <- & Hy)%list_elem_of_In%in_map_iff.
    apply list_elem_of_In in Hy. eapply Forall_forall in Hinit; [|done].
    simpl. split; [apply recognized_plain|]; apply Hinit.
Qed.

(** A bare carriage return before a linefeed is read with it as one
    newline. *)
Lemma newline_maximal nl2 c :
  newline nl2 →
  ∃ nl2' c', newline nl2' ∧ (nl2' = [Py.CR] → head c' ≠ Some Py.LF)
             ∧ nl2 ++ c = nl2' ++ c'.
Proof.
  intros Hnl2.
  destruct (decide (nl2 = [Py.CR] ∧ head c = Some Py.LF)) as [[-> Hc]|Hn].
  - destruct c as [|x c]; simplify_eq/=.
    exists [Py.CR; Py.LF], c. unfold newline. split_and!; auto.
  - exists nl2, c. split_and!; auto.
Qed.


Lemma Forall_recognized_lines (init : list (str * str * str)) last :
  Forall (λ x, recognized x.1 ∧ newline x.2) init → recognized last →
  Forall recognized (init.*1 ++ [last]).
Proof.
  intros Hinit Hlast. apply Forall_app. split; [|by constructor].
  apply Forall_fmap. by eapply Forall_impl; [done|]; intros ? [? _].
Qed.

(** Without the condition on the newline before the content, the
    content may lose a leading linefeed, and nothing else changes. *)
Lemma parse_sane_document_returns os_linesep path name nl1 init last ls nl2 c :
  newline nl1 → newline ls → newline nl2 →
  Forall (λ x, recognized x.1 ∧ newline x.2) init → recognized last →
  ∃ c', parse_snippet os_linesep path name (sane_document nl1 init last ls nl2 c)
        = Return (fields (init.*1 ++ [last]) (initial path name ls c')).
Proof.
  intros Hnl1 Hls Hnl2 Hinit Hlast.
  destruct (newline_maximal nl2 c Hnl2) as (nl2' & c' & Hnl2' & Hcr & E).
  exists c'. unfold sane_document, document. rewrite E.
  by apply (parse_sane_document _ _ _ nl1 init last ls nl2' c').
Qed.

Lemma parse_header_app snippet lines1 lines2 :
  parse_header snippet (lines1 ++ lines2)
  = match parse_header snippet lines1 with
    | Return snippet' => parse_header snippet' lines2
    | Raise e => Raise e
    end.
Proof.
  revert snippet. induction lines1 as [|line lines1 IH]; intros snippet; [done|].
  simpl. by destruct (parse_header_line snippet line).
Qed.

Lemma line_of_colon kv : COLON ∈ line_of kv.
Proof. unfold line_of. rewrite py_colon. apply elem_of_app. right. left. Qed.

Lemma known_keys_lookup kvs snippet name ls c path :
  snippet = fields kvs (initial path name ls c) →
  snippet !! py "description" = Some (last_value (py "description") name kvs)
  ∧ snippet !! py "tabTrigger" = Some (last_value (py "tabTrigger") [] kvs)
  ∧ snippet !! py "scope" = Some (last_value (py "scope") [] kvs).
Proof. intros ->. split_and!; by apply fields_lookup. Qed.

Lemma not_known_key key :
  bool_decide (key ∈ known_keys) = false → key ∉ known_keys.
Proof. by intros H%bool_decide_eq_false. Qed.

Lemma other_keys_lookup kvs path name ls c :
  Forall recognized kvs →
  fields kvs (initial path name ls c) !! py "content" = Some c
  ∧ fields kvs (initial path name ls c) !! py "linesep" = Some ls.
Proof.
  intros H. split; (rewrite fields_lookup_other; [done..|]);
    by apply not_known_key.
Qed.

Lemma first_colon_unique (k v k' v' : str) :
  COLON ∉ k → COLON ∉ k' → k ++ COLON :: v = k' ++ COLON :: v' →
  k = k' ∧ v = v'.
Proof.
  revert k'. induction k as [|x k IH]; intros [|y k'] Hk Hk' E;
    simplify_eq/=; try done.
  - destruct Hk'. left.
  - destruct Hk. left.
  - destruct (IH k') as [-> ->]; [| |done..].
    + intros ?. apply Hk. by right.
    + intros ?. apply Hk'. by right.
Qed.

(** ** Facts on the serializer *)

Lemma replace_single a new s :
  Py.replace [a] new s = flat_map (λ c, if a =? c then new else [c]) s.
Proof.
  unfold Py.replace. induction s as [|c s IH]; simpl; [done|].
  rewrite andb_true_r, IH. by destruct (a =? c).
Qed.

Lemma encode_app x y : Etree.encode (x ++ y) = Etree.encode x ++ Etree.encode y.
Proof. apply flat_map_app. Qed.

Lemma encode_escape_cdata x :
  Etree.encode (Etree.escape_cdata x) = xml_text x.
Proof.
  unfold Etree.escape_cdata, Etree.encode, xml_text.
  change (py ">") with [GT]. change (py "<") with [LT]. change (py "&") with [AMP].
  rewrite !replace_single.
  induction x as [|c x IH]; [done|].
  cbn [flat_map]. rewrite !flat_map_app, IH. f_equal. unfold xml_char.
  destruct (N.eqb_spec AMP c) as [<-|H1]; [done|].
  destruct (N.eqb_spec c AMP) as [->|_]; [done|].
  cbn [flat_map]. rewrite app_nil_r.
  destruct (N.eqb_spec LT c) as [<-|H2]; [done|].
  destruct (N.eqb_spec c LT) as [->|_]; [done|].
  cbn [flat_map]. rewrite app_nil_r.
  destruct (N.eqb_spec GT c) as [<-|H3]; [done|].
  destruct (N.eqb_spec c GT) as [->|_]; [done|].
  cbn [flat_map]. by rewrite app_nil_r.
Qed.

Lemma digits_range u : Forall (λ c, 48 ≤ c ≤ 57) (Etree.digits u).
Proof. induction u; simpl; constructor; try done; lia. Qed.


Lemma serialize_node tag x :
  Etree.encode tag = tag →
  Etree.encode (Etree.serialize (Etree.Elem tag [] (Some x) []))
  = xml_node tag x.
Proof.
  intros Htag. destruct x as [|c x]; cbn [Etree.serialize xml_node flat_map].
  - by rewrite !encode_app, Htag.
  - rewrite !encode_app, Htag. cbn [default]. rewrite app_nil_l.
    by rewrite encode_escape_cdata.
Qed.

Lemma snippet_to_xml_fields snippet d t s c :
  snippet !! py "description" = Some d → snippet !! py "tabTrigger" = Some t →
  snippet !! py "scope" = Some s → snippet !! py "content" = Some c →
  snippet_to_xml snippet = Some (snippet_element d t s c).
Proof.
  intros Hd Ht Hs Hc. unfold snippet_to_xml, known_keys. cbn [foldl].
  cbn [mbind option_bind]. rewrite Hd. cbn [mbind option_bind].
  rewrite Ht. cbn [mbind option_bind]. rewrite Hs. cbn [mbind option_bind].
  rewrite Hc. reflexivity.
Qed.

Lemma serialize_parent tag child children :
  Etree.serialize (Etree.Elem tag [] None (child :: children))
  = py "<" ++ tag ++ py ">"
    ++ flat_map Etree.serialize (child :: children) ++ py "</" ++ tag ++ py ">".
Proof. reflexivity. Qed.

Lemma write_snippet_element d t s c :
  Etree.write (snippet_element d t s c)
  = py "<snippet>" ++ xml_node (py "description") d
    ++ xml_node (py "tabTrigger") t ++ xml_node (py "scope") s
    ++ xml_node (py "content") c ++ py "</snippet>".
Proof.
  unfold Etree.write, snippet_element.
  rewrite serialize_parent. cbn [flat_map]. rewrite !encode_app, app_nil_r.
  rewrite !serialize_node by reflexivity.
  by rewrite <-!app_assoc.
Qed.

(** A record that the parser returns has the four fields. *)
Lemma parse_snippet_Return os_linesep path name text r :
  parse_snippet os_linesep path name text = Return r →
  ∃ h ls c kvs, template_groups text = Some (h, ls, c)
    ∧ Py.splitlines h = map line_of kvs ∧ Forall recognized kvs
    ∧ r = fields kvs (initial path name ls c).
Proof.
  rewrite parse_snippet_groups.
  destruct (template_groups text) as [[[h ls] c]|] eqn:E; [|done].
  intros (kvs & ? & ? & ->)%parse_header_Return; [|apply splitlines_inline].
  by exists h, ls, c, kvs.
Qed.

Lemma initial_lookup path name ls c :
  initial path name ls c !! py "description" = Some name
  ∧ initial path name ls c !! py "tabTrigger" = Some []
  ∧ initial path name ls c !! py "scope" = Some []
  ∧ initial path name ls c !! py "content" = Some c
  ∧ initial path name ls c !! py "linesep" = Some ls.
Proof. done. Qed.

(** ** Facts on the path pairing *)

Lemma replace_from_skip n old new s :
  (length s ≤ n)%nat → Py.replace_from n old new s = [].
Proof.
  revert n. induction s as [|c s IH]; intros n Hn; [done|].
  destruct n as [|n]; simpl in *; [lia|]. apply IH. lia.
Qed.

(** When [old] occurs in [stem ++ old] at its end only, [replace] changes
    that occurrence alone. *)
Lemma replace_suffix old new stem :
  old ≠ [] →
  (∀ i, (i < length stem)%nat → Py.startswith old (drop i (stem ++ old)) = false) →
  Py.replace old new (stem ++ old) = stem ++ new.
Proof.
  intros Hold Hocc. unfold Py.replace. destruct old as [|a old]; [done|].
  induction stem as [|c stem IH].
  - pose proof (startswith_app (a :: old) []) as E. rewrite app_nil_r in E.
    cbn [app Py.replace_from]. rewrite E, replace_from_skip; [|simpl; lia].
    by rewrite app_nil_r.
  - pose proof (Hocc O) as E. cbn [drop app length] in E.
    cbn [app Py.replace_from]. rewrite E by lia. f_equal. apply IH.
    intros i Hi. apply (Hocc (S i)). simpl. lia.
Qed.

Lemma endswith_app suf stem : Py.endswith suf (stem ++ suf) = true.
Proof. unfold Py.endswith. rewrite reverse_app. apply startswith_app. Qed.

(** A path with the source extension does not have the generated one. *)
Lemma endswith_source_not_generated stem :
  Py.endswith EXT_SNIPPET_SANE (stem ++ EXT_SANESNIPPET) = false.
Proof. unfold Py.endswith. rewrite reverse_app. reflexivity. Qed.

Lemma swap_extension_source stem :
  (∀ i, (i < length stem)%nat →
        Py.startswith EXT_SANESNIPPET (drop i (stem ++ EXT_SANESNIPPET)) = false) →
  swap_extension (stem ++ EXT_SANESNIPPET) = stem ++ EXT_SNIPPET_SANE.
Proof.
  intros H. unfold swap_extension. rewrite endswith_source_not_generated.
  by apply replace_suffix.
Qed.

Lemma swap_extension_generated stem :
  (∀ i, (i < length stem)%nat →
        Py.startswith EXT_SNIPPET_SANE (drop i (stem ++ EXT_SNIPPET_SANE)) = false) →
  swap_extension (stem ++ EXT_SNIPPET_SANE) = stem ++ EXT_SANESNIPPET.
Proof.
  intros H. unfold swap_extension. rewrite endswith_app.
  by apply replace_suffix.
Qed.

(** ** Facts on the synchronization pass *)

Lemma visit_file_generated os_linesep onload force root basename w :
  Py.endswith EXT_SNIPPET_SANE basename = true →
  visit_file os_linesep onload force root basename w
  = let path := Os.join root basename in
    if Os.exists_ (fs w) (swap_extension path) then Returned tt w
    else match remove_file path w with
         | Some w' => Returned tt w'
         | None =>
             Returned tt
               (emit (Print (py "SaneSnippet: Unable to delete " ++ quoted path
                             ++ py ", file is probably in use")) w)
         end.
Proof.
  intros H. unfold visit_file. rewrite H. cbv zeta.
  by destruct (Os.exists_ _ _).
Qed.

(** The write rule for a source file that parses and serializes, when
    the system refuses nothing: the generated file is written when
    [force] is set, when it does not exist, or when the text read from
    it differs. *)
Lemma visit_file_source os_linesep onload force root basename w generated :
  Py.endswith EXT_SNIPPET_SANE basename = false →
  Py.endswith EXT_SANESNIPPET basename = true →
  regenerate_snippet os_linesep (Os.join root basename) onload w
  = Returned (Some generated) w →
  let path := swap_extension (Os.join root basename) in
  path ∉ Os.dirs (fs w) → Os.parent path ∈ Os.dirs (fs w) →
  path ∉ Os.locked (fs w) → path ∉ Os.unreadable (fs w) →
  path ∉ Os.undecodable (fs w) →
  visit_file os_linesep onload force root basename w
  = let written :=
      World (Os.Filesystem (Os.dirs (fs w))
               (<[path := Py.replace [Py.LF] os_linesep generated]>
                  (Os.files (fs w)))
               (Os.order (fs w)) (forget path (Os.undecodable (fs w)))
               (Os.unreadable (fs w)) (Os.locked (fs w)))
            (trace w ++ [Write path generated]) in
    match Os.files (fs w) !! path with
    | None => Returned tt written
    | Some read =>
        if force || negb (Py.eqb (universal_newlines read) generated)
        then Returned tt written else Returned tt w
    end.
Proof.
  intros Hgen Hsrc Hre path Hdir Hparent Hlock Hread Hdec. unfold visit_file.
  rewrite Hgen, Hsrc. cbv zeta. rewrite Hre. fold path.
  unfold Os.exists_, open_read, write_file.
  rewrite (bool_decide_eq_false_2 (path ∈ Os.dirs _)) by done.
  rewrite (bool_decide_eq_true_2 (_ ∧ _)) by done.
  rewrite (bool_decide_eq_false_2 (path ∈ Os.unreadable _)) by done.
  rewrite (bool_decide_eq_false_2 (path ∈ Os.undecodable _)) by done.
  rewrite orb_false_r. unfold emit. cbn [fs trace].
  destruct (Os.files (fs w) !! path) as [read|] eqn:E.
  - rewrite bool_decide_eq_true_2 by eauto. cbn [negb]. rewrite orb_false_r.
    destruct force; cbn [orb]; [done|]. by destruct (negb _).
  - rewrite bool_decide_eq_false_2 by (by intros [? ?]). cbn [negb].
    by rewrite orb_true_r.
Qed.


(** * The claims *)

Ltac newline_tac := unfold newline; auto.
Ltac decide_tac := apply (bool_decide_unpack _); vm_compute; exact I.

(** ** The parser *)




(** C2, as the specification states it, fails.  An empty line before the
    closing delimiter is skipped and the document is parsed; an empty
    line before a header line makes the parser fail with the error of a
    header line, which is not the error of the unknown key [""]. *)
Lemma empty_header_line_counterexample :
  spec_header_block blank_tail_document
    [(py "description: x", [Py.LF]); ([], [Py.LF])]
  ∧ (∃ r, parse_snippet [Py.LF] hello_path hello_name blank_tail_document
          = Return r)
  ∧ spec_header_block blank_middle_document
      [([], [Py.LF]); (py "description: x", [Py.LF])]
  ∧ parse_snippet [Py.LF] hello_path hello_name blank_middle_document
    = Raise (SyntaxError header_error)
  ∧ header_error ≠ unexpected_property [].
Proof.
  split_and!.
  - exists [Py.LF], [Py.LF], (py "c").
    split_and!; [newline_tac..|decide_tac|reflexivity].
  - exists (fields [(py "description", py " x")]
              (initial hello_path hello_name [Py.LF] (py "c"))).
    vm_compute. reflexivity.
  - exists [Py.LF], [Py.LF], (py "c").
    split_and!; [newline_tac..|decide_tac|reflexivity].
  - by vm_compute.
  - by vm_compute.
Qed.

(** C2 (amended).  When the header that [template] captures, split into
    lines, has an empty line, the parser fails.  When every line before
    the first empty line is a [key: value] line with a known key, the
    failure is the error of a header line: an empty line has no colon and
    does not match the pattern of a line. *)
Theorem empty_header_line_error os_linesep path name text h ls c :
  template_groups text = Some (h, ls, c) →
  [] ∈ Py.splitlines h →
  (∃ msg, parse_snippet os_linesep path name text = Raise (SyntaxError msg))
  ∧ (∀ kvs rest,
       Py.splitlines h = map line_of kvs ++ [] :: rest →
       Forall recognized kvs →
       parse_snippet os_linesep path name text
       = Raise (SyntaxError header_error)).
Proof.
  intros Hg Hempty. split.
  - destruct (parse_snippet os_linesep path name text) as [r|[msg]] eqn:E;
      [exfalso|by eauto].
    apply parse_snippet_Return in E as (h' & ls' & c' & kvs & Hg' & Hl & _).
    rewrite Hg in Hg'. injection Hg' as <- <- <-. rewrite Hl in Hempty.
    apply list_elem_of_In, in_map_iff in Hempty as (kv & Hkv & _).
    pose proof (line_of_colon kv) as Hc. rewrite Hkv in Hc.
    by apply elem_of_nil in Hc.
  - intros kvs rest Hl Hkvs. rewrite parse_snippet_groups, Hg, Hl.
    rewrite parse_header_app, parse_header_recognized by done.
    cbn [parse_header]. rewrite parse_header_line_no_colon; [done|].
    by intros ?%elem_of_nil.
Qed.

Lemma empty_header_line_error_witness :
  (∃ msg, parse_snippet [Py.LF] hello_path hello_name blank_middle_document
          = Raise (SyntaxError msg))
  ∧ parse_snippet [Py.LF] hello_path hello_name blank_middle_document
    = Raise (SyntaxError header_error).
Proof.
  destruct (empty_header_line_error [Py.LF] hello_path hello_name
              blank_middle_document ([Py.LF] ++ py "description: x")
              [Py.LF] (py "c")) as [H1 H2].
  - vm_compute. reflexivity.
  - vm_compute. left.
  - split; [exact H1|]. apply (H2 [] [py "description: x"]).
    + vm_compute. reflexivity.
    + constructor.
Defined.

(** C3, as the specification states it, fails: a document that repeats
    a known key is parsed, and the field holds the later value. *)
Lemma repeated_key_counterexample :
  ∃ r, parse_snippet [Py.LF] hello_path hello_name repeated_key_document
       = Return r
       ∧ r !! py "scope" = Some (py "b").
Proof.
  exists (fields [(py "scope", py " a"); (py "scope", py " b")]
            (initial hello_path hello_name [Py.LF] (py "c"))).
  split; vm_compute; reflexivity.
Qed.

(** C3 (amended).  In every record that the parser returns, each of
    [description], [tabTrigger] and [scope] holds the trimmed value of
    the last line with that key, among the lines into which
    [str.splitlines] splits the captured header, and its default (the
    name, the empty string, the empty string) when no line has it; the
    text [description: a], a form feed, [scope: b] counts as two lines.
    For a document of [key: value] lines with known keys, whose keys and
    values hold no line boundary of [str.splitlines], these are the lines
    of the document.  Every line of the captured header that is not a
    [key: value] line with a known key makes the parser fail; an empty
    line directly before the closing delimiter is no line of the
    captured header, and is ignored. *)
Theorem header_fields_last_value os_linesep path name :
  (∀ text r,
     parse_snippet os_linesep path name text = Return r →
     ∃ h ls c kvs,
       template_groups text = Some (h, ls, c)
       ∧ Py.splitlines h = map line_of kvs
       ∧ Forall (λ kv, (COLON ∉ kv.1) ∧ Py.strip (kv.1) ∈ known_keys) kvs
       ∧ r !! py "description" = Some (last_value (py "description") name kvs)
       ∧ r !! py "tabTrigger" = Some (last_value (py "tabTrigger") [] kvs)
       ∧ r !! py "scope" = Some (last_value (py "scope") [] kvs))
  ∧ (∃ r, parse_snippet os_linesep path name
            (py "---" ++ [Py.LF] ++ py "description: a" ++ [12]
             ++ py "scope: b" ++ [Py.LF] ++ py "---" ++ [Py.LF] ++ py "c")
          = Return r
          ∧ r !! py "description" = Some (py "a")
          ∧ r !! py "scope" = Some (py "b"))
  ∧ (∀ nl1 init last ls nl2 c,
       newline nl1 → newline ls → newline nl2 →
       Forall (λ x, recognized x.1 ∧ newline x.2) init → recognized last →
       ∃ r, parse_snippet os_linesep path name
              (sane_document nl1 init last ls nl2 c) = Return r
            ∧ r !! py "description"
              = Some (last_value (py "description") name (init.*1 ++ [last]))
            ∧ r !! py "tabTrigger"
              = Some (last_value (py "tabTrigger") [] (init.*1 ++ [last]))
            ∧ r !! py "scope"
              = Some (last_value (py "scope") [] (init.*1 ++ [last])))
  ∧ (∀ text h ls c line,
       template_groups text = Some (h, ls, c) →
       line ∈ Py.splitlines h →
       ¬ (∃ kv, line = line_of kv ∧ (COLON ∉ kv.1)
                ∧ Py.strip (kv.1) ∈ known_keys) →
       ∃ msg, parse_snippet os_linesep path name text
              = Raise (SyntaxError msg))
  ∧ (spec_header_block blank_tail_document
       [(py "description: x", [Py.LF]); ([], [Py.LF])]
     ∧ ∃ r, parse_snippet os_linesep path name blank_tail_document = Return r).
Proof.
  split_and!.
  - intros text r (h & ls & c & kvs & Hg & Hl & Hkvs & E)%parse_snippet_Return.
    destruct (known_keys_lookup kvs r name ls c path E) as (Hd & Ht & Hs).
    exists h, ls, c, kvs. split_and!; [done|done| |done|done|done].
    eapply Forall_impl; [exact Hkvs|]. by intros kv (? & _ & _ & ?).
  - exists (fields [(py "description", py " a"); (py "scope", py " b")]
              (initial path name [Py.LF] (py "c"))).
    split_and!; [|done..]. rewrite parse_snippet_groups.
    assert (template_groups
              (py "---" ++ [Py.LF] ++ py "description: a" ++ [12]
               ++ py "scope: b" ++ [Py.LF] ++ py "---" ++ [Py.LF] ++ py "c")
            = Some (py "description: a" ++ [12] ++ py "scope: b",
                    [Py.LF], py "c")) as ->
      by (vm_compute; reflexivity).
    rewrite <-(parse_header_recognized (initial path name [Py.LF] (py "c"))
                 [(py "description", py " a"); (py "scope", py " b")])
      by decide_tac.
    reflexivity.
  - intros nl1 init last ls nl2 c Hnl1 Hls Hnl2 Hinit Hlast.
    destruct (parse_sane_document_returns os_linesep path name
                nl1 init last ls nl2 c) as [c' E]; [done..|].
    eexists. split; [exact E|]. by eapply known_keys_lookup.
  - intros text h ls c line Hg Hline Hnot.
    destruct (parse_snippet os_linesep path name text) as [r|[msg]] eqn:E;
      [exfalso|by eauto].
    apply parse_snippet_Return in E as (h' & ls' & c' & kvs & Hg' & Hl & Hkvs & _).
    rewrite Hg in Hg'. injection Hg' as <- <- <-. rewrite Hl in Hline.
    apply list_elem_of_In, in_map_iff in Hline as (kv & <- & Hkv).
    apply list_elem_of_In in Hkv.
    rewrite Forall_forall in Hkvs. destruct (Hkvs kv Hkv) as (? & _ & _ & ?).
    apply Hnot. by exists kv.
  - exists [Py.LF], [Py.LF], (py "c").
    split_and!; [newline_tac..|decide_tac|reflexivity].
  - exists (fields [(py "description", py " x")]
              (initial path name [Py.LF] (py "c"))).
    rewrite parse_snippet_groups.
    assert (template_groups blank_tail_document
            = Some (py "description: x" ++ [Py.LF], [Py.LF], py "c")) as ->
      by (vm_compute; reflexivity).
    rewrite <-(parse_header_recognized (initial path name [Py.LF] (py "c"))
                 [(py "description", py " x")]) by decide_tac.
    reflexivity.
Qed.

Lemma header_fields_last_value_witness :
  (∃ h ls c kvs,
     template_groups hello_document = Some (h, ls, c)
     ∧ Py.splitlines h = map line_of kvs
     ∧ Forall (λ kv, (COLON ∉ kv.1) ∧ Py.strip (kv.1) ∈ known_keys) kvs
     ∧ fields (hello_init.*1 ++ [hello_last])
         (initial hello_path hello_name [Py.LF] hello_content)
       !! py "description"
       = Some (last_value (py "description") hello_name kvs)
     ∧ fields (hello_init.*1 ++ [hello_last])
         (initial hello_path hello_name [Py.LF] hello_content)
       !! py "tabTrigger"
       = Some (last_value (py "tabTrigger") [] kvs)
     ∧ fields (hello_init.*1 ++ [hello_last])
         (initial hello_path hello_name [Py.LF] hello_content)
       !! py "scope"
       = Some (last_value (py "scope") [] kvs))
  ∧ (∃ r, parse_snippet [Py.LF] hello_path hello_name hello_document = Return r
          ∧ r !! py "description" = Some (py "Hello World")
          ∧ r !! py "tabTrigger" = Some (py "hello")
          ∧ r !! py "scope" = Some (py "source.python"))
  ∧ (∃ msg, parse_snippet [Py.LF] hello_path hello_name
              (py "---" ++ [Py.LF] ++ py "foo: bar" ++ [Py.LF]
               ++ py "---" ++ [Py.LF] ++ py "c")
            = Raise (SyntaxError msg)).
Proof.
  destruct (header_fields_last_value [Py.LF] hello_path hello_name)
    as (H0 & _ & H1 & H2 & _).
  split_and!.
  - apply (H0 hello_document). vm_compute. reflexivity.
  - apply (H1 [Py.LF] hello_init hello_last [Py.LF] [Py.LF] hello_content);
      first [newline_tac; fail | decide_tac].
  - apply (H2 _ (py "foo: bar") [Py.LF] (py "c") (py "foo: bar")).
    + vm_compute. reflexivity.
    + vm_compute. left.
    + intros ([k v] & E & Hc & Hk). unfold line_of in E. cbn [fst snd] in *.
      destruct (first_colon_unique (py "foo") (py " bar") k v) as [<- _];
        [decide_tac|done|exact E|].
      revert Hk. decide_tac.
Defined.

(** C6.  The field [content] of the record is the text after the
    closing delimiter line, as it stands: for a document of [key: value]
    lines the parser returns a record with exactly the content of the
    document; whenever the parser returns a record, the text is the
    opening delimiter line, a header none of whose lines is a delimiter,
    the closing delimiter line, and the field [content]; and in both
    cases the generated document, as it is written, ends with the
    element [content] that holds this text, each character written as
    itself, as one of the three escapes or as a character reference. *)
Theorem content_verbatim os_linesep path name :
  (∀ nl1 init last ls nl2 c,
     newline nl1 → newline ls → newline nl2 →
     Forall (λ x, recognized x.1 ∧ newline x.2) init → recognized last →
     (nl2 = [Py.CR] → head c ≠ Some Py.LF) →
     ∃ r d t s,
       parse_snippet os_linesep path name
         (sane_document nl1 init last ls nl2 c) = Return r
       ∧ r !! py "content" = Some c
       ∧ snippet_to_xml r = Some (snippet_element d t s c)
       ∧ Etree.write <$> snippet_to_xml r
         = Some (py "<snippet>" ++ xml_node (py "description") d
                 ++ xml_node (py "tabTrigger") t ++ xml_node (py "scope") s
                 ++ match c with
                    | [] => py "<content />"
                    | _ :: _ =>
                        py "<content>" ++ flat_map xml_char c ++ py "</content>"
                    end
                 ++ py "</snippet>"))
  ∧ (∀ text r,
       parse_snippet os_linesep path name text = Return r →
       ∃ nl1 h ls nl2 c,
         newline nl1 ∧ newline ls ∧ newline nl2
         ∧ text = py "---" ++ nl1 ++ h ++ ls ++ py "---" ++ nl2 ++ c
         ∧ (py "---" ∉ Py.splitlines h)
         ∧ r !! py "content" = Some c
         ∧ ∃ d t s,
             Etree.write <$> snippet_to_xml r
             = Some (py "<snippet>" ++ xml_node (py "description") d
                     ++ xml_node (py "tabTrigger") t
                     ++ xml_node (py "scope") s
                     ++ match c with
                        | [] => py "<content />"
                        | _ :: _ =>
                            py "<content>" ++ flat_map xml_char c
                            ++ py "</content>"
                        end
                     ++ py "</snippet>")).
Proof.
  split.
  - intros nl1 init last ls nl2 c Hnl1 Hls Hnl2 Hinit Hlast Hcr.
    pose proof (Forall_recognized_lines init last Hinit Hlast) as Hkvs.
    destruct (known_keys_lookup (init.*1 ++ [last])
                (fields (init.*1 ++ [last]) (initial path name ls c))
                name ls c path eq_refl) as (Hd & Ht & Hs).
    destruct (other_keys_lookup (init.*1 ++ [last]) path name ls c Hkvs)
      as [Hc _].
    eexists _, _, _, _. split_and!.
    + by apply parse_sane_document.
    + exact Hc.
    + by apply snippet_to_xml_fields.
    + rewrite (snippet_to_xml_fields _ _ _ _ _ Hd Ht Hs Hc).
      cbn [fmap option_fmap option_map]. rewrite write_snippet_element.
      by destruct c.
  - intros text r (h & ls & c & kvs & Hg & Hl & Hkvs & ->)%parse_snippet_Return.
    apply template_groups_Some in Hg as (nl1 & nl2 & Hnl1 & Hls & Hnl2 & ->).
    destruct (known_keys_lookup kvs (fields kvs (initial path name ls c))
                name ls c path eq_refl) as (Hd & Ht & Hs).
    destruct (other_keys_lookup kvs path name ls c Hkvs) as [Hc _].
    exists nl1, h, ls, nl2, c. split_and!; [done..| |done|].
    + rewrite Hl. intros (kv & Hkv & _)%list_elem_of_In%in_map_iff.
      pose proof (line_of_colon kv) as Hcolon. rewrite Hkv, py_dashes in Hcolon.
      rewrite !elem_of_cons, elem_of_nil in Hcolon.
      by destruct Hcolon as [?|[?|[?|?]]].
    + eexists _, _, _.
      rewrite (snippet_to_xml_fields _ _ _ _ _ Hd Ht Hs Hc).
      cbn [fmap option_fmap option_map]. rewrite write_snippet_element.
      by destruct c.
Qed.

Lemma content_verbatim_witness :
  (∃ r d t s,
     parse_snippet [Py.LF] hello_path hello_name
       (sane_document [Py.LF] hello_init hello_last [Py.LF] [Py.LF]
          (py "a" ++ [Py.LF] ++ py "---" ++ [Py.LF] ++ py " b "))
     = Return r
     ∧ r !! py "content"
       = Some (py "a" ++ [Py.LF] ++ py "---" ++ [Py.LF] ++ py " b ")
     ∧ snippet_to_xml r
       = Some (snippet_element d t s
                 (py "a" ++ [Py.LF] ++ py "---" ++ [Py.LF] ++ py " b "))
     ∧ Etree.write <$> snippet_to_xml r
       = Some (py "<snippet>" ++ xml_node (py "description") d
               ++ xml_node (py "tabTrigger") t ++ xml_node (py "scope") s
               ++ match py "a" ++ [Py.LF] ++ py "---" ++ [Py.LF] ++ py " b " with
                  | [] => py "<content />"
                  | _ :: _ =>
                      py "<content>"
                      ++ flat_map xml_char
                           (py "a" ++ [Py.LF] ++ py "---" ++ [Py.LF] ++ py " b ")
                      ++ py "</content>"
                  end
               ++ py "</snippet>"))
  ∧ ∃ nl1 h ls nl2 c,
      newline nl1 ∧ newline ls ∧ newline nl2
      ∧ hello_document = py "---" ++ nl1 ++ h ++ ls ++ py "---" ++ nl2 ++ c
      ∧ (py "---" ∉ Py.splitlines h)
      ∧ fields (hello_init.*1 ++ [hello_last])
          (initial hello_path hello_name [Py.LF] hello_content)
        !! py "content" = Some c
      ∧ ∃ d t s,
          Etree.write
            <$> snippet_to_xml
                  (fields (hello_init.*1 ++ [hello_last])
                     (initial hello_path hello_name [Py.LF] hello_content))
          = Some (py "<snippet>" ++ xml_node (py "description") d
                  ++ xml_node (py "tabTrigger") t
                  ++ xml_node (py "scope") s
                  ++ match c with
                     | [] => py "<content />"
                     | _ :: _ =>
                         py "<content>" ++ flat_map xml_char c
                         ++ py "</content>"
                     end
                  ++ py "</snippet>").
Proof.
  destruct (content_verbatim [Py.LF] hello_path hello_name) as [H1 H2].
  split.
  - apply H1; first [newline_tac; fail | decide_tac | by intros [=]].
  - apply H2. vm_compute. reflexivity.
Defined.

(** C9, as the specification states it, fails: a line of the header
    block that holds a form feed is read as two lines, and the value of
    its key is the text up to the form feed, not the text after the
    first colon. *)
Lemma form_feed_line_counterexample :
  spec_header_block
    (py "---" ++ [Py.LF] ++ py "description: a" ++ [12] ++ py "scope: b"
     ++ [Py.LF] ++ py "---" ++ [Py.LF] ++ py "c")
    [(py "description: a" ++ [12] ++ py "scope: b", [Py.LF])]
  ∧ py "description: a" ++ [12] ++ py "scope: b"
    = py "description" ++ py ":" ++ (py " a" ++ [12] ++ py "scope: b")
  ∧ Py.strip (py " a" ++ [12] ++ py "scope: b") = py "a" ++ [12] ++ py "scope: b"
  ∧ ∃ r, parse_snippet [Py.LF] hello_path hello_name
           (py "---" ++ [Py.LF] ++ py "description: a" ++ [12] ++ py "scope: b"
            ++ [Py.LF] ++ py "---" ++ [Py.LF] ++ py "c")
         = Return r
         ∧ r !! py "description" = Some (py "a")
         ∧ r !! py "scope" = Some (py "b").
Proof.
  split_and!.
  - exists [Py.LF], [Py.LF], (py "c").
    split_and!; [newline_tac..|decide_tac|reflexivity].
  - reflexivity.
  - by vm_compute.
  - exists (fields [(py "description", py " a"); (py "scope", py " b")]
              (initial hello_path hello_name [Py.LF] (py "c"))).
    split_and!; [|by vm_compute..]. rewrite parse_snippet_groups.
    assert (template_groups
              (py "---" ++ [Py.LF] ++ py "description: a" ++ [12]
               ++ py "scope: b" ++ [Py.LF] ++ py "---" ++ [Py.LF] ++ py "c")
            = Some (py "description: a" ++ [12] ++ py "scope: b",
                    [Py.LF], py "c")) as ->
      by (vm_compute; reflexivity).
    rewrite <-(parse_header_recognized
                 (initial hello_path hello_name [Py.LF] (py "c"))
                 [(py "description", py " a"); (py "scope", py " b")])
      by decide_tac.
    reflexivity.
Qed.

(** C9 (amended).  A header line that holds no line boundary of
    [str.splitlines] is split at its first colon: the key is the text
    before that colon, trimmed, and the value is the text after it,
    trimmed, colons included.  This holds for the body of the loop over
    the header lines, for the parser on a document with one header
    line, and for the parser on a document of several such lines with
    known keys, which are read one after the other. *)
Theorem header_line_split os_linesep path name :
  (∀ snippet k v,
     COLON ∉ k → Forall inline k → Forall inline v →
     parse_header_line snippet (k ++ py ":" ++ v)
     = if bool_decide (Py.strip k ∈ known_keys)
       then Return (<[Py.strip k := Py.strip v]> snippet)
       else Raise (SyntaxError (unexpected_property (Py.strip k))))
  ∧ (∀ nl1 k v ls nl2 c,
       newline nl1 → newline ls → newline nl2 →
       COLON ∉ k → Forall inline k → Forall inline v →
       (nl2 = [Py.CR] → head c ≠ Some Py.LF) →
       parse_snippet os_linesep path name
         (document nl1 [] (k ++ py ":" ++ v) ls nl2 c)
       = if bool_decide (Py.strip k ∈ known_keys)
         then Return (<[Py.strip k := Py.strip v]> (initial path name ls c))
         else Raise (SyntaxError (unexpected_property (Py.strip k))))
  ∧ (∀ nl1 (init : list (str * str * str)) (last : str * str) ls nl2 c,
       newline nl1 → newline ls → newline nl2 →
       Forall (λ x, (COLON ∉ x.1.1) ∧ Forall inline (x.1.1)
                    ∧ Forall inline (x.1.2)
                    ∧ Py.strip (x.1.1) ∈ known_keys ∧ newline x.2) init →
       COLON ∉ last.1 → Forall inline (last.1) → Forall inline (last.2) →
       Py.strip (last.1) ∈ known_keys →
       (nl2 = [Py.CR] → head c ≠ Some Py.LF) →
       parse_snippet os_linesep path name
         (py "---" ++ nl1
          ++ flat_map (λ x, (x.1.1 ++ py ":" ++ x.1.2) ++ x.2) init
          ++ (last.1 ++ py ":" ++ last.2) ++ ls ++ py "---" ++ nl2 ++ c)
       = Return (foldl (λ s kv, <[Py.strip kv.1 := Py.strip kv.2]> s)
                   (initial path name ls c) (init.*1 ++ [last]))).
Proof.
  split_and!.
  - intros snippet k v Hc Hk Hv.
    apply parse_header_line_colon; auto using inline_LF.
  - intros nl1 k v ls nl2 c Hnl1 Hls Hnl2 Hc Hk Hv Hcr.
    rewrite parse_snippet_document; [|done..|constructor|by apply line_plain|done].
    cbn [fmap list_fmap app parse_header].
    rewrite parse_header_line_colon by auto using inline_LF.
    by case_bool_decide.
  - intros nl1 init last ls nl2 c Hnl1 Hls Hnl2 Hinit Hl1 Hl2 Hl3 Hl4 Hcr.
    assert (∀ l : list (str * str * str),
              flat_map (λ x, (x.1.1 ++ py ":" ++ x.1.2) ++ x.2) l
              = flat_map (λ ls : str * str, ls.1 ++ ls.2)
                  (map (λ x, (line_of x.1, x.2)) l)) as Ef.
    { intros l. induction l as [|x l IH]; [done|].
      cbn [flat_map map]. by rewrite IH. }
    rewrite Ef. change (last.1 ++ py ":" ++ last.2) with (line_of last).
    pose proof (parse_sane_document os_linesep path name nl1 init last
                  ls nl2 c Hnl1 Hls Hnl2) as E.
    unfold sane_document, document, header_of, fields in E.
    rewrite <-!app_assoc in E. apply E; [|done..].
    eapply Forall_impl; [exact Hinit|].
    intros [[k v] nl] (? & ? & ? & ? & ?). by repeat split.
Qed.

Lemma header_line_split_witness :
  parse_header_line ∅ (py " scope " ++ py ":" ++ py "  a:b : c  ")
  = Return (<[py "scope" := py "a:b : c"]> ∅)
  ∧ parse_snippet [Py.LF] hello_path hello_name
      (document [Py.LF] [] (py " scope " ++ py ":" ++ py "  a:b : c  ")
         [Py.LF] [Py.LF] (py "c"))
    = Return (<[py "scope" := py "a:b : c"]>
                (initial hello_path hello_name [Py.LF] (py "c")))
  ∧ parse_snippet [Py.LF] hello_path hello_name
      (py "---" ++ [Py.LF]
       ++ flat_map (λ x : str * str * str, (x.1.1 ++ py ":" ++ x.1.2) ++ x.2)
            hello_init
       ++ (hello_last.1 ++ py ":" ++ hello_last.2) ++ [Py.LF] ++ py "---"
       ++ [Py.LF] ++ hello_content)
    = Return (foldl (λ s kv, <[Py.strip kv.1 := Py.strip kv.2]> s)
                (initial hello_path hello_name [Py.LF] hello_content)
                (hello_init.*1 ++ [hello_last])).
Proof.
  destruct (header_line_split [Py.LF] hello_path hello_name) as (H1 & H2 & H3).
  split_and!.
  - apply (H1 ∅ (py " scope ") (py "  a:b : c  ")); decide_tac.
  - apply (H2 [Py.LF] (py " scope ") (py "  a:b : c  ") [Py.LF] [Py.LF] (py "c"));
      first [newline_tac; fail | decide_tac | by intros [=]].
  - apply (H3 [Py.LF] hello_init hello_last [Py.LF] [Py.LF] hello_content);
      first [newline_tac; fail | decide_tac | by intros [=]].
Defined.

(** C10.  A bare carriage return is accepted as the newline after the
    opening delimiter, as the newline after the closing delimiter, and as
    the newline that ends the header block; in the last case the field
    [linesep] of the record is the carriage return. *)
Theorem bare_carriage_return os_linesep path name init last :
  Forall (λ x, recognized x.1 ∧ newline x.2) init → recognized last →
  (∀ ls nl2 c,
     newline ls → newline nl2 →
     ∃ r, parse_snippet os_linesep path name
            (sane_document [Py.CR] init last ls nl2 c) = Return r)
  ∧ (∀ nl1 ls c,
       newline nl1 → newline ls → head c ≠ Some Py.LF →
       ∃ r, parse_snippet os_linesep path name
              (sane_document nl1 init last ls [Py.CR] c) = Return r
            ∧ r !! py "content" = Some c)
  ∧ (∀ nl1 nl2 c,
       newline nl1 → newline nl2 →
       ∃ r, parse_snippet os_linesep path name
              (sane_document nl1 init last [Py.CR] nl2 c) = Return r
            ∧ r !! py "linesep" = Some [Py.CR]).
Proof.
  intros Hinit Hlast.
  pose proof (Forall_recognized_lines init last Hinit Hlast) as Hkvs.
  assert (newline [Py.CR]) as Hcr by newline_tac.
  split_and!.
  - intros ls nl2 c Hls Hnl2.
    destruct (parse_sane_document_returns os_linesep path name
                [Py.CR] init last ls nl2 c) as [c' E]; eauto.
  - intros nl1 ls c Hnl1 Hls Hc. eexists. split.
    + by apply parse_sane_document.
    + by apply other_keys_lookup.
  - intros nl1 nl2 c Hnl1 Hnl2.
    destruct (parse_sane_document_returns os_linesep path name
                nl1 init last [Py.CR] nl2 c) as [c' E]; [done..|].
    eexists. split; [exact E|]. by apply other_keys_lookup.
Qed.

Lemma bare_carriage_return_witness :
  ∃ r, parse_snippet [Py.LF] hello_path hello_name
         (sane_document [Py.CR] hello_init hello_last [Py.CR] [Py.CR]
            hello_content) = Return r
       ∧ r !! py "content" = Some hello_content
       ∧ r !! py "linesep" = Some [Py.CR].
Proof.
  destruct (bare_carriage_return [Py.LF] hello_path hello_name
              hello_init hello_last) as (H1 & H2 & H3); [decide_tac..|].
  destruct (H2 [Py.CR] [Py.CR] hello_content) as (r & E & Hc);
    [newline_tac..|by intros [=]|].
  destruct (H3 [Py.CR] [Py.CR] hello_content) as (r' & E' & Hl);
    [newline_tac..|].
  exists r. split_and!; [done..|].
  rewrite E in E'. injection E' as <-. exact Hl.
Defined.

(** ** The serializer *)



(** ** The path pairing and the synchronization pass *)

(** C8 fails on the code: [swap_extension] replaces every occurrence of
    the extension in the path.  On a path whose directory holds the
    source extension it changes the directory, and on a source whose
    base name holds the generated extension the second swap does not give
    the path back. *)
Theorem swap_extension_replaces_all :
  Py.endswith EXT_SANESNIPPET (py "pkg.sane-snippet/foo.sane-snippet") = true
  ∧ swap_extension (py "pkg.sane-snippet/foo.sane-snippet")
    = py "pkg.sane.sublime-snippet/foo.sane.sublime-snippet"
  ∧ paired_generated (py "pkg.sane-snippet/foo.sane-snippet")
    = py "pkg.sane-snippet/foo.sane.sublime-snippet"
  ∧ Py.endswith EXT_SANESNIPPET odd_source = true
  ∧ swap_extension odd_source = odd_generated
  ∧ swap_extension (swap_extension odd_source)
    = py "pkg/x.sane-snippet.sane-snippet"
  ∧ swap_extension (swap_extension odd_source) ≠ odd_source.
Proof. split_and!; by vm_compute. Qed.

(** C7 fails on the code: in a tree where a generated file and its
    source, paired by name, both exist, the pass deletes the generated
    file, because [swap_extension] computes another source path. *)
Theorem paired_generated_file_removed :
  paired_source odd_generated = odd_source
  ∧ Os.exists_ (fs odd_world_synced) (paired_source odd_generated) = true
  ∧ swap_extension odd_generated = py "pkg/x.sane-snippet.sane-snippet"
  ∧ trace (regenerate_snippets [Py.LF] (py "pkg") false false odd_world_synced)
    = [Remove odd_generated].
Proof. split_and!; by vm_compute. Qed.

(** C4 fails on the code: on the tree with the one source file
    [odd_source], the first pass writes the generated file, and the
    second pass, run on the tree the first one leaves, deletes it. *)
Theorem second_pass_removes :
  let w1 := regenerate_snippets [Py.LF] (py "pkg") false false odd_world in
  trace w1 = [Write odd_generated hello_xml]
  ∧ map_to_list (Os.files (fs w1)) = map_to_list (Os.files (fs odd_world_synced))
  ∧ trace (regenerate_snippets [Py.LF] (py "pkg") false false
             (World (fs w1) []))
    = [Remove odd_generated].
Proof. split_and!; by vm_compute. Qed.


(** * Further properties

    Properties of the parser, the serializer, the path pairing, the
    synchronization pass and the entry points of the plugin, beyond the
    claims above. *)

(** ** Trimmed values *)

Lemma lstrip_fixed s :
  (∀ c, head s = Some c → Py.isspace c = false) → Py.lstrip s = s.
Proof. destruct s as [|c s]; [done|]. intros H. simpl. by rewrite (H c). Qed.

Lemma strip_trimmed s : trimmed (Py.strip s).
Proof.
  unfold trimmed, Py.strip, Py.rstrip.
  set (u := Py.lstrip (reverse (Py.lstrip s))).
  destruct (lstrip_suffix (reverse (Py.lstrip s))) as [w Hw]. fold u in Hw.
  assert (Py.lstrip s = reverse u ++ reverse w) as E.
  { by rewrite <-reverse_app, <-Hw, reverse_involutive. }
  assert (Py.lstrip (reverse u) = reverse u) as ->.
  { apply lstrip_fixed. intros c Hc.
    destruct (lstrip_split s) as (_ & _ & _ & Hhead). apply Hhead.
    rewrite E. by destruct (reverse u). }
  rewrite reverse_involutive. unfold u. by rewrite lstrip_idemp.
Qed.

Lemma trimmed_nil : trimmed [].
Proof. reflexivity. Qed.

Lemma lstrip_spaces k :
  Forall (λ c, Py.isspace c = true) k → Py.lstrip k = [].
Proof. induction 1 as [|c k Hc _ IH]; simpl; [done|]. by rewrite Hc. Qed.

Lemma strip_spaces k :
  Forall (λ c, Py.isspace c = true) k → Py.strip k = [].
Proof. intros H. unfold Py.strip. by rewrite lstrip_spaces. Qed.

(** ** The shape of a record *)

Lemma last_value_cases key d kvs :
  last_value key d kvs = d ∨ ∃ v, last_value key d kvs = Py.strip v.
Proof.
  revert d. induction kvs as [|kv kvs IH]; intros d; [by left|].
  simpl. case_bool_decide; [|apply IH].
  destruct (IH (Py.strip kv.2)) as [->|?]; eauto.
Qed.

Lemma fields_dom (kvs : list (str * str)) (snippet : gmap str str) :
  Forall recognized kvs → (∀ key, key ∈ known_keys → key ∈ dom snippet) →
  dom (fields kvs snippet) = dom snippet.
Proof.
  intros H. revert snippet.
  induction H as [|kv kvs (_ & _ & _ & Hkv) _ IH]; intros snippet Hdom; [done|].
  simpl. rewrite IH.
  - rewrite dom_insert_L. specialize (Hdom _ Hkv). set_solver.
  - intros key Hkey. rewrite dom_insert_L. specialize (Hdom _ Hkey). set_solver.
Qed.

Lemma initial_dom path name ls c :
  dom (initial path name ls c)
  = {[ py "path"; py "name"; py "description"; py "tabTrigger"; py "scope";
       py "linesep"; py "content" ]}.
Proof. unfold initial. rewrite !dom_insert_L, dom_empty_L. set_solver. Qed.

(** X1.  Every record that the parser returns has exactly the seven keys of
    the dictionary, and keeps the path and the name it was given. *)
Theorem parsed_record_keys os_linesep path name text r :
  parse_snippet os_linesep path name text = Return r →
  dom r = {[ py "path"; py "name"; py "description"; py "tabTrigger";
             py "scope"; py "linesep"; py "content" ]}
  ∧ r !! py "path" = Some path ∧ r !! py "name" = Some name.
Proof.
  intros (h & ls & c & kvs & _ & _ & Hkvs & ->)%parse_snippet_Return.
  split_and!.
  - rewrite fields_dom, initial_dom; [done..|].
    intros key Hkey. rewrite initial_dom. unfold known_keys in Hkey.
    set_solver.
  - rewrite fields_lookup_other; [done..|]. by apply not_known_key.
  - rewrite fields_lookup_other; [done..|]. by apply not_known_key.
Qed.

Lemma parsed_record_keys_witness :
  dom (fields (hello_init.*1 ++ [hello_last])
         (initial hello_path hello_name [Py.LF] hello_content))
  = {[ py "path"; py "name"; py "description"; py "tabTrigger";
       py "scope"; py "linesep"; py "content" ]}
  ∧ fields (hello_init.*1 ++ [hello_last])
      (initial hello_path hello_name [Py.LF] hello_content) !! py "path"
    = Some hello_path
  ∧ fields (hello_init.*1 ++ [hello_last])
      (initial hello_path hello_name [Py.LF] hello_content) !! py "name"
    = Some hello_name.
Proof.
  apply (parsed_record_keys [Py.LF] hello_path hello_name hello_document).
  vm_compute. reflexivity.
Defined.

(** X2.  In every record that the parser returns, [tabTrigger] and [scope]
    hold no white space at either end, and [description] is the name given
    to the parser or holds none either. *)
Theorem parsed_values_trimmed os_linesep path name text r :
  parse_snippet os_linesep path name text = Return r →
  (∃ t, r !! py "tabTrigger" = Some t ∧ trimmed t)
  ∧ (∃ s, r !! py "scope" = Some s ∧ trimmed s)
  ∧ (∃ d, r !! py "description" = Some d ∧ (d = name ∨ trimmed d)).
Proof.
  intros (h & ls & c & kvs & _ & _ & Hkvs & E)%parse_snippet_Return.
  destruct (known_keys_lookup kvs r name ls c path E) as (Hd & Ht & Hs).
  split_and!; eexists; (split; [done|]).
  - destruct (last_value_cases (py "tabTrigger") [] kvs) as [->|[v ->]];
      [apply trimmed_nil|apply strip_trimmed].
  - destruct (last_value_cases (py "scope") [] kvs) as [->|[v ->]];
      [apply trimmed_nil|apply strip_trimmed].
  - destruct (last_value_cases (py "description") name kvs) as [->|[v ->]];
      [by left|right; apply strip_trimmed].
Qed.

Lemma parsed_values_trimmed_witness :
  (∃ t, fields (hello_init.*1 ++ [hello_last])
          (initial hello_path hello_name [Py.LF] hello_content)
        !! py "tabTrigger" = Some t ∧ trimmed t)
  ∧ (∃ s, fields (hello_init.*1 ++ [hello_last])
            (initial hello_path hello_name [Py.LF] hello_content)
          !! py "scope" = Some s ∧ trimmed s)
  ∧ (∃ d, fields (hello_init.*1 ++ [hello_last])
            (initial hello_path hello_name [Py.LF] hello_content)
          !! py "description" = Some d ∧ (d = hello_name ∨ trimmed d)).
Proof.
  apply (parsed_values_trimmed [Py.LF] hello_path hello_name hello_document).
  vm_compute. reflexivity.
Defined.

(** X3.  The result of the parser does not depend on [os.linesep]: the
    default line separator of the dictionary never reaches the caller. *)
Theorem parse_snippet_linesep_default os_linesep os_linesep' path name text :
  parse_snippet os_linesep path name text
  = parse_snippet os_linesep' path name text.
Proof. by rewrite !parse_snippet_groups. Qed.

(** ** The errors of the parser *)

Lemma parse_header_first_bad snippet kvs bad rest :
  Forall recognized kvs →
  parse_header snippet (map line_of kvs ++ bad :: rest)
  = match parse_header_line (fields kvs snippet) bad with
    | Return snippet' => parse_header snippet' rest
    | Raise e => Raise e
    end.
Proof.
  intros H. by rewrite parse_header_app, parse_header_recognized.
Qed.

(** X4.  The first header line that is not a [key: value] line with a known
    key decides the error: a line without colon gives the error of a header
    line, and a line with a colon gives the error that names its trimmed
    key. *)
Theorem first_offending_line os_linesep path name text h ls c kvs bad rest :
  template_groups text = Some (h, ls, c) →
  Py.splitlines h = map line_of kvs ++ bad :: rest →
  Forall recognized kvs →
  (COLON ∉ bad →
   parse_snippet os_linesep path name text = Raise (SyntaxError header_error))
  ∧ (∀ k v, bad = k ++ py ":" ++ v → COLON ∉ k → Py.strip k ∉ known_keys →
       parse_snippet os_linesep path name text
       = Raise (SyntaxError (unexpected_property (Py.strip k)))).
Proof.
  intros Hg Hl Hkvs.
  assert (Forall inline bad) as Hbad.
  { pose proof (splitlines_inline h) as Hin. rewrite Hl in Hin.
    apply Forall_app in Hin as [_ Hin]. by inversion Hin. }
  rewrite parse_snippet_groups, Hg, Hl, parse_header_first_bad by done.
  split.
  - intros Hc. by rewrite parse_header_line_no_colon.
  - intros k v -> Hk Hkey. apply Forall_app in Hbad as [Hink Hinv].
    rewrite py_colon in Hinv. inversion_clear Hinv as [|? ? _ Hinv'].
    rewrite parse_header_line_colon by auto using inline_LF.
    by rewrite bool_decide_eq_false_2.
Qed.

Lemma first_offending_line_witness :
  parse_snippet [Py.LF] hello_path hello_name
    (py "---" ++ [Py.LF] ++ py "scope: a" ++ [Py.LF] ++ py "no colon" ++ [Py.LF]
     ++ py "---" ++ [Py.LF])
  = Raise (SyntaxError header_error)
  ∧ parse_snippet [Py.LF] hello_path hello_name
      (py "---" ++ [Py.LF] ++ py "scope: a" ++ [Py.LF] ++ py " Scope : b" ++ [Py.LF]
       ++ py "---" ++ [Py.LF])
    = Raise (SyntaxError (unexpected_property (py "Scope"))).
Proof.
  split.
  - refine (proj1 (first_offending_line [Py.LF] hello_path hello_name _
      (py "scope: a" ++ [Py.LF] ++ py "no colon") [Py.LF] []
      [(py "scope", py " a")] (py "no colon") [] _ _ _) _).
    + vm_compute. reflexivity.
    + vm_compute. reflexivity.
    + decide_tac.
    + decide_tac.
  - refine (proj2 (first_offending_line [Py.LF] hello_path hello_name _
      (py "scope: a" ++ [Py.LF] ++ py " Scope : b") [Py.LF] []
      [(py "scope", py " a")] (py " Scope : b") [] _ _ _)
      (py " Scope ") (py " b") _ _ _).
    + vm_compute. reflexivity.
    + vm_compute. reflexivity.
    + decide_tac.
    + reflexivity.
    + decide_tac.
    + decide_tac.
Defined.

(** X5.  A header line with nothing but white space before its first colon
    has the empty key: the loop reports an unknown property with the empty
    name. *)
Theorem blank_key_line snippet k v :
  Forall (λ c, Py.isspace c = true) k → Forall inline k → Forall inline v →
  parse_header_line snippet (k ++ py ":" ++ v)
  = Raise (SyntaxError (unexpected_property [])).
Proof.
  intros Hsp Hk Hv.
  rewrite parse_header_line_colon; [|..|by apply inline_LF|by apply inline_LF].
  - by rewrite strip_spaces.
  - intros Hc. rewrite Forall_forall in Hsp. by specialize (Hsp _ Hc).
Qed.

Lemma blank_key_line_witness :
  parse_header_line ∅ (py " " ++ py ":" ++ py " x")
  = Raise (SyntaxError (unexpected_property [])).
Proof. apply blank_key_line; decide_tac. Defined.

Lemma parse_header_line_Raise_key snippet line msg :
  parse_header_line snippet line = Raise (SyntaxError msg) →
  msg = header_error
  ∨ ∃ key, msg = unexpected_property key ∧ (key ∉ known_keys) ∧ trimmed key.
Proof.
  unfold parse_header_line. destruct (Re.match_ _ _); [|intros [= <-]; by left].
  cbv zeta. rewrite lookup_total_insert_eq.
  case_bool_decide; [done|]. intros [= <-]. right.
  eexists. split_and!; [done..|]. apply strip_trimmed.
Qed.

Lemma parse_header_Raise_key snippet lines msg :
  parse_header snippet lines = Raise (SyntaxError msg) →
  msg = header_error
  ∨ ∃ key, msg = unexpected_property key ∧ (key ∉ known_keys) ∧ trimmed key.
Proof.
  revert snippet. induction lines as [|line lines IH]; intros snippet; [done|].
  simpl. destruct (parse_header_line snippet line) as [s'|[msg']] eqn:E.
  - apply IH.
  - intros [= <-]. by eapply parse_header_line_Raise_key.
Qed.

(** X6.  The parser raises one of three errors: that of a malformed
    document, that of a header line, or that of an unexpected property,
    which names a trimmed key that is none of the three known keys. *)
Theorem parse_snippet_errors os_linesep path name text msg :
  parse_snippet os_linesep path name text = Raise (SyntaxError msg) →
  msg = malformed_error ∨ msg = header_error
  ∨ ∃ key, msg = unexpected_property key ∧ (key ∉ known_keys) ∧ trimmed key.
Proof.
  rewrite parse_snippet_groups.
  destruct (template_groups text) as [[[h ls] c]|]; [|intros [= <-]; by left].
  intros H%parse_header_Raise_key. by right.
Qed.

Lemma parse_snippet_errors_witness :
  unexpected_property (py "foo") = malformed_error
  ∨ unexpected_property (py "foo") = header_error
  ∨ ∃ key, unexpected_property (py "foo") = unexpected_property key
           ∧ (key ∉ known_keys) ∧ trimmed key.
Proof.
  apply (parse_snippet_errors [Py.LF] hello_path hello_name
           (py "---" ++ [Py.LF] ++ py "foo: bar" ++ [Py.LF] ++ py "---" ++ [Py.LF])).
  vm_compute. reflexivity.
Defined.

(** ** A closing delimiter without newline *)

Lemma closing_at_length s : closing_at s → (5 ≤ length s)%nat.
Proof.
  intros (ls & nl2 & c & Hls & Hnl2 & ->). rewrite !length_app.
  change (length (py "---")) with 3%nat.
  destruct Hls as [->|[->| ->]], Hnl2 as [->|[->| ->]]; simpl; lia.
Qed.

(** No closing delimiter starts in a header that is followed by its
    newline and three dashes at the end of the text. *)
Lemma no_closing_in_tail h ls k :
  newline ls → unclosed h (ls ++ py "---") →
  ¬ closing_at (drop k (h ++ ls ++ py "---")).
Proof.
  intros Hls Hun. destruct (decide (k < length h)%nat) as [Hk|Hk];
    [by apply Hun|].
  rewrite drop_app_ge by lia. generalize (k - length h)%nat. intros j Hc.
  pose proof (closing_at_length _ Hc) as Hlen.
  rewrite length_drop, length_app in Hlen.
  change (length (py "---")) with 3%nat in Hlen.
  assert (ls = [Py.CR; Py.LF] ∧ j = O) as [-> ->].
  { destruct Hls as [->|[->| ->]]; simpl in Hlen; split; try done; lia. }
  destruct Hc as (ls' & nl2 & c & Hls' & Hnl2 & E). rewrite py_dashes in E.
  destruct Hls' as [->|[->| ->]], Hnl2 as [->|[->| ->]]; simplify_eq/=.
Qed.

Lemma newline_cases x y t u :
  newline x → newline y → x ++ t = y ++ u →
  (x = y ∧ t = u) ∨ (x = [Py.CR; Py.LF] ∧ y = [Py.CR] ∧ u = Py.LF :: t)
  ∨ (x = [Py.CR] ∧ y = [Py.CR; Py.LF] ∧ t = Py.LF :: u).
Proof.
  intros [->|[->| ->]] [->|[->| ->]] E; simplify_eq/=; auto.
Qed.

Lemma not_delimited_tail nl1 h ls :
  newline nl1 → newline ls → unclosed h (ls ++ py "---") →
  ¬ closing_at (Py.LF :: h ++ ls ++ py "---") →
  ¬ delimited (py "---" ++ nl1 ++ h ++ ls ++ py "---").
Proof.
  intros Hnl1 Hls Hun Hfront
    (nl1' & h' & ls' & nl2 & c & Hnl1' & Hls' & Hnl2 & E).
  apply app_inv_head in E.
  assert (closing_at (ls' ++ py "---" ++ nl2 ++ c)) as Hc
    by (by exists ls', nl2, c).
  apply newline_cases in E as [[-> E]|[(-> & -> & E)|(-> & -> & E)]]; [| | |done..].
  - eapply (no_closing_in_tail h ls (length h')); [done..|].
    by rewrite E, drop_app_length.
  - destruct h' as [|x h'].
    + rewrite app_nil_l in E. apply Hfront. by rewrite E in Hc.
    + rewrite <-app_comm_cons in E. injection E as -> E.
      eapply (no_closing_in_tail h ls (length h')); [done..|].
      by rewrite <-E, drop_app_length.
  - eapply (no_closing_in_tail h ls (S (length h'))); [done..|].
    rewrite E. rewrite skipn_cons. by rewrite drop_app_length.
Qed.

(** X7.  A text that ends with the three dashes of the closing delimiter,
    without a newline after them, is malformed: with a header of [key:
    value] or other plain lines, and with no header line at all. *)
Theorem unterminated_closing_delimiter os_linesep path name nl1 ls :
  newline nl1 → newline ls →
  (∀ init last,
     Forall (λ x, plain x.1 ∧ newline x.2) init → plain last →
     parse_snippet os_linesep path name
       (py "---" ++ nl1 ++ header_of init last ++ ls ++ py "---")
     = Raise (SyntaxError malformed_error))
  ∧ parse_snippet os_linesep path name (py "---" ++ nl1 ++ ls ++ py "---")
    = Raise (SyntaxError malformed_error).
Proof.
  intros Hnl1 Hls.
  assert (∃ a, head (ls ++ py "---") = Some a ∧ eol a) as Ht
    by by apply newline_head.
  split.
  - intros init last Hinit Hlast. apply parse_snippet_malformed.
    destruct (header_of_head init last (ls ++ py "---") Hinit Hlast Ht)
      as (l & t' & El & Hl & Ht').
    apply not_delimited_tail; [done..| |].
    + by apply unclosed_header.
    + rewrite El. apply (not_closing_line [Py.LF]); [unfold newline; auto|done..].
  - apply parse_snippet_malformed.
    apply (not_delimited_tail nl1 [] ls); [done..| |].
    + intros k Hk. simpl in Hk. lia.
    + intros (ls' & nl2 & c & Hls' & Hnl2 & E). rewrite py_dashes in E.
      destruct Hls as [->|[->| ->]], Hls' as [->|[->| ->]],
        Hnl2 as [->|[->| ->]]; simplify_eq/=.
Qed.

Lemma unterminated_closing_delimiter_witness :
  parse_snippet [Py.LF] hello_path hello_name
    (py "---" ++ [Py.LF] ++ py "description: x" ++ [Py.LF] ++ py "---")
  = Raise (SyntaxError malformed_error)
  ∧ parse_snippet [Py.LF] hello_path hello_name
      (py "---" ++ [Py.LF] ++ [Py.LF] ++ py "---")
    = Raise (SyntaxError malformed_error).
Proof.
  destruct (unterminated_closing_delimiter [Py.LF] hello_path hello_name
              [Py.LF] [Py.LF]) as [H1 H2]; [newline_tac..|].
  split; [|exact H2].
  apply (H1 [] (py "description: x")); [constructor|].
  apply (line_plain (py "description") (py " x")); decide_tac.
Defined.

(** ** The written document *)

Lemma charref_ascii c : Forall (λ a, a < 128) (Etree.charref c).
Proof.
  unfold Etree.charref. destruct (N.ltb_spec c 128) as [H|H].
  - by constructor.
  - change (py "&#") with [38; 35]. change (py ";") with [59].
    repeat (apply Forall_cons; split; [done|]).
    apply Forall_app. split; [|by repeat constructor].
    eapply Forall_impl; [apply digits_range|]. intros a Ha. simpl in Ha. lia.
Qed.

(** X8.  The writer produces ASCII only, whatever the element holds: the
    stream is encoded with character references, so that decoding it never
    fails. *)
Theorem written_document_ascii (e : Etree.Element) :
  Forall (λ a, a < 128) (Etree.write e).
Proof.
  unfold Etree.write, Etree.encode.
  induction (Etree.serialize e) as [|c x IH]; [constructor|].
  cbn [flat_map]. apply Forall_app. split; [apply charref_ascii|done].
Qed.

(** *** The field values can be read back *)

Lemma first_sep_unique (x : N) (k v k' v' : str) :
  x ∉ k → x ∉ k' → k ++ x :: v = k' ++ x :: v' → k = k' ∧ v = v'.
Proof.
  revert k'. induction k as [|a k IH]; intros [|b k'] Hk Hk' E;
    simplify_eq/=; try done.
  - destruct Hk'. left.
  - destruct Hk. left.
  - destruct (IH k') as [-> ->]; [| |done..].
    + intros ?. apply Hk. by right.
    + intros ?. apply Hk'. by right.
Qed.

Lemma digits_inj u u' : Etree.digits u = Etree.digits u' → u = u'.
Proof.
  revert u'. induction u; intros []; simpl; intros E; simplify_eq;
    try done; f_equal; auto.
Qed.

Lemma digits_no_semicolon u : 59 ∉ Etree.digits u.
Proof.
  intros H. pose proof (digits_range u) as Hd.
  rewrite Forall_forall in Hd. apply Hd in H. lia.
Qed.

(** The five shapes of a written character. *)
Lemma xml_char_cases c :
  (c = AMP ∧ xml_char c = [38; 97; 109; 112; 59])
  ∨ (c = LT ∧ xml_char c = [38; 108; 116; 59])
  ∨ (c = GT ∧ xml_char c = [38; 103; 116; 59])
  ∨ (c ≠ AMP ∧ c ≠ LT ∧ c ≠ GT ∧ c < 128 ∧ xml_char c = [c])
  ∨ (128 ≤ c ∧ xml_char c = 38 :: 35 :: Etree.digits (N.to_uint c) ++ [59]).
Proof.
  unfold xml_char.
  destruct (N.eqb_spec c AMP) as [->|H1]; [by left|].
  destruct (N.eqb_spec c LT) as [->|H2]; [by right; left|].
  destruct (N.eqb_spec c GT) as [->|H3]; [by right; right; left|].
  destruct (N.ltb_spec c 128) as [H|H]; [by right; right; right; left|].
  by right; right; right; right.
Qed.

Lemma digits_head u a r : Etree.digits u = a :: r → 48 ≤ a ≤ 57.
Proof.
  intros E. pose proof (digits_range u) as Hd. rewrite E in Hd.
  by apply Forall_cons in Hd as [? _].
Qed.

(** The written characters form a prefix code. *)
Lemma xml_char_prefix c c' r r' :
  xml_char c ++ r = xml_char c' ++ r' → c = c' ∧ r = r'.
Proof.
  destruct (xml_char_cases c) as [[-> ->]|[[-> ->]|[[-> ->]|[(?&?&?&?& ->)|[? ->]]]]];
  destruct (xml_char_cases c') as [[-> ->]|[[-> ->]|[[-> ->]|[(?&?&?&?& ->)|[? ->]]]]];
    intros E; simplify_eq/=; try done.
  rewrite <-!app_assoc in E. cbn [app] in E.
  apply first_sep_unique in E as [E ->]; [|apply digits_no_semicolon..].
  split; [|done].
  by apply DecimalN.Unsigned.to_uint_inj, digits_inj.
Qed.

Lemma xml_char_head c : ∃ a r, xml_char c = a :: r ∧ a ≠ LT.
Proof.
  destruct (xml_char_cases c) as [[-> ->]|[[-> ->]|[[-> ->]|[(?&?&?&?& ->)|[? ->]]]]];
    eexists _, _; (split; [reflexivity|done]).
Qed.

(** A written text is read back up to the next [<]. *)
Lemma xml_text_inj x x' r r' :
  xml_text x ++ LT :: r = xml_text x' ++ LT :: r' → x = x' ∧ r = r'.
Proof.
  revert x'. unfold xml_text.
  induction x as [|c x IH]; intros [|c' x'] E; cbn [flat_map] in E.
  - by simplify_eq/=.
  - destruct (xml_char_head c') as (a & t & Ea & Ha). rewrite Ea in E.
    by simplify_eq/=.
  - destruct (xml_char_head c) as (a & t & Ea & Ha). rewrite Ea in E.
    by simplify_eq/=.
  - rewrite <-!app_assoc in E. apply xml_char_prefix in E as [-> E].
    by apply IH in E as [-> ->].
Qed.

Lemma xml_node_inj tag x x' r r' :
  xml_node tag x ++ r = xml_node tag x' ++ r' → x = x' ∧ r = r'.
Proof.
  change (py "<") with [LT]. unfold xml_node.
  change (py "<") with [LT]. change (py " />") with [32; 47; 62].
  change (py ">") with [GT]. change (py "</") with [LT; 47].
  destruct x as [|c x], x' as [|c' x']; rewrite <-!app_assoc; intros E;
    apply app_inv_head in E; apply app_inv_head in E.
  - by simplify_eq/=.
  - by simplify_eq/=.
  - by simplify_eq/=.
  - cbn [app] in E. injection E as E.
    change (xml_char c ++ xml_text x) with (xml_text (c :: x)) in E.
    change (xml_char c' ++ xml_text x') with (xml_text (c' :: x')) in E.
    apply xml_text_inj in E as [E1 E2]. split; [done|].
    injection E2 as E2. apply app_inv_head in E2. by simplify_eq.
Qed.

(** X9.  The four field values can be read back from the written document:
    two records that are written as the same document have the same
    description, tab trigger, scope and content. *)
Theorem written_fields_unique d t s c d' t' s' c' :
  Etree.write (snippet_element d t s c)
  = Etree.write (snippet_element d' t' s' c') →
  d = d' ∧ t = t' ∧ s = s' ∧ c = c'.
Proof.
  rewrite !write_snippet_element. intros E.
  apply app_inv_head in E.
  apply xml_node_inj in E as [-> E]. apply xml_node_inj in E as [-> E].
  apply xml_node_inj in E as [-> E]. by apply xml_node_inj in E as [-> _].
Qed.

Lemma written_fields_unique_witness :
  py "a<b" = py "a<b" ∧ py "t" = py "t" ∧ [] = @nil N ∧ [233; 38] = [233; 38].
Proof.
  apply (written_fields_unique (py "a<b") (py "t") [] [233; 38]
           (py "a<b") (py "t") [] [233; 38]).
  reflexivity.
Defined.

(** ** The extension of a swapped path *)

Lemma replace_from_drop n old new s :
  Py.replace_from n old new s = Py.replace_from 0 old new (drop n s).
Proof.
  revert n. induction s as [|c s IH]; intros [|n]; try done.
  cbn [Py.replace_from drop]. apply IH.
Qed.

Lemma replace_from_miss old new c s :
  Py.startswith old (c :: s) = false →
  Py.replace_from 0 old new (c :: s) = c :: Py.replace_from 0 old new s.
Proof. intros H. cbn [Py.replace_from]. by rewrite H. Qed.

Lemma replace_from_hit old new rest :
  old ≠ [] →
  Py.replace_from 0 old new (old ++ rest)
  = new ++ Py.replace_from 0 old new rest.
Proof.
  intros Hold. destruct old as [|a old]; [done|].
  pose proof (startswith_app (a :: old) rest) as E.
  cbn [app Py.replace_from] in *. rewrite E. f_equal.
  rewrite replace_from_drop. cbn [length pred]. by rewrite drop_app_length.
Qed.

Lemma replace_from_none old new s :
  (∀ i, Py.startswith old (drop i s) = false) →
  Py.replace_from 0 old new s = s.
Proof.
  induction s as [|c s IH]; intros H; [done|].
  rewrite replace_from_miss by apply (H O). f_equal. apply IH.
  intros i. apply (H (S i)).
Qed.

(** The occurrence of an unbordered [old] at the end of a text is
    replaced, whatever stands before it. *)
Lemma replace_from_ends old new stem :
  old ≠ [] → unbordered old →
  ∃ pre, Py.replace_from 0 old new (stem ++ old) = pre ++ new.
Proof.
  intros Hold Hun. remember (length stem) as n eqn:Hn. revert stem Hn.
  induction (lt_wf n) as [n _ IH]. intros stem ->.
  destruct stem as [|c stem].
  - exists []. pose proof (replace_from_hit old new [] Hold) as E.
    rewrite app_nil_r in E. cbn [app]. rewrite E. by rewrite app_nil_r.
  - destruct (Py.startswith old ((c :: stem) ++ old)) eqn:E.
    + apply startswith_inv in E as [rest E].
      destruct (decide (length old ≤ length (c :: stem))%nat) as [Hle|Hgt].
      * assert (c :: stem = old ++ drop (length old) (c :: stem)) as Es.
        { rewrite <-(take_drop (length old) (c :: stem)) at 1. f_equal.
          apply (f_equal (take (length old))) in E.
          rewrite take_app_le in E by done. by rewrite take_app_length in E. }
        rewrite Es, <-app_assoc, replace_from_hit by done.
        destruct (IH (length (drop (length old) (c :: stem))))
          with (stem := drop (length old) (c :: stem)) as [pre Hpre]; [|done|].
        { rewrite length_drop. destruct old; [done|]. simpl. lia. }
        exists (new ++ pre). by rewrite Hpre, app_assoc.
      * apply (f_equal (drop (length (c :: stem)))) in E.
        rewrite drop_app_length, drop_app_le in E by lia.
        pose proof (startswith_app (drop (length (c :: stem)) old) rest) as F.
        rewrite <-E in F. rewrite Hun in F; [done|]. simpl. simpl in Hgt. lia.
    + rewrite <-app_comm_cons in *. rewrite replace_from_miss by done.
      destruct (IH (length stem)) with (stem := stem) as [pre Hpre];
        [simpl; lia|done|].
      exists (c :: pre). by rewrite Hpre.
Qed.

Lemma endswith_inv suf s : Py.endswith suf s = true → ∃ stem, s = stem ++ suf.
Proof.
  unfold Py.endswith. intros [t E]%startswith_inv. exists (reverse t).
  apply (f_equal reverse) in E.
  by rewrite reverse_involutive, reverse_app, reverse_involutive in E.
Qed.

Lemma replace_ends old new s :
  old ≠ [] → unbordered old → Py.endswith old s = true →
  Py.endswith new (Py.replace old new s) = true.
Proof.
  intros Hold Hun [stem ->]%endswith_inv.
  destruct (replace_from_ends old new stem Hold Hun) as [pre E].
  unfold Py.replace. destruct old; [done|]. rewrite E. apply endswith_app.
Qed.

Lemma unbordered_source : unbordered EXT_SANESNIPPET.
Proof.
  intros k Hk. change (length EXT_SANESNIPPET) with 13%nat in Hk.
  do 13 (destruct k as [|k]; [first [lia|reflexivity]|]). lia.
Qed.

Lemma unbordered_generated : unbordered EXT_SNIPPET_SANE.
Proof.
  intros k Hk. change (length EXT_SNIPPET_SANE) with 21%nat in Hk.
  do 21 (destruct k as [|k]; [first [lia|reflexivity]|]). lia.
Qed.

Lemma swap_ends_source path :
  Py.endswith EXT_SNIPPET_SANE path = true →
  Py.endswith EXT_SANESNIPPET (swap_extension path) = true.
Proof.
  intros H. unfold swap_extension. rewrite H.
  by apply replace_ends; [|apply unbordered_generated|].
Qed.

Lemma swap_ends_generated path :
  Py.endswith EXT_SNIPPET_SANE path = false →
  Py.endswith EXT_SANESNIPPET path = true →
  Py.endswith EXT_SNIPPET_SANE (swap_extension path) = true.
Proof.
  intros H1 H2. unfold swap_extension. rewrite H1.
  by apply replace_ends; [|apply unbordered_source|].
Qed.

(** X10.  The path that [swap_extension] returns for a path with one of the
    two extensions ends with the other extension, whatever else the path
    contains. *)
Theorem swap_extension_extension path :
  Py.endswith EXT_SNIPPET_SANE path || Py.endswith EXT_SANESNIPPET path = true →
  Py.endswith (if Py.endswith EXT_SNIPPET_SANE path
               then EXT_SANESNIPPET else EXT_SNIPPET_SANE)
              (swap_extension path) = true.
Proof.
  intros H. destruct (Py.endswith EXT_SNIPPET_SANE path) eqn:E.
  - by apply swap_ends_source.
  - by apply swap_ends_generated.
Qed.

Lemma swap_extension_extension_witness :
  Py.endswith EXT_SNIPPET_SANE (swap_extension odd_source) = true.
Proof. apply (swap_extension_extension odd_source). reflexivity. Defined.

Lemma contains_false x s i :
  x ≠ [] → contains x s = false → Py.startswith x (drop i s) = false.
Proof.
  intros Hx H. unfold contains in H.
  destruct (decide (i < S (length s))%nat) as [Hlt|Hge].
  - destruct (Py.startswith _ _) eqn:E; [|done].
    rewrite <-H. symmetry. apply existsb_exists. exists i. split; [|done].
    apply in_seq. lia.
  - rewrite drop_ge by lia. by destruct x.
Qed.

(** X11.  A path in which neither extension occurs is returned as it is. *)
Theorem swap_extension_other path :
  contains EXT_SANESNIPPET path = false →
  contains EXT_SNIPPET_SANE path = false →
  swap_extension path = path.
Proof.
  intros Hs Hg. unfold swap_extension.
  destruct (Py.endswith EXT_SNIPPET_SANE path) eqn:E.
  - apply endswith_inv in E as [stem ->].
    apply (contains_false _ _ (length stem)) in Hg; [|done].
    by rewrite drop_app_length in Hg.
  - unfold Py.replace. apply replace_from_none.
    intros i. by apply contains_false.
Qed.

Lemma swap_extension_other_witness :
  swap_extension (py "Packages/User/notes.txt") = py "Packages/User/notes.txt".
Proof. apply swap_extension_other; reflexivity. Defined.

(** ** Paths in which the extension occurs once *)

Ltac eqb_cases H :=
  repeat match type of H with
         | context [N.eqb ?x ?y] =>
             destruct (N.eqb_spec x y); [subst|]; cbn [andb] in H;
             try discriminate; try done
         end.

(** An occurrence of an extension that starts inside [t] and runs into
    the extension after [t] begins with [.sane] inside [t]. *)
Lemma straddle_source t :
  t ≠ [] → Py.startswith EXT_SANESNIPPET (t ++ EXT_SANESNIPPET) = true →
  Py.startswith (py ".sane") t = true.
Proof.
  intros Ht H.
  change EXT_SANESNIPPET
    with [46; 115; 97; 110; 101; 45; 115; 110; 105; 112; 112; 101; 116] in H.
  destruct t as [|a1 [|a2 [|a3 [|a4 [|a5 t]]]]]; [done|..];
    cbn [app Py.startswith] in H; eqb_cases H.
Qed.

Lemma straddle_generated t :
  t ≠ [] → Py.startswith EXT_SNIPPET_SANE (t ++ EXT_SNIPPET_SANE) = true →
  Py.startswith (py ".sane") t = true.
Proof.
  intros Ht H.
  change EXT_SNIPPET_SANE
    with [46; 115; 97; 110; 101; 46; 115; 117; 98; 108; 105; 109; 101; 45;
          115; 110; 105; 112; 112; 101; 116] in H.
  destruct t as [|a1 [|a2 [|a3 [|a4 [|a5 t]]]]]; [done|..];
    cbn [app Py.startswith] in H; eqb_cases H.
Qed.

Lemma at_end_only ext stem :
  (∀ t, t ≠ [] → Py.startswith ext (t ++ ext) = true →
        Py.startswith (py ".sane") t = true) →
  contains (py ".sane") stem = false →
  ∀ i, (i < length stem)%nat → Py.startswith ext (drop i (stem ++ ext)) = false.
Proof.
  intros Hst Hc i Hi. rewrite drop_app_le by lia.
  destruct (Py.startswith ext _) eqn:E; [|done].
  apply Hst in E.
  - by rewrite contains_false in E.
  - intros E'. apply (f_equal length) in E'. rewrite length_drop in E'.
    simpl in E'. lia.
Qed.

(** X12.  For a file whose path does not contain [.sane] before its
    extension, [swap_extension] exchanges the extension and leaves the rest
    of the path as it is, in both directions; swapping twice gives the path
    back. *)
Theorem swap_extension_clean stem :
  contains (py ".sane") stem = false →
  swap_extension (stem ++ EXT_SANESNIPPET) = stem ++ EXT_SNIPPET_SANE
  ∧ swap_extension (stem ++ EXT_SNIPPET_SANE) = stem ++ EXT_SANESNIPPET.
Proof.
  intros H. split.
  - apply swap_extension_source, at_end_only; [apply straddle_source|done].
  - apply swap_extension_generated, at_end_only; [apply straddle_generated|done].
Qed.

Lemma swap_extension_clean_witness :
  swap_extension (py "Packages/User/hello" ++ EXT_SANESNIPPET)
  = py "Packages/User/hello" ++ EXT_SNIPPET_SANE
  ∧ swap_extension (py "Packages/User/hello" ++ EXT_SNIPPET_SANE)
    = py "Packages/User/hello" ++ EXT_SANESNIPPET.
Proof. apply (swap_extension_clean (py "Packages/User/hello")). reflexivity. Defined.

(** ** The name of a source file *)

Lemma before_app x a b : x ∉ a → Os.before x (a ++ x :: b) = a.
Proof.
  induction a as [|c a IH]; intros H; simpl.
  - by rewrite N.eqb_refl.
  - destruct (N.eqb_spec c x) as [->|_]; [destruct H; left|].
    f_equal. apply IH. intros ?. apply H. by right.
Qed.

Lemma before_all x a : x ∉ a → Os.before x a = a.
Proof.
  induction a as [|c a IH]; intros H; simpl; [done|].
  destruct (N.eqb_spec c x) as [->|_]; [destruct H; left|].
  f_equal. apply IH. intros ?. apply H. by right.
Qed.

Lemma basename_app d b : Os.sep ∉ b → Os.basename (d ++ Os.sep :: b) = b.
Proof.
  intros H. unfold Os.basename.
  rewrite reverse_app, reverse_cons, <-app_assoc. cbn [app].
  rewrite before_app by (by rewrite elem_of_reverse).
  apply reverse_involutive.
Qed.

Lemma basename_plain b : Os.sep ∉ b → Os.basename b = b.
Proof.
  intros H. unfold Os.basename.
  rewrite before_all by (by rewrite elem_of_reverse).
  apply reverse_involutive.
Qed.

Lemma endswith_sep a : Py.endswith [Os.sep] a = true → ∃ a', a = a' ++ [Os.sep].
Proof. apply endswith_inv. Qed.

(** The file [b] of the directory [d] has the base name [b]. *)
Lemma basename_join d b : Os.sep ∉ b → Os.basename (Os.join d b) = b.
Proof.
  intros H. unfold Os.join.
  destruct (Py.startswith [Os.sep] b) eqn:E1.
  { apply startswith_inv in E1 as [t ->]. destruct H. left. }
  destruct (bool_decide (d = [])) eqn:E2.
  { apply bool_decide_eq_true in E2 as ->. by apply basename_plain. }
  destruct (Py.endswith [Os.sep] d) eqn:E3; cbn [orb].
  - apply endswith_sep in E3 as [d' ->]. rewrite <-app_assoc.
    by apply basename_app.
  - by apply basename_app.
Qed.

Lemma splitext_source stem :
  Os.splitext (stem ++ EXT_SANESNIPPET)
  = if forallb (λ c, c =? Os.extsep) stem
    then (stem ++ EXT_SANESNIPPET, []) else (stem, EXT_SANESNIPPET).
Proof.
  unfold Os.splitext.
  assert (reverse (Os.before Os.extsep (reverse (stem ++ EXT_SANESNIPPET)))
          = py "sane-snippet") as ->.
  { rewrite reverse_app.
    change (reverse EXT_SANESNIPPET)
      with (reverse (py "sane-snippet") ++ [Os.extsep]).
    rewrite <-app_assoc. cbn [app]. rewrite before_app.
    - apply reverse_involutive.
    - apply (bool_decide_unpack _). by vm_compute. }
  rewrite length_app.
  change (length EXT_SANESNIPPET) with 13%nat.
  change (length (py "sane-snippet")) with 12%nat.
  replace (length stem + 13 - 13)%nat with (length stem) by lia.
  rewrite take_app_length, drop_app_length.
  rewrite bool_decide_eq_true_2 by lia. cbn [andb].
  by destruct (forallb _ stem).
Qed.

Lemma source_name_stem d stem :
  Os.sep ∉ stem →
  (Os.splitext (Os.basename (Os.join d (stem ++ EXT_SANESNIPPET)))).1
  = if forallb (λ c, c =? Os.extsep) stem
    then stem ++ EXT_SANESNIPPET else stem.
Proof.
  intros H. rewrite basename_join, splitext_source.
  - by destruct (forallb _ stem).
  - rewrite elem_of_app. intros [?|H']; [done|].
    revert H'. apply (bool_decide_unpack _). by vm_compute.
Qed.

(** X13.  The name under which [regenerate_snippet] parses the source file
    [stem.sane-snippet] of a directory is [stem]; it is the whole file name
    when [stem] is empty or made of dots only. *)
Theorem source_file_name d stem :
  Os.sep ∉ stem →
  (let path := Os.join d (stem ++ EXT_SANESNIPPET) in
   Os.basename path = stem ++ EXT_SANESNIPPET
   ∧ Os.splitext (Os.basename path)
     = if forallb (λ c, c =? Os.extsep) stem
       then (stem ++ EXT_SANESNIPPET, []) else (stem, EXT_SANESNIPPET)).
Proof.
  intros H. cbv zeta. rewrite basename_join.
  - split; [done|]. apply splitext_source.
  - rewrite elem_of_app. intros [?|H']; [done|].
    revert H'. apply (bool_decide_unpack _). by vm_compute.
Qed.

Lemma source_file_name_witness :
  let path := Os.join (py "Packages/User") (py "hello" ++ EXT_SANESNIPPET) in
  Os.basename path = py "hello" ++ EXT_SANESNIPPET
  ∧ Os.splitext (Os.basename path)
    = if forallb (λ c, c =? Os.extsep) (py "hello")
      then (py "hello" ++ EXT_SANESNIPPET, []) else (py "hello", EXT_SANESNIPPET).
Proof.
  apply (source_file_name (py "Packages/User") (py "hello")).
  apply (bool_decide_unpack _). vm_compute. exact I.
Defined.

(** ** One source file *)

Lemma raised_message_nonempty os_linesep path name text msg :
  parse_snippet os_linesep path name text = Raise (SyntaxError msg) → msg ≠ [].
Proof.
  rewrite parse_snippet_groups.
  destruct (template_groups text) as [[[h ls] c]|]; [|by intros [= <-]].
  intros H%parse_header_Raise_key.
  by destruct H as [->|(key & -> & _)].
Qed.

(** A record of the parser is always serialized. *)
Lemma parsed_record_serialized os_linesep path name text r :
  parse_snippet os_linesep path name text = Return r →
  ∃ d t s c, snippet_to_xml r = Some (snippet_element d t s c).
Proof.
  intros (h & ls & c & kvs & _ & _ & Hkvs & ->)%parse_snippet_Return.
  destruct (known_keys_lookup kvs _ name ls c path eq_refl) as (Hd & Ht & Hs).
  destruct (other_keys_lookup kvs path name ls c Hkvs) as [Hc _].
  eexists _, _, _, _. by apply snippet_to_xml_fields.
Qed.

(** X14.  [regenerate_snippet] has four outcomes, and none of them changes
    a file: the file cannot be opened, which is printed; reading it raises
    a decoding error, which no handler catches, so that the exception
    leaves the function; the parser raises on the text read, which is
    reported once with the parser's own message, printed at load time and
    shown in a dialog otherwise; or the document of the parsed record is
    returned and nothing is reported. The messages for an error without
    text and for a failing serializer are never used. *)
Theorem regenerate_snippet_outcomes os_linesep path onload w :
  let name := (Os.splitext (Os.basename path)).1 in
  match open_read w path with
  | OpenFails =>
      regenerate_snippet os_linesep path onload w
      = Returned None
          (emit (Print (py "SaneSnippet: Unable to read " ++ quoted path)) w)
  | ReadRaises => regenerate_snippet os_linesep path onload w = Raised w
  | Reads text =>
      match parse_snippet os_linesep path name text with
      | Raise (SyntaxError msg) =>
          regenerate_snippet os_linesep path onload w
          = Returned None (emit (failure_report onload msg path) w)
      | Return r =>
          ∃ d t s c,
            snippet_to_xml r = Some (snippet_element d t s c)
            ∧ regenerate_snippet os_linesep path onload w
              = Returned (Some (Etree.write (snippet_element d t s c))) w
      end
  end.
Proof.
  intros name. unfold regenerate_snippet. fold name.
  destruct (open_read w path) as [| |text]; [done..|].
  destruct (parse_snippet _ _ _ _) as [r|[msg]] eqn:E.
  - destruct (parsed_record_serialized _ _ _ _ _ E) as (d & t & s & c & Hx).
    exists d, t, s, c. by rewrite Hx.
  - apply raised_message_nonempty in E. destruct msg as [|a msg]; [done|].
    unfold failure_report. by destruct onload.
Qed.

(** *** Newlines of a file *)

Lemma universal_newlines_app l r :
  Py.CR ∉ l → universal_newlines (l ++ r) = l ++ universal_newlines r.
Proof.
  induction l as [|a l IH]; intros Hl; [done|].
  apply not_elem_of_cons in Hl as [Ha Hl]. cbn [app universal_newlines].
  destruct (N.eqb_spec a Py.CR) as [->|_]; [done|]. by rewrite IH.
Qed.

Lemma universal_newlines_newline nl r :
  newline nl → (nl = [Py.CR] → head r ≠ Some Py.LF) →
  universal_newlines (nl ++ r) = Py.LF :: universal_newlines r.
Proof.
  intros [->|[->| ->]] Hr; [done| |done].
  cbn [app universal_newlines]. change (Py.CR =? Py.CR) with true. cbv iota.
  destruct r as [|a r]; [done|].
  destruct (N.eqb_spec a Py.LF) as [->|_]; [|done]. by destruct Hr.
Qed.

Lemma inline_CR (l : str) : Forall inline l → Py.CR ∉ l.
Proof.
  intros H Hin. rewrite Forall_forall in H. specialize (H _ Hin).
  by compute in H.
Qed.

Lemma plain_not_LF l R : plain l → head (l ++ R) ≠ Some Py.LF.
Proof. intros Hl E. apply (plain_head l R Hl _ E). by right. Qed.

Lemma universal_newlines_header init last R :
  Forall (λ x : str * str, plain x.1 ∧ newline x.2) init → plain last →
  universal_newlines (header_of init last ++ R)
  = header_of (map (λ x, (x.1, [Py.LF])) init) last ++ universal_newlines R
  ∧ head (header_of init last ++ R) ≠ Some Py.LF.
Proof.
  intros Hinit Hlast. induction Hinit as [|[l nl] init [Hl Hnl] Hinit [IH1 IH2]].
  - unfold header_of. cbn [flat_map map app]. split; [|by apply plain_not_LF].
    apply universal_newlines_app, inline_CR, Hlast.
  - cbn [map fst snd]. rewrite !header_of_cons. cbn [fst snd] in *.
    rewrite <-!app_assoc. split; [|by apply plain_not_LF].
    rewrite universal_newlines_app by apply inline_CR, Hl.
    rewrite universal_newlines_newline by done.
    by rewrite IH1.
Qed.

(** Reading a document translates its newlines, and those of its
    content. *)
Lemma universal_newlines_document nl1 init last ls nl2 c :
  newline nl1 → newline ls → newline nl2 →
  Forall (λ x : str * str, plain x.1 ∧ newline x.2) init → plain last →
  (nl2 = [Py.CR] → head c ≠ Some Py.LF) →
  universal_newlines (document nl1 init last ls nl2 c)
  = document [Py.LF] (map (λ x, (x.1, [Py.LF])) init) last [Py.LF] [Py.LF]
      (universal_newlines c).
Proof.
  intros Hnl1 Hls Hnl2 Hinit Hlast Hcr. unfold document.
  destruct (universal_newlines_header init last
              (ls ++ py "---" ++ nl2 ++ c) Hinit Hlast) as [E Hh].
  rewrite universal_newlines_app by (by apply (bool_decide_unpack _)).
  rewrite universal_newlines_newline; [|done|].
  - rewrite E.
    rewrite universal_newlines_newline by done.
    rewrite universal_newlines_app by (by apply (bool_decide_unpack _)).
    by rewrite universal_newlines_newline by done.
  - done.
Qed.

(** X15.  For the source file [stem.sane-snippet] of a directory, which can
    be read and holds a document of [key: value] lines with known keys and
    without line boundary in a key or a value, the lines ending in [\n],
    [\r\n] or [\r], [regenerate_snippet] returns the document with the four
    elements, and reports nothing: each of the three header fields holds
    the trimmed value of its last line, the description of a document
    without such a line is the stem of the file name, and the content is
    that of the document with each [\r\n] and [\r] read as [\n]. *)
Theorem regenerate_snippet_document
    os_linesep d stem onload w nl1 init last ls nl2 c :
  Os.sep ∉ stem → forallb (λ a, a =? Os.extsep) stem = false →
  newline nl1 → newline ls → newline nl2 →
  Forall (λ x, recognized x.1 ∧ newline x.2) init → recognized last →
  (nl2 = [Py.CR] → head c ≠ Some Py.LF) →
  Os.files (fs w) !! Os.join d (stem ++ EXT_SANESNIPPET)
  = Some (sane_document nl1 init last ls nl2 c) →
  Os.join d (stem ++ EXT_SANESNIPPET) ∉ Os.unreadable (fs w) →
  Os.join d (stem ++ EXT_SANESNIPPET) ∉ Os.undecodable (fs w) →
  regenerate_snippet os_linesep (Os.join d (stem ++ EXT_SANESNIPPET)) onload w
  = Returned
      (Some (py "<snippet>"
             ++ xml_node (py "description")
                  (last_value (py "description") stem (init.*1 ++ [last]))
             ++ xml_node (py "tabTrigger")
                  (last_value (py "tabTrigger") [] (init.*1 ++ [last]))
             ++ xml_node (py "scope")
                  (last_value (py "scope") [] (init.*1 ++ [last]))
             ++ xml_node (py "content") (universal_newlines c)
             ++ py "</snippet>")) w.
Proof.
  intros Hsep Hdots Hnl1 Hls Hnl2 Hinit Hlast Hcr Hfile Hread Hdec.
  unfold regenerate_snippet, open_read. rewrite Hfile.
  rewrite !bool_decide_eq_false_2 by done.
  pose proof (source_name_stem d stem Hsep) as Hname.
  rewrite Hdots in Hname. rewrite Hname.
  unfold sane_document. rewrite universal_newlines_document; [|done..| | |done].
  2:{ apply Forall_fmap. eapply Forall_impl; [exact Hinit|].
      intros x [Hx ?]. split; [by apply recognized_plain|done]. }
  2:{ by apply recognized_plain. }
  assert (map (λ x : str * str, (x.1, [Py.LF]))
            (map (λ x : str * str * str, (line_of x.1, x.2)) init)
          = map (λ x : str * str * str, (line_of x.1, x.2))
              (map (λ x : str * str * str, (x.1, [Py.LF])) init)) as ->.
  { clear. induction init as [|x init IH]; [done|]. cbn [map]. by f_equal. }
  pose proof (parse_sane_document os_linesep
                (Os.join d (stem ++ EXT_SANESNIPPET)) stem [Py.LF]
                (map (λ x : str * str * str, (x.1, [Py.LF])) init) last
                [Py.LF] [Py.LF] (universal_newlines c)) as E.
  unfold sane_document in E.
  rewrite E; [|newline_tac..| |done|done].
  2:{ apply Forall_fmap. eapply Forall_impl; [exact Hinit|].
      intros x [Hx ?]. split; [done|newline_tac]. }
  assert ((map (λ x : str * str * str, (x.1, [Py.LF])) init).*1 = init.*1)
    as ->.
  { clear. induction init as [|x init IH]; [done|]. cbn [map fmap list_fmap].
    by f_equal. }
  set (kvs := init.*1 ++ [last]).
  destruct (known_keys_lookup kvs _ stem [Py.LF] (universal_newlines c)
              (Os.join d (stem ++ EXT_SANESNIPPET)) eq_refl) as (Hd & Ht & Hs).
  destruct (other_keys_lookup kvs (Os.join d (stem ++ EXT_SANESNIPPET))
              stem [Py.LF] (universal_newlines c)) as [Hc _].
  { by apply Forall_recognized_lines. }
  rewrite (snippet_to_xml_fields _ _ _ _ _ Hd Ht Hs Hc).
  by rewrite write_snippet_element.
Qed.

Lemma regenerate_snippet_document_witness :
  regenerate_snippet [Py.LF] (Os.join (py "Packages/User") (py "hello" ++ EXT_SANESNIPPET))
    false
    (empty_world [py "Packages/User"]
       (<[hello_path := sane_document [Py.CR; Py.LF] []
                          (py "scope", py " text.plain")
                          [Py.CR; Py.LF] [Py.CR; Py.LF]
                          (py "Hello" ++ [Py.CR; Py.LF])]> ∅))
  = Returned
      (Some (py "<snippet>"
             ++ xml_node (py "description")
                  (last_value (py "description") (py "hello")
                     ([] ++ [(py "scope", py " text.plain")]))
             ++ xml_node (py "tabTrigger")
                  (last_value (py "tabTrigger") []
                     ([] ++ [(py "scope", py " text.plain")]))
             ++ xml_node (py "scope")
                  (last_value (py "scope") []
                     ([] ++ [(py "scope", py " text.plain")]))
             ++ xml_node (py "content")
                  (universal_newlines (py "Hello" ++ [Py.CR; Py.LF]))
             ++ py "</snippet>"))
      (empty_world [py "Packages/User"]
         (<[hello_path := sane_document [Py.CR; Py.LF] []
                            (py "scope", py " text.plain")
                            [Py.CR; Py.LF] [Py.CR; Py.LF]
                            (py "Hello" ++ [Py.CR; Py.LF])]> ∅)).
Proof.
  apply (regenerate_snippet_document [Py.LF] (py "Packages/User") (py "hello")
           false _ [Py.CR; Py.LF] [] (py "scope", py " text.plain")
           [Py.CR; Py.LF] [Py.CR; Py.LF] (py "Hello" ++ [Py.CR; Py.LF])).
  - apply (bool_decide_unpack _). vm_compute. exact I.
  - reflexivity.
  - unfold newline. auto.
  - unfold newline. auto.
  - unfold newline. auto.
  - constructor.
  - apply (bool_decide_unpack _). vm_compute. exact I.
  - intros H. discriminate H.
  - reflexivity.
  - apply (bool_decide_unpack _). vm_compute. exact I.
  - apply (bool_decide_unpack _). vm_compute. exact I.
Defined.

(** ** The files that a pass touches *)

Lemma frame_refl w : frame w w.
Proof.
  split_and!; [done..|]. exists []. by rewrite app_nil_r.
Qed.

Lemma frame_trans w1 w2 w3 : frame w1 w2 → frame w2 w3 → frame w1 w3.
Proof.
  intros (Hd1 & Hl1 & Hu1 & Hr1 & Hf1 & evs1 & Ht1 & He1)
         (Hd2 & Hl2 & Hu2 & Hr2 & Hf2 & evs2 & Ht2 & He2).
  split_and!.
  - by rewrite Hd2.
  - by rewrite Hl2.
  - auto.
  - auto.
  - intros p Hp. destruct (Hf1 p Hp) as [<- <-]. by apply Hf2.
  - exists (evs1 ++ evs2). split; [by rewrite Ht2, Ht1, app_assoc|].
    by apply Forall_app.
Qed.

Lemma frame_events w evs :
  Forall touches_generated evs → frame w (World (fs w) (trace w ++ evs)).
Proof. intros He. split_and!; [done..|]. by exists evs. Qed.

Lemma reports_is_report onload e : reports onload e → is_report e.
Proof. by destruct e. Qed.

Lemma report_touches_generated evs :
  Forall is_report evs → Forall touches_generated evs.
Proof. intros H. eapply Forall_impl; [done|]. by intros []. Qed.

Lemma reports_touch_generated onload evs :
  Forall (reports onload) evs → Forall touches_generated evs.
Proof. intros H. eapply Forall_impl; [done|]. by intros []. Qed.

Lemma elem_of_forget p q l : p ∈ forget q l ↔ p ∈ l ∧ p ≠ q.
Proof. unfold forget. rewrite list_elem_of_filter. tauto. Qed.

Lemma open_read_ext w w' p :
  Os.files (fs w') !! p = Os.files (fs w) !! p →
  (p ∈ Os.unreadable (fs w') ↔ p ∈ Os.unreadable (fs w)) →
  (p ∈ Os.undecodable (fs w') ↔ p ∈ Os.undecodable (fs w)) →
  open_read w' p = open_read w p.
Proof.
  intros Hf Hr Hu. unfold open_read. rewrite Hf.
  destruct (Os.files (fs w) !! p); [|done].
  by rewrite (bool_decide_ext _ _ Hr), (bool_decide_ext _ _ Hu).
Qed.

Lemma frame_removed w q :
  Py.endswith EXT_SNIPPET_SANE q = true → frame w (removed q w).
Proof.
  intros Hq.
  assert (∀ p, Py.endswith EXT_SNIPPET_SANE p = false → p ≠ q) as Hne.
  { intros p Hp ->. by rewrite Hq in Hp. }
  split_and!; [done..| | | |].
  - intros p. cbn [removed fs Os.undecodable]. rewrite elem_of_forget. tauto.
  - intros p. cbn [removed fs Os.unreadable]. rewrite elem_of_forget. tauto.
  - intros p Hp%Hne.
    assert (Os.files (fs (removed q w)) !! p = Os.files (fs w) !! p) as Hf.
    { cbn [removed fs Os.files]. by apply lookup_delete_ne. }
    split; [done|]. apply open_read_ext; [done|..];
      cbn [removed fs Os.undecodable Os.unreadable];
      rewrite elem_of_forget; tauto.
  - exists [Remove q]. split; [done|]. by repeat constructor.
Qed.

Lemma frame_written os_linesep w q g :
  Py.endswith EXT_SNIPPET_SANE q = true → frame w (written os_linesep q g w).
Proof.
  intros Hq.
  assert (∀ p, Py.endswith EXT_SNIPPET_SANE p = false → p ≠ q) as Hne.
  { intros p Hp ->. by rewrite Hq in Hp. }
  split_and!; [done..| | | |].
  - intros p. cbn [written fs Os.undecodable]. rewrite elem_of_forget. tauto.
  - done.
  - intros p Hp%Hne.
    assert (Os.files (fs (written os_linesep q g w)) !! p
            = Os.files (fs w) !! p) as Hf.
    { cbn [written fs Os.files]. by apply lookup_insert_ne. }
    split; [done|]. apply open_read_ext; [done..|].
    cbn [written fs Os.undecodable]. rewrite elem_of_forget. tauto.
  - exists [Write q g]. split; [done|]. by repeat constructor.
Qed.

(** *** Loops *)

Lemma for_each_invariant {B} (P : world → Prop)
    (f : B → world → outcome unit) l w :
  (∀ x w, x ∈ l → P w → P (world_of (f x w))) → P w →
  P (world_of (for_each f l w)).
Proof.
  revert w. induction l as [|x l IH]; intros w Hf Hw; [done|].
  cbn [for_each]. pose proof (Hf x w ltac:(left) Hw) as Hx.
  destruct (f x w) as [[] w'|w']; [|done].
  apply IH; [|done]. intros y w'' Hy. apply Hf. by right.
Qed.

Lemma for_each_returns {B} (I : world → Prop)
    (f : B → world → outcome unit) l w :
  (∀ x w, x ∈ l → I w → ∃ w', f x w = Returned tt w' ∧ I w') → I w →
  ∃ w', for_each f l w = Returned tt w' ∧ I w'.
Proof.
  revert w. induction l as [|x l IH]; intros w Hf Hw; [by exists w|].
  cbn [for_each]. destruct (Hf x w ltac:(left) Hw) as (w' & -> & Hw').
  apply IH; [|done]. intros y w'' Hy. apply Hf. by right.
Qed.

Lemma for_each_reach {B} (I D : world → Prop)
    (f : B → world → outcome unit) l b w :
  (∀ x w, I w → ∃ w', f x w = Returned tt w' ∧ I w') →
  (∀ x w, I w → D w → D (world_of (f x w))) →
  (∀ w, I w → D (world_of (f b w))) →
  b ∈ l → I w →
  ∃ w', for_each f l w = Returned tt w' ∧ I w' ∧ D w'.
Proof.
  intros HI HD Hb. revert w.
  induction l as [|x l IH]; intros w Hin Hw; [by apply elem_of_nil in Hin|].
  cbn [for_each]. destruct (HI x w Hw) as (w' & E & Hw').
  apply elem_of_cons in Hin as [->|Hin].
  - pose proof (Hb w Hw) as Hd. rewrite E in Hd |- *. cbn [world_of] in Hd.
    destruct (for_each_returns (λ w, I w ∧ D w) f l w') as (w2 & ? & ? & ?);
      [|done|by exists w2].
    intros y w'' _ [H1 H2]. destruct (HI y w'' H1) as (w3 & E3 & H3).
    exists w3. split_and!; [done..|].
    specialize (HD y w'' H1 H2). by rewrite E3 in HD.
  - rewrite E. by apply IH.
Qed.

(** *** One step *)

Lemma regenerate_cases os_linesep path onload w :
  (∃ evs, regenerate_snippet os_linesep path onload w
          = Returned None (World (fs w) (trace w ++ evs))
          ∧ Forall (reports onload) evs)
  ∨ (regenerate_snippet os_linesep path onload w = Raised w
     ∧ open_read w path = ReadRaises)
  ∨ (∃ g text, regenerate_snippet os_linesep path onload w
               = Returned (Some g) w
               ∧ open_read w path = Reads text).
Proof.
  unfold regenerate_snippet.
  destruct (open_read w path) as [| |text].
  - left. eexists [_]. split; [done|]. by repeat constructor.
  - right. by left.
  - destruct (parse_snippet _ _ _ _) as [r|[msg]].
    + destruct (snippet_to_xml r); [right; right; by eexists _, _|].
      left. eexists [_]. split; [done|]. by repeat constructor.
    + left. destruct onload; eexists [_]; (split; [done|]);
        by repeat constructor.
Qed.

(** The document that [regenerate_snippet] returns for a file depends on
    what is read from the file only. *)
Lemma regenerate_transport os_linesep path onload onload' w w' g w1 :
  open_read w' path = open_read w path →
  regenerate_snippet os_linesep path onload w = Returned (Some g) w1 →
  w1 = w ∧ regenerate_snippet os_linesep path onload' w' = Returned (Some g) w'.
Proof.
  unfold regenerate_snippet. intros ->.
  destruct (open_read w path) as [| |text]; [done..|].
  destruct (parse_snippet _ _ _ _) as [r|[msg]];
    [|by destruct onload].
  destruct (snippet_to_xml r); [|done]. by intros [= <- <-].
Qed.

Lemma regenerate_Some os_linesep path onload w g w1 :
  regenerate_snippet os_linesep path onload w = Returned (Some g) w1 →
  w1 = w ∧ ∃ text, open_read w path = Reads text.
Proof.
  intros E.
  destruct (regenerate_cases os_linesep path onload w)
    as [(evs & E' & _)|[[E' _]|(g' & text & E' & Hr)]];
    rewrite E' in E; [done..|].
  injection E as <- <-. eauto.
Qed.

Lemma open_read_Some w p text :
  open_read w p = Reads text → is_Some (Os.files (fs w) !! p).
Proof. unfold open_read. by destruct (Os.files (fs w) !! p). Qed.

(** What one step of the loop does: it leaves the files as they are and
    may report; or an exception leaves it, when a source file or its
    generated file cannot be decoded; or it removes a generated file
    whose swapped path does not exist; or it writes the document of a
    source file to the swapped path. *)
Lemma visit_file_cases os_linesep onload force d b w :
  let path := Os.join d b in
  let o := visit_file os_linesep onload force d b w in
  (∃ evs, o = Returned tt (World (fs w) (trace w ++ evs))
          ∧ Forall (reports onload) evs)
  ∨ (o = Raised w
     ∧ Py.endswith EXT_SNIPPET_SANE b = false
     ∧ Py.endswith EXT_SANESNIPPET b = true
     ∧ (open_read w path = ReadRaises
        ∨ open_read w (swap_extension path) = ReadRaises))
  ∨ (Py.endswith EXT_SNIPPET_SANE b = true
     ∧ Os.exists_ (fs w) (swap_extension path) = false
     ∧ is_Some (Os.files (fs w) !! path)
     ∧ (path ∉ Os.locked (fs w))
     ∧ o = Returned tt (removed path w))
  ∨ (Py.endswith EXT_SNIPPET_SANE b = false
     ∧ Py.endswith EXT_SANESNIPPET b = true
     ∧ ∃ g, regenerate_snippet os_linesep path onload w = Returned (Some g) w
            ∧ Os.parent (swap_extension path) ∈ Os.dirs (fs w)
            ∧ (swap_extension path ∉ Os.dirs (fs w))
            ∧ (swap_extension path ∉ Os.locked (fs w))
            ∧ (force = true ∨ Os.exists_ (fs w) (swap_extension path) = false
               ∨ ∃ read, open_read w (swap_extension path) = Reads read
                         ∧ read ≠ g)
            ∧ o = Returned tt (written os_linesep (swap_extension path) g w)).
Proof.
  intros path o. subst o. unfold visit_file. fold path.
  assert (∀ msg, ∃ evs, Returned tt (emit (Print msg) w)
                        = Returned tt (World (fs w) (trace w ++ evs))
            ∧ Forall (reports onload) evs)
    as Hprint.
  { intros msg. exists [Print msg]. split; [done|]. by repeat constructor. }
  assert (∃ evs, @Returned unit tt w
                 = Returned tt (World (fs w) (trace w ++ evs))
            ∧ Forall (reports onload) evs)
    as Hsame.
  { exists []. split; [by destruct w; rewrite app_nil_r|done]. }
  destruct (Py.endswith EXT_SNIPPET_SANE b) eqn:Hg.
  - destruct (Os.exists_ (fs w) (swap_extension path)) eqn:Hex; cbn [negb];
      [by left|].
    unfold remove_file.
    destruct (Os.files (fs w) !! path) as [x|] eqn:Hx; [|by left].
    case_bool_decide as Hlock; [by left|].
    right. right. left. split_and!; [done..|by eexists|done|done].
  - destruct (Py.endswith EXT_SANESNIPPET b) eqn:Hs; [|by left].
    destruct (regenerate_cases os_linesep path onload w)
      as [(evs & -> & Hevs)|[[-> Hr]|(g & text & Hre & Hr)]].
    + left. by exists evs.
    + right. left. split_and!; [done..|]. by left.
    + rewrite Hre. set (t := swap_extension path).
      assert ((∃ evs, match write_file os_linesep t g w with
                        | Some w' => Returned tt w'
                        | None =>
                            Returned tt
                              (emit (Print (py "SaneSnippet: Unable to open "
                                            ++ quoted t)) w)
                        end = Returned tt (World (fs w) (trace w ++ evs))
                   ∧ Forall (reports onload) evs)
                ∨ (Os.parent t ∈ Os.dirs (fs w)
                   ∧ (t ∉ Os.dirs (fs w)) ∧ (t ∉ Os.locked (fs w))
                   ∧ match write_file os_linesep t g w with
                     | Some w' => Returned tt w'
                     | None =>
                         Returned tt
                           (emit (Print (py "SaneSnippet: Unable to open "
                                         ++ quoted t)) w)
                     end = Returned tt (written os_linesep t g w))) as Hwrite.
      { unfold write_file.
        case_bool_decide as Hok; [|by left]. right.
        by destruct Hok as (? & ? & ?). }
      destruct (force || negb (Os.exists_ (fs w) t)) eqn:Hf.
      * assert (force = true ∨ Os.exists_ (fs w) t = false
                ∨ ∃ read, open_read w t = Reads read ∧ read ≠ g) as Hwhy.
        { apply orb_prop in Hf as [->|Hf]; [by left|]. right. left.
          by destruct (Os.exists_ (fs w) t). }
        destruct Hwrite as [?|(? & ? & ? & ?)]; [by left|].
        right. right. right. split_and!; [done..|]. by exists g.
      * destruct (open_read w t) as [| |read] eqn:Ht.
        -- by left.
        -- right. left. split_and!; [done..|]. by right.
        -- unfold Py.eqb. case_bool_decide as Heq; cbn [negb]; [by left|].
           destruct Hwrite as [?|(? & ? & ? & ?)]; [by left|].
           right. right. right. split_and!; [done..|]. exists g.
           split_and!; [done..| |done]. right. right. by exists read.
Qed.

Lemma source_not_generated p :
  Py.endswith EXT_SANESNIPPET p = true →
  Py.endswith EXT_SNIPPET_SANE p = false.
Proof. intros [stem ->]%endswith_inv. apply endswith_source_not_generated. Qed.

Lemma join_app d b : ∃ pre, Os.join d b = pre ++ b.
Proof.
  unfold Os.join. destruct (Py.startswith _ b); [by exists []|].
  destruct (_ || _); [by exists d|]. exists (d ++ [Os.sep]).
  by rewrite <-app_assoc.
Qed.

Lemma join_endswith x d b :
  Py.endswith x b = true → Py.endswith x (Os.join d b) = true.
Proof.
  intros [stem ->]%endswith_inv. destruct (join_app d (stem ++ x)) as [pre ->].
  rewrite app_assoc. apply endswith_app.
Qed.

Lemma swapped_source_generated d b :
  Py.endswith EXT_SANESNIPPET b = true →
  Py.endswith EXT_SNIPPET_SANE (swap_extension (Os.join d b)) = true.
Proof.
  intros Hs. apply swap_ends_generated; [|by apply join_endswith].
  by apply source_not_generated, join_endswith.
Qed.

Lemma visit_file_frame os_linesep onload force d b w :
  frame w (world_of (visit_file os_linesep onload force d b w)).
Proof.
  destruct (visit_file_cases os_linesep onload force d b w)
    as [(evs & -> & Hevs)|[(-> & _)|[(Hg & _ & _ & _ & ->)
       |(Hg & Hs & g & _ & _ & _ & _ & _ & ->)]]]; cbn [world_of].
  - by eapply frame_events, reports_touch_generated.
  - apply frame_refl.
  - by apply frame_removed, join_endswith.
  - by apply frame_written, swapped_source_generated.
Qed.

(** A property that every step of the loop and the report of an
    uncaught exception keep holds after the pass. *)
Lemma pass_invariant (P : world → Prop) os_linesep root onload force w :
  (∀ d b w', P w' → P (world_of (visit_file os_linesep onload force d b w'))) →
  (∀ e w', P w' → P (emit (Uncaught e) w')) →
  P w → P (regenerate_snippets os_linesep root onload force w).
Proof.
  intros Hstep Hraise Hw. unfold regenerate_snippets.
  assert (P (world_of (visit_tree os_linesep root onload force w))) as H.
  { unfold visit_tree. apply (for_each_invariant P); [|done].
    intros d w' _ Hw'. apply (for_each_invariant P); [|done].
    intros b w'' _. apply Hstep. }
  destruct (visit_tree _ _ _ _ _) as [[] w'|w']; [done|]. by apply Hraise.
Qed.

Lemma regenerate_snippets_frame os_linesep root onload force w :
  frame w (regenerate_snippets os_linesep root onload force w).
Proof.
  apply (pass_invariant (frame w)); [| |apply frame_refl].
  - intros d b w' H. eapply frame_trans; [done|]. apply visit_file_frame.
  - intros e w' H. eapply frame_trans; [done|].
    apply (frame_events w' [Uncaught e]). by repeat constructor.
Qed.

(** X16.  A pass changes files with the generated extension only: it leaves
    the directories and every other file, the source files among them, as
    they are, and each file that it removes or writes has the generated
    extension. *)
Theorem pass_touches_generated_files os_linesep root onload force w :
  let w' := regenerate_snippets os_linesep root onload force w in
  Os.dirs (fs w') = Os.dirs (fs w)
  ∧ (∀ p, Py.endswith EXT_SNIPPET_SANE p = false →
          Os.files (fs w') !! p = Os.files (fs w) !! p)
  ∧ ∃ evs, trace w' = trace w ++ evs
           ∧ ∀ e, e ∈ evs →
                  match e with
                  | Remove p | Write p _ => Py.endswith EXT_SNIPPET_SANE p = true
                  | _ => True
                  end.
Proof.
  destruct (regenerate_snippets_frame os_linesep root onload force w)
    as (Hd & _ & _ & _ & Hf & evs & Ht & He).
  split_and!; [done|by intros p Hp; apply Hf|]. exists evs. split; [done|].
  by apply Forall_forall.
Qed.

(** ** Reports at load time *)

Lemma silent_refl w : silent w w.
Proof. exists []. by rewrite app_nil_r. Qed.

Lemma silent_trans w1 w2 w3 : silent w1 w2 → silent w2 w3 → silent w1 w3.
Proof.
  intros (evs1 & Ht1 & He1) (evs2 & Ht2 & He2). exists (evs1 ++ evs2).
  split; [by rewrite Ht2, Ht1, app_assoc|]. by apply Forall_app.
Qed.

Lemma silent_event w fs' e :
  ¬ is_dialog e → silent w (World fs' (trace w ++ [e])).
Proof. intros He. exists [e]. split; [done|]. by apply Forall_singleton. Qed.

Lemma visit_file_silent os_linesep force d b w :
  silent w (world_of (visit_file os_linesep true force d b w)).
Proof.
  destruct (visit_file_cases os_linesep true force d b w)
    as [(evs & -> & Hevs)|[(-> & _)|[(Hg & _ & _ & _ & ->)
       |(Hg & Hs & g & _ & _ & _ & _ & _ & ->)]]]; cbn [world_of].
  - exists evs. split; [done|]. eapply Forall_impl; [done|].
    by intros [] He Hd.
  - apply silent_refl.
  - apply silent_event. intros H. exact H.
  - apply silent_event. intros H. exact H.
Qed.

(** X17.  At load time no dialog is shown: the pass that runs when the
    module is loaded reports by printing only. *)
Theorem on_load_shows_no_dialog os_linesep packages_path w :
  ∃ evs, trace (on_load os_linesep packages_path w) = trace w ++ evs
         ∧ ∀ msg, ErrorMessage msg ∉ evs.
Proof.
  assert (silent w (on_load os_linesep packages_path w)) as (evs & Ht & He).
  { unfold on_load. apply (pass_invariant (silent w)); [| |apply silent_refl].
    - intros d b w' H. eapply silent_trans; [done|]. apply visit_file_silent.
    - intros e w' H. eapply silent_trans; [done|].
      apply silent_event. intros H'. exact H'. }
  exists evs. split; [done|]. intros msg Hin.
  rewrite Forall_forall in He. by apply (He _ Hin).
Qed.

(** ** What a pass generates and removes *)

Lemma elem_of_entries fs p : p ∈ Os.entries fs ↔ is_Some (Os.files fs !! p).
Proof.
  assert (p ∈ (map_to_list (Os.files fs)).*1 ↔ is_Some (Os.files fs !! p)) as <-.
  { rewrite list_elem_of_fmap. split.
    - intros ([p' x] & -> & Hp). apply elem_of_map_to_list in Hp. by exists x.
    - intros [x Hx]. exists (p, x). split; [done|]. by apply elem_of_map_to_list. }
  unfold Os.entries. rewrite elem_of_app, !list_elem_of_filter, elem_of_remove_dups.
  destruct (decide (p ∈ Os.order fs)); tauto.
Qed.

Lemma elem_of_listdir fs d b :
  b ∈ Os.listdir fs d
  ↔ is_Some (Os.files fs !! Os.join d b) ∧ Os.basename (Os.join d b) = b ∧ b ≠ [].
Proof.
  unfold Os.listdir. rewrite list_elem_of_omap. split.
  - intros (p & Hp & Hx). case_bool_decide as Hj; [|done].
    injection Hx as <-. destruct Hj as [Hj Hne]. rewrite Hj.
    split_and!; [|done..]. by apply elem_of_entries.
  - intros (Hx & Hbn & Hne). exists (Os.join d b). split.
    + by apply elem_of_entries.
    + rewrite bool_decide_eq_true_2; [by rewrite Hbn|]. by rewrite Hbn.
Qed.

Lemma frame_exists w0 w p :
  frame w0 w → Py.endswith EXT_SNIPPET_SANE p = false →
  Os.exists_ (fs w) p = Os.exists_ (fs w0) p.
Proof.
  intros (Hd & _ & _ & _ & Hf & _) Hp. unfold Os.exists_.
  destruct (Hf p Hp) as [-> _]. by rewrite Hd.
Qed.

Lemma frame_decodable w0 w :
  frame w0 w → snippets_decodable (fs w0) → snippets_decodable (fs w).
Proof.
  intros (_ & _ & Hu & _) H. unfold snippets_decodable in *.
  rewrite Forall_forall in *. auto.
Qed.

Lemma open_read_raises w p :
  open_read w p = ReadRaises → p ∈ Os.undecodable (fs w).
Proof.
  unfold open_read. destruct (Os.files (fs w) !! p); [|done].
  case_bool_decide; [done|]. by case_bool_decide.
Qed.

Lemma open_read_content w p text :
  open_read w p = Reads text →
  ∃ content, Os.files (fs w) !! p = Some content
             ∧ universal_newlines content = text.
Proof.
  unfold open_read. destruct (Os.files (fs w) !! p) as [content|]; [|done].
  case_bool_decide; [done|]. case_bool_decide; [done|].
  intros [= <-]. by exists content.
Qed.

(** Where every snippet file can be decoded, no exception leaves a
    step of the loop. *)
Lemma visit_file_returns os_linesep onload force d b w :
  snippets_decodable (fs w) →
  ∃ w', visit_file os_linesep onload force d b w = Returned tt w'.
Proof.
  intros Hdec. unfold snippets_decodable in Hdec. rewrite Forall_forall in Hdec.
  destruct (visit_file_cases os_linesep onload force d b w)
    as [(evs & -> & Hevs)|[(_ & Hg & Hs & Hr)|[(Hg & _ & _ & _ & ->)
       |(Hg & Hs & g & _ & _ & _ & _ & _ & ->)]]]; [by eexists| |by eexists..].
  exfalso. destruct Hr as [Hr%open_read_raises|Hr%open_read_raises];
    apply Hdec in Hr as [Hr1 Hr2].
  - by rewrite join_endswith in Hr1.
  - by rewrite swapped_source_generated in Hr2.
Qed.

Section Pass.

Variable os_linesep : str.
Variables onload force : bool.
Variable w0 : world.
Hypothesis Hswap : swaps_back (fs w0).
Hypothesis Hdec : snippets_decodable (fs w0).

Lemma visit_file_step d b w :
  frame w0 w →
  ∃ w', visit_file os_linesep onload force d b w = Returned tt w'
        ∧ frame w0 w'.
Proof.
  intros Hw.
  destruct (visit_file_returns os_linesep onload force d b w) as [w' E];
    [by eapply frame_decodable|].
  exists w'. split; [done|]. eapply frame_trans; [done|].
  pose proof (visit_file_frame os_linesep onload force d b w) as H.
  by rewrite E in H.
Qed.

(** A property that every step keeps holds after the pass, which no
    exception leaves. *)
Lemma pass_keeps (D : world → Prop) root :
  (∀ d b w, frame w0 w → D w →
            D (world_of (visit_file os_linesep onload force d b w))) →
  D w0 →
  ∃ w', visit_tree os_linesep root onload force w0 = Returned tt w'
        ∧ frame w0 w' ∧ D w'.
Proof.
  intros HD Hw0.
  assert (∀ d b w, frame w0 w ∧ D w →
            ∃ w', visit_file os_linesep onload force d b w = Returned tt w'
                  ∧ frame w0 w' ∧ D w') as Hstep.
  { intros d b w [Hw Hd]. destruct (visit_file_step d b w Hw) as (w' & E & Hw').
    exists w'. split_and!; [done..|]. specialize (HD d b w Hw Hd).
    by rewrite E in HD. }
  unfold visit_tree.
  apply (for_each_returns (λ w, frame w0 w ∧ D w));
    [|split; [apply frame_refl|done]].
  intros d w _ Hw. apply (for_each_returns (λ w, frame w0 w ∧ D w)); [|done].
  intros b w' _. apply Hstep.
Qed.

(** A property that the step for the file [b] of the directory [d]
    establishes and that every step keeps holds after the pass. *)
Lemma pass_reach (D : world → Prop) root d b :
  (∀ d' b' w, frame w0 w → D w →
              D (world_of (visit_file os_linesep onload force d' b' w))) →
  (∀ w, frame w0 w → D (world_of (visit_file os_linesep onload force d b w))) →
  (∀ w, frame w0 w → D w ∨ b ∈ Os.listdir (fs w) d) →
  d ∈ Os.walk (fs w0) root →
  ∃ w', visit_tree os_linesep root onload force w0 = Returned tt w'
        ∧ frame w0 w' ∧ D w'.
Proof.
  intros HD Hb Hlist Hd.
  assert (∀ d' w, frame w0 w →
            ∃ w', for_each (visit_file os_linesep onload force d')
                    (Os.listdir (fs w) d') w = Returned tt w'
                  ∧ frame w0 w') as Hinner.
  { intros d' w Hw. apply (for_each_returns (frame w0)); [|done].
    intros b' w' _. apply visit_file_step. }
  assert (∀ d' w, frame w0 w → D w →
            D (world_of (for_each (visit_file os_linesep onload force d')
                           (Os.listdir (fs w) d') w))) as Hkeep.
  { intros d' w Hw Hdw.
    cut (frame w0 (world_of (for_each (visit_file os_linesep onload force d')
                               (Os.listdir (fs w) d') w))
         ∧ D (world_of (for_each (visit_file os_linesep onload force d')
                          (Os.listdir (fs w) d') w))); [by intros [_ ?]|].
    apply (for_each_invariant (λ w, frame w0 w ∧ D w)); [|done].
    intros b' w' _ [Hw' Hdw']. split; [|by apply HD].
    destruct (visit_file_step d' b' w' Hw') as (w'' & -> & Hw''). done. }
  unfold visit_tree.
  apply (for_each_reach (frame w0) D) with (b := d);
    [done|done| |done|apply frame_refl].
  intros w Hw. destruct (Hlist w Hw) as [Hdw|Hin]; [by apply Hkeep|].
  destruct (for_each_reach (frame w0) D (visit_file os_linesep onload force d)
              (Os.listdir (fs w) d) b w) as (w' & -> & _ & Hdw');
    [| | |done|done|done].
  - intros b' w'. apply visit_file_step.
  - intros b' w'. apply HD.
  - done.
Qed.

(** A source file that a step of the loop reads is a source file of the
    tree, and swapping twice gives back its path. *)
Lemma visited_source_swaps_back d' b' w g :
  frame w0 w → Py.endswith EXT_SANESNIPPET b' = true →
  regenerate_snippet os_linesep (Os.join d' b') onload w = Returned (Some g) w →
  swap_extension (swap_extension (Os.join d' b')) = Os.join d' b'.
Proof.
  intros (_ & _ & _ & _ & Hf & _) Hs [_ [text [x Hx]%open_read_Some]]%regenerate_Some.
  assert (Py.endswith EXT_SANESNIPPET (Os.join d' b') = true) as Hs'
    by by apply join_endswith.
  destruct (Hf (Os.join d' b')) as [E _]; [by apply source_not_generated|].
  rewrite E in Hx. by apply (Hswap _ _ Hx).
Qed.

Section Generate.

Variables d b xml : str.
Hypothesis Hdirs : no_generated_dir (fs w0).
Hypothesis Hb : b ∈ Os.listdir (fs w0) d.
Hypothesis Hsrc : Py.endswith EXT_SANESNIPPET b = true.
Hypothesis Hre :
  regenerate_snippet os_linesep (Os.join d b) onload w0
  = Returned (Some xml) w0.
Hypothesis Hparent :
  Os.parent (swap_extension (Os.join d b)) ∈ Os.dirs (fs w0).
Hypothesis Hlock : swap_extension (Os.join d b) ∉ Os.locked (fs w0).
Hypothesis Hreadable :
  force = true ∨ swap_extension (Os.join d b) ∉ Os.unreadable (fs w0).

Lemma source_facts :
  is_Some (Os.files (fs w0) !! Os.join d b)
  ∧ Py.endswith EXT_SANESNIPPET (Os.join d b) = true
  ∧ Py.endswith EXT_SNIPPET_SANE (Os.join d b) = false
  ∧ Py.endswith EXT_SNIPPET_SANE b = false
  ∧ swap_extension (swap_extension (Os.join d b)) = Os.join d b
  ∧ Py.endswith EXT_SNIPPET_SANE (swap_extension (Os.join d b)) = true.
Proof.
  apply elem_of_listdir in Hb as (Hx & _ & _).
  assert (Py.endswith EXT_SANESNIPPET (Os.join d b) = true) as Hs
    by by apply join_endswith.
  assert (Py.endswith EXT_SNIPPET_SANE (Os.join d b) = false) as Hg
    by by apply source_not_generated.
  split_and!; [done..|by apply source_not_generated| |by apply swap_ends_generated].
  destruct Hx as [x Hx]. by apply (Hswap _ _ Hx).
Qed.

Lemma source_regenerated w :
  frame w0 w →
  regenerate_snippet os_linesep (Os.join d b) onload w = Returned (Some xml) w.
Proof.
  intros (_ & _ & _ & _ & Hf & _). destruct source_facts as (_ & _ & Hg & _).
  destruct (Hf _ Hg) as [_ E].
  by destruct (regenerate_transport os_linesep (Os.join d b) onload onload
                 w0 w xml w0 E Hre).
Qed.

Lemma source_exists w :
  frame w0 w → Os.exists_ (fs w) (Os.join d b) = true.
Proof.
  intros Hw. destruct source_facts as (Hx & _ & Hg & _).
  rewrite (frame_exists w0 w _ Hw Hg). unfold Os.exists_.
  by rewrite bool_decide_eq_true_2.
Qed.

Lemma generated_kept d' b' w :
  frame w0 w →
  generated_file os_linesep (swap_extension (Os.join d b)) xml force w →
  generated_file os_linesep (swap_extension (Os.join d b)) xml force
    (world_of (visit_file os_linesep onload force d' b' w)).
Proof.
  intros Hw (content & Hfile & Hcontent & Htrace).
  destruct source_facts as (Hx & Hs & Hg & _ & Hst & Ht).
  destruct (visit_file_cases os_linesep onload force d' b' w)
    as [(evs & -> & Hevs)|[(-> & _)|[(Hg' & Hex & _ & _ & ->)
       |(Hg' & Hs' & g & Hre' & _ & _ & _ & _ & ->)]]]; cbn [world_of].
  - exists content. split_and!; [done..|].
    intros Hf. apply elem_of_app. left. auto.
  - by exists content.
  - assert (swap_extension (Os.join d b) ≠ Os.join d' b') as Hne.
    { intros E. rewrite <-E, Hst in Hex. by rewrite source_exists in Hex. }
    exists content. split_and!.
    + cbn [removed fs Os.files]. by rewrite lookup_delete_ne.
    + destruct Hcontent as [?|[? Hr]]; [by left|]. right. split; [done|].
      rewrite <-Hr. apply open_read_ext.
      * cbn [removed fs Os.files]. by rewrite lookup_delete_ne.
      * cbn [removed fs Os.unreadable]. rewrite elem_of_forget. tauto.
      * cbn [removed fs Os.undecodable]. rewrite elem_of_forget. tauto.
    + intros Hf. apply elem_of_app. left. auto.
  - destruct (decide (swap_extension (Os.join d' b')
                      = swap_extension (Os.join d b))) as [E|E].
    + pose proof (visited_source_swaps_back d' b' w g Hw Hs' Hre') as Hback.
      rewrite E, Hst in Hback. rewrite <-Hback in Hre'.
      rewrite (source_regenerated w Hw) in Hre'. injection Hre' as <-.
      rewrite E. eexists. split_and!.
      * cbn [written fs Os.files]. apply lookup_insert_eq.
      * by left.
      * intros _. apply elem_of_app. right. left.
    + exists content. split_and!.
      * cbn [written fs Os.files]. by rewrite lookup_insert_ne.
      * destruct Hcontent as [?|[? Hr]]; [by left|]. right. split; [done|].
        rewrite <-Hr. apply open_read_ext; [|done|].
        -- cbn [written fs Os.files]. by rewrite lookup_insert_ne.
        -- cbn [written fs Os.undecodable]. rewrite elem_of_forget.
           split; [tauto|]. intros ?. split; [done|]. congruence.
      * intros Hf. apply elem_of_app. left. auto.
Qed.

Lemma generated_made w :
  frame w0 w →
  generated_file os_linesep (swap_extension (Os.join d b)) xml force
    (world_of (visit_file os_linesep onload force d b w)).
Proof.
  intros Hw. destruct source_facts as (Hx & Hs & Hg & Hgb & Hst & Ht).
  pose proof Hw as (Hd & Hl & Hu & Hr & Hf & _).
  set (t := swap_extension (Os.join d b)) in *.
  assert (t ∉ Os.dirs (fs w)) as Hnodir.
  { rewrite Hd. intros Hin. unfold no_generated_dir in Hdirs.
    rewrite Forall_forall in Hdirs. apply Hdirs in Hin. by rewrite Ht in Hin. }
  assert (t ∉ Os.undecodable (fs w)) as Hdecodable.
  { intros Hin%Hu. unfold snippets_decodable in Hdec.
    rewrite Forall_forall in Hdec. apply Hdec in Hin as [_ Hin].
    by rewrite Ht in Hin. }
  assert (generated_file os_linesep t xml force (written os_linesep t xml w))
    as Hwritten.
  { eexists. split_and!.
    - cbn [written fs Os.files]. apply lookup_insert_eq.
    - by left.
    - intros _. apply elem_of_app. right. left. }
  unfold visit_file. rewrite Hgb, Hsrc, (source_regenerated w Hw). fold t.
  unfold write_file.
  rewrite bool_decide_eq_true_2;
    [|split_and!; [by rewrite Hd|done|by rewrite Hl]].
  change (emit (Write t xml) _) with (written os_linesep t xml w).
  destruct force eqn:Hforce; cbn [orb world_of]; [done|].
  destruct (Os.exists_ (fs w) t) eqn:Hex; cbn [negb world_of]; [|done].
  unfold open_read.
  destruct (Os.files (fs w) !! t) as [content|] eqn:Hfile.
  - destruct Hreadable as [?|Hread]; [done|].
    rewrite bool_decide_eq_false_2 by (by intros ?%Hr).
    rewrite bool_decide_eq_false_2 by done.
    unfold Py.eqb. case_bool_decide as Heq; cbn [negb world_of]; [|done].
    exists content. split_and!; [done| |done]. right. split; [done|].
    unfold open_read. rewrite Hfile.
    rewrite bool_decide_eq_false_2 by (by intros ?%Hr).
    by rewrite bool_decide_eq_false_2, Heq by done.
  - exfalso. unfold Os.exists_ in Hex. rewrite Hfile in Hex.
    rewrite bool_decide_eq_false_2 in Hex by (by intros [? ?]).
    by rewrite bool_decide_eq_false_2 in Hex.
Qed.

Lemma source_listed w : frame w0 w → b ∈ Os.listdir (fs w) d.
Proof.
  intros (_ & _ & _ & _ & Hf & _).
  destruct source_facts as (Hx & _ & Hg & _).
  apply elem_of_listdir in Hb as (_ & Hbn & Hne).
  apply elem_of_listdir. split_and!; [|done..].
  by destruct (Hf _ Hg) as [-> _].
Qed.

Lemma pass_generated root :
  d ∈ Os.walk (fs w0) root →
  generated_file os_linesep (swap_extension (Os.join d b)) xml force
    (regenerate_snippets os_linesep root onload force w0).
Proof.
  intros Hd. unfold regenerate_snippets.
  destruct (pass_reach
              (generated_file os_linesep (swap_extension (Os.join d b)) xml force)
              root d b) as (w' & -> & _ & H); [| | |done|done].
  - intros d' b' w. apply generated_kept.
  - apply generated_made.
  - intros w Hw. right. by apply source_listed.
Qed.

End Generate.

Section Remove.

Variable g : str.
Hypothesis Hgen : Py.endswith EXT_SNIPPET_SANE g = true.
Hypothesis Horphan : Os.exists_ (fs w0) (swap_extension g) = false.

Lemma orphan_source_missing w :
  frame w0 w → Os.exists_ (fs w) (swap_extension g) = false.
Proof.
  intros Hw. rewrite (frame_exists w0 w _ Hw); [done|].
  by apply source_not_generated, swap_ends_source.
Qed.

(** A generated file whose swapped path does not exist is not written. *)
Lemma removed_kept d' b' w :
  frame w0 w → Os.files (fs w) !! g = None →
  Os.files (fs (world_of (visit_file os_linesep onload force d' b' w))) !! g
  = None.
Proof.
  intros Hw Hnone.
  destruct (visit_file_cases os_linesep onload force d' b' w)
    as [(evs & -> & Hevs)|[(-> & _)|[(Hg' & Hex & _ & _ & ->)
       |(Hg' & Hs' & x & Hre' & _ & _ & _ & _ & ->)]]]; cbn [world_of].
  - done.
  - done.
  - cbn [removed fs Os.files]. by apply lookup_delete_None; right.
  - cbn [written fs Os.files]. rewrite lookup_insert_ne; [done|]. intros E.
    pose proof (visited_source_swaps_back d' b' w x Hw Hs' Hre') as Hback.
    apply regenerate_Some in Hre' as [_ [text Hread%open_read_Some]].
    rewrite E in Hback.
    pose proof (orphan_source_missing w Hw) as Hex. rewrite Hback in Hex.
    unfold Os.exists_ in Hex.
    by rewrite bool_decide_eq_true_2 in Hex.
Qed.

Lemma removed_made d b w :
  g ∉ Os.locked (fs w0) →
  frame w0 w → Os.join d b = g → Py.endswith EXT_SNIPPET_SANE b = true →
  Os.files (fs (world_of (visit_file os_linesep onload force d b w))) !! g
  = None.
Proof.
  intros Hlock Hw Hj Hb. rewrite visit_file_generated by done. cbv zeta.
  rewrite Hj, orphan_source_missing by done. unfold remove_file.
  destruct (Os.files (fs w) !! g) eqn:E; [|done].
  destruct Hw as (_ & Hl & _). rewrite Hl.
  rewrite bool_decide_eq_false_2 by done.
  cbn [world_of emit fs Os.files]. apply lookup_delete_eq.
Qed.

Lemma pass_removed root :
  (Os.files (fs w0) !! g = None
   ∨ (g ∉ Os.locked (fs w0))
     ∧ ∃ d b, d ∈ Os.walk (fs w0) root ∧ b ∈ Os.listdir (fs w0) d
              ∧ Os.join d b = g ∧ Py.endswith EXT_SNIPPET_SANE b = true) →
  Os.files (fs (regenerate_snippets os_linesep root onload force w0)) !! g
  = None.
Proof.
  unfold regenerate_snippets.
  intros [Hnone|(Hlock & d & b & Hd & Hb & Hj & Hgb)].
  - destruct (pass_keeps (λ w, Os.files (fs w) !! g = None) root)
      as (w' & -> & _ & H); [|done|done].
    intros d' b' w. apply removed_kept.
  - destruct (pass_reach (λ w, Os.files (fs w) !! g = None) root d b)
      as (w' & -> & _ & H); [| | |done|done].
    + intros d' b' w. apply removed_kept.
    + intros w Hw. by apply removed_made.
    + intros w Hw. destruct (Os.files (fs w) !! g) as [x|] eqn:E; [|by left].
      right. apply elem_of_listdir in Hb as (_ & Hbn & Hne).
      apply elem_of_listdir. rewrite Hj.
      split_and!; [by exists x|by rewrite <-Hj|done].
Qed.

End Remove.

End Pass.

(** X18.  A source file that the walk lists, that parses and whose generated
    path lies in a directory of the tree has its document in the generated
    file after the pass, whatever the other files of the tree do: the file
    holds the document as it is written, each [\n] as [os.linesep], or,
    when it was up to date, a text that is read as the document.  This
    holds in a tree where swapping the extension twice gives back the path
    of each source file, no directory has the generated extension and every
    source file and generated file can be decoded, for a generated path
    that the system lets the program write, and read unless [force] is
    set. *)
Theorem pass_generates os_linesep root onload force w d b xml :
  swaps_back (fs w) → no_generated_dir (fs w) → snippets_decodable (fs w) →
  d ∈ Os.walk (fs w) root → b ∈ Os.listdir (fs w) d →
  Py.endswith EXT_SANESNIPPET b = true →
  regenerate_snippet os_linesep (Os.join d b) onload w = Returned (Some xml) w →
  Os.parent (swap_extension (Os.join d b)) ∈ Os.dirs (fs w) →
  swap_extension (Os.join d b) ∉ Os.locked (fs w) →
  force = true ∨ swap_extension (Os.join d b) ∉ Os.unreadable (fs w) →
  ∃ content,
    Os.files (fs (regenerate_snippets os_linesep root onload force w))
      !! swap_extension (Os.join d b) = Some content
    ∧ (content = Py.replace [Py.LF] os_linesep xml
       ∨ universal_newlines content = xml).
Proof.
  intros Hswap Hdirs Hdec Hd Hb Hsrc Hre Hparent Hlock Hreadable.
  destruct (pass_generated os_linesep onload force w Hswap Hdec d b xml
              Hdirs Hb Hsrc Hre Hparent Hlock Hreadable root Hd)
    as (content & Hfile & Hcontent & _).
  exists content. split; [done|].
  destruct Hcontent as [?|[_ Hr]]; [by left|]. right.
  apply open_read_content in Hr as (content' & Hfile' & ?). congruence.
Qed.

(** X19.  A generated file that the walk lists, whose swapped path does
    not exist and that the system lets the program remove is gone after the
    pass, in a tree where swapping the extension twice gives back the path
    of each source file and every source file and generated file can be
    decoded. *)
Theorem pass_removes_orphan os_linesep root onload force w d b :
  swaps_back (fs w) → snippets_decodable (fs w) →
  d ∈ Os.walk (fs w) root → b ∈ Os.listdir (fs w) d →
  Py.endswith EXT_SNIPPET_SANE b = true →
  Os.exists_ (fs w) (swap_extension (Os.join d b)) = false →
  Os.join d b ∉ Os.locked (fs w) →
  Os.files (fs (regenerate_snippets os_linesep root onload force w))
    !! Os.join d b = None.
Proof.
  intros Hswap Hdec Hd Hb Hgen Horphan Hlock.
  apply (pass_removed os_linesep onload force w Hswap Hdec (Os.join d b));
    [by apply join_endswith|done|].
  right. split; [done|]. by exists d, b.
Qed.

Lemma pass_generates_witness :
  ∃ content,
    Os.files (fs (regenerate_snippets [Py.CR; Py.LF] (py "pkg") false false
                    sample_world))
      !! swap_extension (Os.join (py "pkg") (py "hello.sane-snippet"))
    = Some content
    ∧ (content = Py.replace [Py.LF] [Py.CR; Py.LF] hello_xml
       ∨ universal_newlines content = hello_xml).
Proof.
  apply (pass_generates [Py.CR; Py.LF] (py "pkg") false false sample_world
           (py "pkg") (py "hello.sane-snippet") hello_xml).
  - apply (bool_decide_unpack _). vm_compute. exact I.
  - apply (bool_decide_unpack _). vm_compute. exact I.
  - apply (bool_decide_unpack _). vm_compute. exact I.
  - apply (bool_decide_unpack _). vm_compute. exact I.
  - apply (bool_decide_unpack _). vm_compute. exact I.
  - reflexivity.
  - vm_compute. reflexivity.
  - apply (bool_decide_unpack _). vm_compute. exact I.
  - apply (bool_decide_unpack _). vm_compute. exact I.
  - right. apply (bool_decide_unpack _). vm_compute. exact I.
Defined.

Lemma pass_removes_orphan_witness :
  Os.files (fs (regenerate_snippets [Py.LF] (py "pkg") false false sample_world))
    !! Os.join (py "pkg/sub") (py "old.sane.sublime-snippet")
  = None.
Proof.
  apply (pass_removes_orphan [Py.LF] (py "pkg") false false sample_world
           (py "pkg/sub") (py "old.sane.sublime-snippet")).
  - apply (bool_decide_unpack _). vm_compute. exact I.
  - apply (bool_decide_unpack _). vm_compute. exact I.
  - apply (bool_decide_unpack _). vm_compute. exact I.
  - apply (bool_decide_unpack _). vm_compute. exact I.
  - reflexivity.
  - vm_compute. reflexivity.
  - apply (bool_decide_unpack _). vm_compute. exact I.
Defined.

(** ** A second pass *)

Lemma reported_refl w : reported w w.
Proof. exists []. split; [by destruct w; rewrite app_nil_r|done]. Qed.

Lemma reported_trans w1 w2 w3 : reported w1 w2 → reported w2 w3 → reported w1 w3.
Proof.
  intros (evs1 & -> & He1) (evs2 & -> & He2). exists (evs1 ++ evs2).
  cbn [fs trace]. split; [by rewrite app_assoc|]. by apply Forall_app.
Qed.

Lemma reported_fs w w' : reported w w' → fs w' = fs w.
Proof. by intros (evs & -> & _). Qed.

Lemma walk_dirs fs fs' root :
  Os.dirs fs = Os.dirs fs' → Os.walk fs root = Os.walk fs' root.
Proof.
  intros E. unfold Os.walk, Os.isdir. rewrite E.
  destruct (bool_decide _); [|done].
  generalize (length (Os.dirs fs')). intros n. revert root.
  induction n as [|n IH]; intros root; [done|]. cbn [Os.walk_from].
  unfold Os.subdirs. rewrite E. f_equal.
  induction (filter _ (Os.dirs fs')) as [|x l IHl]; [done|].
  cbn [flat_map]. by rewrite IH, IHl.
Qed.

Lemma open_read_fs w w' p : fs w = fs w' → open_read w p = open_read w' p.
Proof. unfold open_read. by intros ->. Qed.

(** *** Texts without carriage return *)

Lemma universal_newlines_no_CR s : Py.CR ∉ universal_newlines s.
Proof.
  assert (Py.CR ≠ Py.LF) as Hne by (by compute).
  cut ((Py.CR ∉ universal_newlines s)
       ∧ ∀ c, Py.CR ∉ universal_newlines (c :: s)); [by intros [? _]|].
  induction s as [|d s [IH1 IH2]].
  - split; [by intros ?%elem_of_nil|]. intros c. cbn [universal_newlines].
    destruct (N.eqb_spec c Py.CR) as [->|Hc].
    + by intros [?| ?%elem_of_nil]%elem_of_cons.
    + by intros [?| ?%elem_of_nil]%elem_of_cons.
  - split; [apply IH2|]. intros c.
    change (universal_newlines (c :: d :: s))
      with (if c =? Py.CR
            then Py.LF :: (if d =? Py.LF then universal_newlines s
                           else universal_newlines (d :: s))
            else c :: universal_newlines (d :: s)).
    destruct (N.eqb_spec c Py.CR) as [->|Hc].
    + destruct (d =? Py.LF); intros [?|?]%elem_of_cons; try done.
      by apply (IH2 d).
    + intros [?|?]%elem_of_cons; [done|]. by apply (IH2 d).
Qed.

(** A text without carriage return is read as it was written. *)
Lemma universal_newlines_replace os_linesep g :
  newline os_linesep → Py.CR ∉ g →
  universal_newlines (Py.replace [Py.LF] os_linesep g) = g.
Proof.
  intros Hnl Hg. rewrite replace_single.
  cut (universal_newlines
         (flat_map (λ c, if Py.LF =? c then os_linesep else [c]) g) = g
       ∧ (os_linesep = [Py.CR] →
          head (flat_map (λ c, if Py.LF =? c then os_linesep else [c]) g)
          ≠ Some Py.LF)); [by intros [? _]|].
  induction g as [|c g IH]; [done|].
  apply not_elem_of_cons in Hg as [Hc Hg]. destruct (IH Hg) as [IH1 IH2].
  cbn [flat_map].
  destruct (N.eqb_spec Py.LF c) as [<-|Hlf].
  - split; [|by intros ->].
    rewrite universal_newlines_newline by done. by rewrite IH1.
  - split; [|cbn [app head]; congruence].
    rewrite universal_newlines_app, IH1; [done|].
    by intros [?| ?%elem_of_nil]%elem_of_cons.
Qed.

Lemma lstrip_elem x s : x ∈ Py.lstrip s → x ∈ s.
Proof.
  intros H. destruct (lstrip_suffix s) as [k E]. rewrite E.
  apply elem_of_app. by right.
Qed.

Lemma strip_elem x s : x ∈ Py.strip s → x ∈ s.
Proof.
  unfold Py.strip, Py.rstrip. rewrite elem_of_reverse.
  intros H%lstrip_elem. rewrite elem_of_reverse in H. by apply lstrip_elem.
Qed.

Lemma before_elem x a r : x ∈ Os.before a r → x ∈ r.
Proof.
  induction r as [|c r IH]; [done|]. cbn [Os.before].
  destruct (c =? a); [by intros ?%elem_of_nil|].
  intros [->|?]%elem_of_cons; [left|right; auto].
Qed.

Lemma take_elem {A} (x : A) n l : x ∈ take n l → x ∈ l.
Proof.
  intros H. rewrite <-(take_drop n l). apply elem_of_app. by left.
Qed.

Lemma name_elem x path :
  x ∈ (Os.splitext (Os.basename path)).1 → x ∈ path.
Proof.
  assert (∀ y, y ∈ Os.basename path → y ∈ path) as Hb.
  { intros y. unfold Os.basename. rewrite elem_of_reverse.
    intros H%before_elem. by rewrite elem_of_reverse in H. }
  unfold Os.splitext. destruct (_ && _); cbn [fst]; [|by apply Hb].
  intros H%take_elem. by apply Hb.
Qed.

Lemma last_value_no_CR key d kvs :
  Py.CR ∉ d → Forall (λ kv : str * str, Py.CR ∉ kv.2) kvs →
  Py.CR ∉ last_value key d kvs.
Proof.
  intros Hd H. revert d Hd. induction H as [|kv kvs Hkv Hkvs IH]; intros d Hd;
    [done|].
  cbn [last_value foldl]. apply IH. case_bool_decide; [|done].
  intros ?%strip_elem. done.
Qed.

Lemma xml_char_no_CR c : c ≠ Py.CR → Py.CR ∉ xml_char c.
Proof.
  intros Hc.
  destruct (xml_char_cases c)
    as [[-> ->]|[[-> ->]|[[-> ->]|[(?&?&?&?& ->)|[? ->]]]]];
    try by apply (bool_decide_unpack _).
  - by intros [?| ?%elem_of_nil]%elem_of_cons.
  - intros [E|[E|Hin]%elem_of_cons]%elem_of_cons; [done..|].
    apply elem_of_app in Hin as [Hin|[E| E%elem_of_nil]%elem_of_cons]; [|done..].
    pose proof (digits_range (N.to_uint c)) as Hd.
    rewrite Forall_forall in Hd. apply Hd in Hin. unfold Py.CR in Hin. lia.
Qed.

Lemma xml_node_no_CR tag x : Py.CR ∉ tag → Py.CR ∉ x → Py.CR ∉ xml_node tag x.
Proof.
  intros Htag Hx.
  assert (Py.CR ∉ xml_text x) as Ht.
  { unfold xml_text. induction x as [|c x IH]; [by intros ?%elem_of_nil|].
    apply not_elem_of_cons in Hx as [Hc Hx]. cbn [flat_map].
    rewrite elem_of_app. intros [H|H]; [by apply xml_char_no_CR in H|].
    by apply IH. }
  unfold xml_node. destruct x as [|c x]; rewrite !not_elem_of_app;
    split_and!; first [done | by apply (bool_decide_unpack _)].
Qed.

(** The document of a source file whose name holds no carriage return
    holds none. *)
Lemma regenerate_no_CR os_linesep path onload w g :
  regenerate_snippet os_linesep path onload w = Returned (Some g) w →
  Py.CR ∉ path → Py.CR ∉ g.
Proof.
  intros E Hpath. unfold regenerate_snippet in E.
  destruct (open_read w path) as [| |text] eqn:Hr; [done..|].
  assert (Py.CR ∉ text) as Htext.
  { apply open_read_content in Hr as (content & _ & <-).
    apply universal_newlines_no_CR. }
  destruct (parse_snippet _ _ _ _) as [r|[msg]] eqn:Hp; [|by destruct onload].
  pose proof Hp as (h & ls & c & kvs & Hg & Hl & Hkvs & Er)%parse_snippet_Return.
  destruct (known_keys_lookup kvs r _ ls c path Er) as (Hd & Ht & Hs).
  destruct (other_keys_lookup kvs path
              (Os.splitext (Os.basename path)).1 ls c Hkvs) as [Hc _].
  rewrite <-Er in Hc.
  rewrite (snippet_to_xml_fields _ _ _ _ _ Hd Ht Hs Hc) in E.
  injection E as <-. rewrite write_snippet_element.
  assert (Forall (λ kv : str * str, Py.CR ∉ kv.2) kvs) as Hv.
  { eapply Forall_impl; [exact Hkvs|]. intros kv (_ & _ & ? & _).
    by apply inline_CR. }
  assert (Py.CR ∉ c) as Hcc.
  { apply template_groups_Some in Hg as (nl1 & nl2 & _ & _ & _ & ->).
    intros H. apply Htext. rewrite !elem_of_app. auto 10. }
  rewrite !not_elem_of_app. split_and!.
  - by apply (bool_decide_unpack _).
  - apply xml_node_no_CR; [by apply (bool_decide_unpack _)|].
    apply last_value_no_CR; [|done]. by intros ?%name_elem.
  - apply xml_node_no_CR; [by apply (bool_decide_unpack _)|].
    apply last_value_no_CR; [|done]. by intros ?%elem_of_nil.
  - apply xml_node_no_CR; [by apply (bool_decide_unpack _)|].
    apply last_value_no_CR; [|done]. by intros ?%elem_of_nil.
  - by apply xml_node_no_CR; [apply (bool_decide_unpack _)|].
  - by apply (bool_decide_unpack _).
Qed.

(** After a pass, no step of a further pass without [force] changes a
    file. *)
Lemma settled_visit os_linesep root onload force onload' w d b w' :
  swaps_back (fs w) → no_generated_dir (fs w) → snippets_decodable (fs w) →
  generated_readable (fs w) → paths_without_CR (fs w) → newline os_linesep →
  let w1 := regenerate_snippets os_linesep root onload force w in
  reported w1 w' → d ∈ Os.walk (fs w1) root → b ∈ Os.listdir (fs w') d →
  ∃ w'', visit_file os_linesep onload' false d b w' = Returned tt w''
         ∧ reported w' w''.
Proof.
  intros Hswap Hdirs Hdec Hreadable Hcr Hnl w1 Hw' Hd Hb.
  pose proof (regenerate_snippets_frame os_linesep root onload force w) as Hw1.
  fold w1 in Hw1. pose proof Hw1 as (Hd1 & Hl1 & _ & _ & Hf1 & _).
  pose proof (reported_fs _ _ Hw') as Hfs.
  rewrite (walk_dirs _ (fs w) root Hd1) in Hd.
  apply elem_of_listdir in Hb as (Hx & Hbn & Hne).
  destruct (visit_file_cases os_linesep onload' false d b w')
    as [(evs & -> & Hevs)|[(Hraise & _)|[(Hg & Hex & Hin & Hlock & _)
       |(Hg & Hs & g & Hre & Hpar & _ & Hlock & Hwhy & _)]]].
  - eexists. split; [done|]. exists evs. split; [done|].
    eapply Forall_impl; [done|]. apply reports_is_report.
  - exfalso.
    destruct (visit_file_returns os_linesep onload' false d b w') as [w'' E].
    { rewrite Hfs. by eapply frame_decodable. }
    by rewrite E in Hraise.
  - exfalso. rewrite Hfs in Hex, Hin, Hlock. rewrite Hl1 in Hlock.
    assert (Py.endswith EXT_SNIPPET_SANE (Os.join d b) = true) as Hgj
      by by apply join_endswith.
    rewrite (frame_exists w w1 _ Hw1) in Hex
      by by apply source_not_generated, swap_ends_source.
    assert (Os.files (fs w1) !! Os.join d b = None) as Hnone.
    { apply (pass_removed os_linesep onload force w Hswap Hdec
               (Os.join d b) Hgj Hex).
      destruct (Os.files (fs w) !! Os.join d b) as [x|] eqn:E; [|by left].
      right. split; [done|]. exists d, b. split_and!; [done| |done..].
      apply elem_of_listdir. split_and!; [by exists x|done..]. }
    rewrite Hnone in Hin. by destruct Hin.
  - exfalso.
    assert (Py.endswith EXT_SNIPPET_SANE (Os.join d b) = false) as Hgj
      by by apply source_not_generated, join_endswith.
    destruct (Hf1 _ Hgj) as [Hsame Hsame'].
    rewrite Hfs in Hx, Hpar, Hlock, Hwhy.
    rewrite Hsame in Hx. rewrite Hd1 in Hpar. rewrite Hl1 in Hlock.
    assert (regenerate_snippet os_linesep (Os.join d b) onload w
            = Returned (Some g) w) as Hre0.
    { eapply (regenerate_transport os_linesep (Os.join d b) onload' onload w' w);
        [|done].
      by rewrite <-Hsame', (open_read_fs w' w1). }
    assert (Py.CR ∉ g) as Hg0.
    { apply (regenerate_no_CR _ _ _ _ _ Hre0).
      destruct Hx as [x Hx]. by apply (Hcr _ _ Hx). }
    destruct (pass_generated os_linesep onload force w Hswap Hdec d b g Hdirs)
      with (root := root) as (content & Hfile & Hcontent & _);
      [| | | | | |done|].
    + by apply elem_of_listdir.
    + done.
    + done.
    + done.
    + done.
    + right. intros Hin. unfold generated_readable in Hreadable.
      rewrite Forall_forall in Hreadable. apply Hreadable in Hin.
      by rewrite swapped_source_generated in Hin.
    + fold w1 in Hfile, Hcontent.
      destruct Hwhy as [?|[Hex|(read & Hr & Hne')]]; [done| |].
      * unfold Os.exists_ in Hex. rewrite Hfile in Hex.
        by rewrite bool_decide_eq_true_2 in Hex by eauto.
      * rewrite (open_read_fs w' w1) in Hr by done.
        destruct Hcontent as [->|[_ Hr']]; [|congruence].
        apply open_read_content in Hr as (content & Hfile' & <-).
        rewrite Hfile in Hfile'. injection Hfile' as E'. rewrite <-E' in Hne'.
        exact (Hne' (universal_newlines_replace os_linesep g Hnl Hg0)).
Qed.

(** X20.  A pass without [force] that follows a pass over the same root
    changes no file: it writes nothing, removes nothing, no exception
    leaves it, and it only repeats messages.  This holds where
    [os.linesep] is [\n], [\r\n] or [\r], in a tree where swapping the
    extension twice gives back the path of each source file, no directory
    has the generated extension, every source file and generated file can
    be decoded, every generated file can be opened for reading, and no path
    of a file holds a carriage return. *)
Theorem second_pass_changes_nothing os_linesep root onload force onload' w :
  swaps_back (fs w) → no_generated_dir (fs w) → snippets_decodable (fs w) →
  generated_readable (fs w) → paths_without_CR (fs w) → newline os_linesep →
  let w1 := regenerate_snippets os_linesep root onload force w in
  let w2 := regenerate_snippets os_linesep root onload' false w1 in
  fs w2 = fs w1
  ∧ ∃ evs, trace w2 = trace w1 ++ evs ∧ Forall is_report evs.
Proof.
  intros Hswap Hdirs Hdec Hreadable Hcr Hnl w1 w2.
  assert (reported w1 w2) as (evs & E & Hevs).
  { subst w2. unfold regenerate_snippets at 1. unfold visit_tree.
    destruct (for_each_returns (reported w1)
                (λ root0 w0,
                   for_each (visit_file os_linesep onload' false root0)
                     (Os.listdir (fs w0) root0) w0)
                (Os.walk (fs w1) root) w1) as (w' & -> & Hw');
      [|apply reported_refl|done].
    intros d w' Hd Hw'.
    destruct (for_each_returns (λ w'', reported w1 w'' ∧ reported w' w'')
                (visit_file os_linesep onload' false d)
                (Os.listdir (fs w') d) w') as (w'' & -> & Hw'' & _);
      [|split; [done|apply reported_refl]|by exists w''].
    intros b w'' Hb [H1 H2].
    destruct (settled_visit os_linesep root onload force onload' w d b w'')
      as (w3 & -> & H3); [done..| |].
    { by rewrite (reported_fs _ _ H2). }
    exists w3. split; [done|]. split; by eapply reported_trans. }
  rewrite E. by split; [|exists evs].
Qed.

Lemma second_pass_changes_nothing_witness :
  let w1 := regenerate_snippets [Py.CR; Py.LF] (py "pkg") false false
              sample_world in
  let w2 := regenerate_snippets [Py.CR; Py.LF] (py "pkg") false false w1 in
  fs w2 = fs w1
  ∧ ∃ evs, trace w2 = trace w1 ++ evs ∧ Forall is_report evs.
Proof.
  apply (second_pass_changes_nothing [Py.CR; Py.LF] (py "pkg") false false
           false sample_world).
  - apply (bool_decide_unpack _). vm_compute. exact I.
  - apply (bool_decide_unpack _). vm_compute. exact I.
  - apply (bool_decide_unpack _). vm_compute. exact I.
  - apply (bool_decide_unpack _). vm_compute. exact I.
  - apply (bool_decide_unpack _). vm_compute. exact I.
  - unfold newline. auto.
Defined.

(** ** Reports and files *)

Lemma visit_file_fs os_linesep onload onload' force d b w w' :
  fs w = fs w' →
  same_files (visit_file os_linesep onload force d b w)
    (visit_file os_linesep onload' force d b w').
Proof.
  destruct w as [f tr], w' as [f' tr']. cbn [fs]. intros <-.
  unfold visit_file, regenerate_snippet, open_read, remove_file, write_file,
    emit. cbn [fs trace].
  destruct (Py.endswith EXT_SNIPPET_SANE b).
  { destruct (negb _); [|done].
    destruct (Os.files f !! Os.join d b); [|done]. by case_bool_decide. }
  destruct (Py.endswith EXT_SANESNIPPET b); [|done].
  destruct (Os.files f !! Os.join d b) as [text|]; [|done].
  case_bool_decide; [done|]. case_bool_decide; [done|].
  destruct (parse_snippet _ _ _ _) as [r|[msg]];
    [|by destruct onload, onload'].
  destruct (snippet_to_xml r) as [x|]; [|done]. cbn [fs trace].
  destruct (force || negb _).
  { by case_bool_decide. }
  destruct (Os.files f !! swap_extension (Os.join d b)); [|done].
  case_bool_decide; [done|]. case_bool_decide; [done|].
  destruct (negb _); [|done]. by case_bool_decide.
Qed.

Lemma for_each_related {B} (f f' : B → world → outcome unit) l w w' :
  (∀ x w w', fs w = fs w' → same_files (f x w) (f' x w')) → fs w = fs w' →
  same_files (for_each f l w) (for_each f' l w').
Proof.
  intros Hf. revert w w'. induction l as [|x l IH]; intros w w' Hw; [done|].
  cbn [for_each]. specialize (Hf x w w' Hw).
  destruct (f x w) as [[] a|a], (f' x w') as [[] a'|a']; try done.
  by apply IH.
Qed.

(** X21.  The files that a pass leaves depend on the files it finds, on the
    root and on [force]: neither the trace nor [onload], which selects how a
    failure is reported, has an influence on them. *)
Theorem pass_files_independent_of_reports
    os_linesep root onload onload' force w w' :
  fs w = fs w' →
  fs (regenerate_snippets os_linesep root onload force w)
  = fs (regenerate_snippets os_linesep root onload' force w').
Proof.
  intros E. unfold regenerate_snippets.
  assert (same_files (visit_tree os_linesep root onload force w)
            (visit_tree os_linesep root onload' force w')) as H.
  { unfold visit_tree. rewrite E. apply for_each_related; [|done].
    intros d a a' Ha. rewrite Ha. apply for_each_related; [|done].
    intros b a1 a1' Ha1. by apply visit_file_fs. }
  by destruct (visit_tree os_linesep root onload force w) as [[] a|a],
    (visit_tree os_linesep root onload' force w') as [[] a'|a'].
Qed.

Lemma pass_files_independent_of_reports_witness :
  fs (regenerate_snippets [Py.LF] (py "pkg") true false sample_world)
  = fs (regenerate_snippets [Py.LF] (py "pkg") false false
          (emit (Print (py "loaded")) sample_world)).
Proof.
  apply (pass_files_independent_of_reports [Py.LF] (py "pkg") true false false
           sample_world (emit (Print (py "loaded")) sample_world)).
  reflexivity.
Defined.

(** ** The command and the save hook *)

(** X22.  With [force], the command writes the document of every source
    file that the walk lists, that parses and whose generated path lies in
    a directory of the tree, whether the generated file is up to date or
    not, and the file then holds the document with each [\n] as
    [os.linesep].  This holds in a tree where swapping the extension twice
    gives back the path of each source file, no directory has the
    generated extension and every source file and generated file can be
    decoded, for a generated path that the system lets the program
    write. *)
Theorem forced_run_rewrites os_linesep packages_path w d b xml :
  swaps_back (fs w) → no_generated_dir (fs w) → snippets_decodable (fs w) →
  d ∈ Os.walk (fs w) packages_path → b ∈ Os.listdir (fs w) d →
  Py.endswith EXT_SANESNIPPET b = true →
  regenerate_snippet os_linesep (Os.join d b) false w = Returned (Some xml) w →
  Os.parent (swap_extension (Os.join d b)) ∈ Os.dirs (fs w) →
  swap_extension (Os.join d b) ∉ Os.locked (fs w) →
  Write (swap_extension (Os.join d b)) xml
  ∈ trace (run os_linesep packages_path true w)
  ∧ Os.files (fs (run os_linesep packages_path true w))
      !! swap_extension (Os.join d b)
    = Some (Py.replace [Py.LF] os_linesep xml).
Proof.
  intros Hswap Hdirs Hdec Hd Hb Hsrc Hre Hparent Hlock.
  destruct (pass_generated os_linesep false true w Hswap Hdec d b xml
              Hdirs Hb Hsrc Hre Hparent Hlock (or_introl eq_refl)
              packages_path Hd)
    as (content & Hfile & Hcontent & Htrace).
  split; [by apply Htrace|].
  by destruct Hcontent as [->|[? _]].
Qed.

Lemma forced_run_rewrites_witness :
  Write (swap_extension (Os.join (py "pkg") (py "hello.sane-snippet"))) hello_xml
  ∈ trace (run [Py.LF] (py "pkg") true synced_world)
  ∧ Os.files (fs (run [Py.LF] (py "pkg") true synced_world))
      !! swap_extension (Os.join (py "pkg") (py "hello.sane-snippet"))
    = Some (Py.replace [Py.LF] [Py.LF] hello_xml).
Proof.
  apply (forced_run_rewrites [Py.LF] (py "pkg") synced_world
           (py "pkg") (py "hello.sane-snippet") hello_xml).
  - apply (bool_decide_unpack _). vm_compute. exact I.
  - apply (bool_decide_unpack _). vm_compute. exact I.
  - apply (bool_decide_unpack _). vm_compute. exact I.
  - apply (bool_decide_unpack _). vm_compute. exact I.
  - apply (bool_decide_unpack _). vm_compute. exact I.
  - reflexivity.
  - vm_compute. reflexivity.
  - apply (bool_decide_unpack _). vm_compute. exact I.
  - apply (bool_decide_unpack _). vm_compute. exact I.
Defined.

Lemma last_not_sep d :
  d ≠ [] → Py.endswith [Os.sep] d = false →
  ∃ d' x, d = d' ++ [x] ∧ x ≠ Os.sep.
Proof.
  intros Hd He. destruct (exists_last Hd) as (d' & x & ->).
  exists d', x. split; [done|]. intros ->.
  by rewrite endswith_app in He.
Qed.

Lemma dirname_file d b :
  d ≠ [] → Py.endswith [Os.sep] d = false → Os.sep ∉ b →
  Os.dirname (d ++ Os.sep :: b) = d.
Proof.
  intros Hd He Hb. destruct (last_not_sep d Hd He) as (d' & x & -> & Hx).
  unfold Os.dirname. rewrite basename_app by done.
  replace (length ((d' ++ [x]) ++ Os.sep :: b) - length b)%nat
    with (length ((d' ++ [x]) ++ [Os.sep])) by (rewrite !length_app; simpl; lia).
  replace ((d' ++ [x]) ++ Os.sep :: b) with (((d' ++ [x]) ++ [Os.sep]) ++ b)
    by by rewrite <-!app_assoc.
  rewrite take_app_length.
  rewrite !forallb_app. cbn [forallb].
  destruct (N.eqb_spec x Os.sep) as [|_]; [done|].
  rewrite andb_false_r, andb_false_l.
  rewrite !reverse_app. cbn [reverse app Os.after_seps].
  rewrite !reverse_singleton. cbn [app Os.after_seps].
  rewrite N.eqb_refl.
  destruct (N.eqb_spec x Os.sep) as [|_]; [done|].
  by rewrite reverse_cons, reverse_involutive.
Qed.

Lemma join_file d b :
  d ≠ [] → Py.endswith [Os.sep] d = false → Os.sep ∉ b →
  Os.join d b = d ++ Os.sep :: b.
Proof.
  intros Hd He Hb. unfold Os.join.
  destruct (Py.startswith [Os.sep] b) eqn:E.
  { apply startswith_inv in E as [t ->]. destruct Hb. left. }
  by rewrite bool_decide_eq_false_2, He by done.
Qed.

Lemma parent_file d b : Os.sep ∉ b → Os.parent (d ++ Os.sep :: b) = d.
Proof.
  intros Hb. unfold Os.parent. rewrite basename_app by done.
  replace (length (d ++ Os.sep :: b) - S (length b))%nat with (length d)
    by (rewrite length_app; simpl; lia).
  apply take_app_length.
Qed.

Lemma sep_not_in_extension ext stem :
  Os.sep ∉ stem → bool_decide (Os.sep ∈ ext) = false → Os.sep ∉ stem ++ ext.
Proof.
  intros Hs He%bool_decide_eq_false. rewrite elem_of_app. by intros [?|?].
Qed.

(** The walk from a directory of the tree starts with it. *)
Lemma walk_root fs d : d ≠ [] → d ∈ Os.dirs fs → d ∈ Os.walk fs d.
Proof.
  intros Hne Hd. unfold Os.walk, Os.isdir.
  rewrite bool_decide_eq_true_2 by (split; [done|by left]).
  destruct (length (Os.dirs fs)); left.
Qed.

(** X23.  Saving the source file [stem.sane-snippet] of the directory [d]
    leaves its document in [stem.sane.sublime-snippet] of the same
    directory: the file holds the document as it is written, each [\n] as
    [os.linesep], or, when it was up to date, a text that is read as the
    document.  This holds when the file parses, no [.sane] occurs in the
    path before the extension, the system lets the program read and write
    the generated file, and the tree is one where swapping twice gives back
    the path of each source file, no directory has the generated extension
    and every source file and generated file can be decoded. *)
Theorem on_post_save_regenerates os_linesep d stem xml w :
  d ≠ [] → Py.endswith [Os.sep] d = false → Os.sep ∉ stem →
  contains (py ".sane") (d ++ Os.sep :: stem) = false →
  d ∈ Os.dirs (fs w) → swaps_back (fs w) → no_generated_dir (fs w) →
  snippets_decodable (fs w) →
  regenerate_snippet os_linesep (d ++ Os.sep :: stem ++ EXT_SANESNIPPET)
    false w = Returned (Some xml) w →
  d ++ Os.sep :: stem ++ EXT_SNIPPET_SANE ∉ Os.locked (fs w) →
  d ++ Os.sep :: stem ++ EXT_SNIPPET_SANE ∉ Os.unreadable (fs w) →
  ∃ content,
    Os.files (fs (on_post_save os_linesep
                    (d ++ Os.sep :: stem ++ EXT_SANESNIPPET) w))
      !! (d ++ Os.sep :: stem ++ EXT_SNIPPET_SANE) = Some content
    ∧ (content = Py.replace [Py.LF] os_linesep xml
       ∨ universal_newlines content = xml).
Proof.
  intros Hd He Hstem Hsane Hdir Hswap Hdirs Hdec Hre Hlock Hreadable.
  assert (Os.sep ∉ stem ++ EXT_SANESNIPPET) as Hb
    by by apply sep_not_in_extension.
  assert (Os.sep ∉ stem ++ EXT_SNIPPET_SANE) as Hb'
    by by apply sep_not_in_extension.
  set (fn := d ++ Os.sep :: stem ++ EXT_SANESNIPPET) in *.
  assert (fn = (d ++ Os.sep :: stem) ++ EXT_SANESNIPPET) as Hfn
    by (subst fn; by rewrite <-app_assoc).
  assert (Py.endswith (py ".sane-snippet") fn = true) as Hend
    by (rewrite Hfn; apply endswith_app).
  assert (Os.dirname fn = d) as Hdn by by apply dirname_file.
  assert (fn = Os.join d (stem ++ EXT_SANESNIPPET)) as Hj
    by (symmetry; by apply join_file).
  assert (swap_extension fn = d ++ Os.sep :: stem ++ EXT_SNIPPET_SANE) as Ht.
  { rewrite Hfn, swap_extension_source; [by rewrite <-app_assoc|].
    apply at_end_only; [apply straddle_source|done]. }
  unfold on_post_save. rewrite Hend, Hdn. rewrite <-Ht in Hlock, Hreadable |- *.
  clear Hfn Hend Hdn.
  rewrite Hj in Hre, Ht, Hlock, Hreadable |- *. clearbody fn.
  destruct (pass_generated os_linesep false false w Hswap Hdec d
              (stem ++ EXT_SANESNIPPET) xml Hdirs) with (root := d)
    as (content & Hfile & Hcontent & _); [| |done| |done| | |].
  - apply elem_of_listdir. split_and!.
    + by apply regenerate_Some in Hre as [_ [text ?%open_read_Some]].
    + by apply basename_join.
    + intros E. apply (f_equal length) in E. rewrite length_app in E.
      change (length EXT_SANESNIPPET) with 13%nat in E. simpl in E. lia.
  - apply endswith_app.
  - by rewrite Ht, parent_file.
  - by right.
  - by apply walk_root.
  - exists content. split; [done|].
    destruct Hcontent as [?|[_ Hr]]; [by left|]. right.
    apply open_read_content in Hr as (content' & Hfile' & ?). congruence.
Qed.

Lemma on_post_save_regenerates_witness :
  ∃ content,
    Os.files (fs (on_post_save [Py.CR; Py.LF]
                    (py "pkg" ++ Os.sep :: py "hello" ++ EXT_SANESNIPPET)
                    sample_world))
      !! (py "pkg" ++ Os.sep :: py "hello" ++ EXT_SNIPPET_SANE) = Some content
    ∧ (content = Py.replace [Py.LF] [Py.CR; Py.LF] hello_xml
       ∨ universal_newlines content = hello_xml).
Proof.
  apply (on_post_save_regenerates [Py.CR; Py.LF] (py "pkg") (py "hello")
           hello_xml sample_world).
  - discriminate.
  - reflexivity.
  - apply (bool_decide_unpack _). vm_compute. exact I.
  - reflexivity.
  - apply (bool_decide_unpack _). vm_compute. exact I.
  - apply (bool_decide_unpack _). vm_compute. exact I.
  - apply (bool_decide_unpack _). vm_compute. exact I.
  - apply (bool_decide_unpack _). vm_compute. exact I.
  - vm_compute. reflexivity.
  - apply (bool_decide_unpack _). vm_compute. exact I.
  - apply (bool_decide_unpack _). vm_compute. exact I.
Defined.

(** ** Source files that do not parse *)

Lemma frame_trace w0 w e : frame w0 w → e ∈ trace w0 → e ∈ trace w.
Proof.
  intros (_ & _ & _ & _ & _ & evs & -> & _) H. apply elem_of_app. by left.
Qed.

Lemma read_file_Reads w path text :
  read_file w path = Some text ↔ open_read w path = Reads text.
Proof.
  unfold read_file. destruct (open_read w path); split; congruence.
Qed.

Lemma regenerate_raises os_linesep path onload w text msg :
  read_file w path = Some text →
  parse_snippet os_linesep path (Os.splitext (Os.basename path)).1 text
  = Raise (SyntaxError msg) →
  regenerate_snippet os_linesep path onload w
  = Returned None (emit (failure_report onload msg path) w).
Proof.
  intros Hread%read_file_Reads Hparse. unfold regenerate_snippet.
  rewrite Hread, Hparse.
  apply raised_message_nonempty in Hparse. destruct msg as [|a msg]; [done|].
  unfold failure_report. by destruct onload.
Qed.

Section Broken.

Variable os_linesep : str.
Variables onload force : bool.
Variable w0 : world.
Variables d b text msg : str.
Hypothesis Hb : b ∈ Os.listdir (fs w0) d.
Hypothesis Hsrc : Py.endswith EXT_SANESNIPPET b = true.
Hypothesis Hread : read_file w0 (Os.join d b) = Some text.
Hypothesis Hparse :
  parse_snippet os_linesep (Os.join d b)
    (Os.splitext (Os.basename (Os.join d b))).1 text
  = Raise (SyntaxError msg).

Lemma broken_source_read w :
  frame w0 w → read_file w (Os.join d b) = Some text.
Proof.
  intros (_ & _ & _ & _ & Hf & _). unfold read_file in *.
  destruct (Hf (Os.join d b)) as [_ ->]; [|done].
  by apply source_not_generated, join_endswith.
Qed.

Lemma broken_reported w :
  frame w0 w →
  failure_report onload msg (Os.join d b)
  ∈ trace (world_of (visit_file os_linesep onload force d b w)).
Proof.
  intros Hw. unfold visit_file.
  rewrite (source_not_generated b Hsrc), Hsrc.
  rewrite (regenerate_raises _ _ _ _ _ _ (broken_source_read w Hw) Hparse).
  cbn [world_of emit trace]. apply elem_of_app. right. left.
Qed.

Lemma broken_listed w : frame w0 w → b ∈ Os.listdir (fs w) d.
Proof.
  intros Hw. apply elem_of_listdir in Hb as (_ & Hbn & Hne).
  apply elem_of_listdir. split_and!; [|done..].
  pose proof (broken_source_read w Hw) as Hr%read_file_Reads.
  by apply open_read_Some in Hr.
Qed.

Lemma pass_reported root :
  snippets_decodable (fs w0) →
  d ∈ Os.walk (fs w0) root →
  failure_report onload msg (Os.join d b)
  ∈ trace (regenerate_snippets os_linesep root onload force w0).
Proof.
  intros Hdec Hd. unfold regenerate_snippets.
  destruct (pass_reach os_linesep onload force w0 Hdec
              (λ w, failure_report onload msg (Os.join d b) ∈ trace w)
              root d b) as (w' & -> & _ & H); [| | |done|done].
  - intros d' b' w _ H. eapply frame_trace; [apply visit_file_frame|done].
  - apply broken_reported.
  - intros w Hw. right. by apply broken_listed.
Qed.

Hypothesis Hswap : swaps_back (fs w0).

Lemma broken_source_swaps_back :
  swap_extension (swap_extension (Os.join d b)) = Os.join d b.
Proof.
  apply read_file_Reads, open_read_Some in Hread as [x Hx].
  apply (Hswap _ _ Hx). by apply join_endswith.
Qed.

(** The generated file of the source is neither written nor removed. *)
Lemma broken_kept d' b' w :
  frame w0 w →
  Os.files (fs (world_of (visit_file os_linesep onload force d' b' w)))
    !! swap_extension (Os.join d b)
  = Os.files (fs w) !! swap_extension (Os.join d b).
Proof.
  intros Hw.
  pose proof broken_source_swaps_back as Hst.
  pose proof (broken_source_read w Hw) as Hr.
  destruct (visit_file_cases os_linesep onload force d' b' w)
    as [(evs & -> & Hevs)|[(-> & _)|[(Hg' & Hex & _ & _ & ->)
       |(Hg' & Hs' & g & Hre' & _ & _ & _ & _ & ->)]]]; cbn [world_of].
  - done.
  - done.
  - cbn [removed fs Os.files]. apply lookup_delete_ne. intros E.
    rewrite E, Hst in Hex. unfold Os.exists_ in Hex.
    apply read_file_Reads, open_read_Some in Hr.
    by rewrite bool_decide_eq_true_2 in Hex.
  - cbn [written fs Os.files]. apply lookup_insert_ne. intros E.
    assert (swap_extension (swap_extension (Os.join d' b')) = Os.join d' b')
      as Hback.
    { apply regenerate_Some in Hre' as [_ [text' [x Hx]%open_read_Some]].
      destruct Hw as (_ & _ & _ & _ & Hf & _).
      destruct (Hf (Os.join d' b')) as [E' _].
      { by apply source_not_generated, join_endswith. }
      rewrite E' in Hx. apply (Hswap _ _ Hx). by apply join_endswith. }
    rewrite E, Hst in Hback. rewrite <-Hback in Hre'.
    by rewrite (regenerate_raises _ _ _ _ _ _ Hr Hparse) in Hre'.
Qed.

Lemma pass_kept root :
  Os.files (fs (regenerate_snippets os_linesep root onload force w0))
    !! swap_extension (Os.join d b)
  = Os.files (fs w0) !! swap_extension (Os.join d b).
Proof.
  cut (frame w0 (regenerate_snippets os_linesep root onload force w0)
       ∧ Os.files (fs (regenerate_snippets os_linesep root onload force w0))
           !! swap_extension (Os.join d b)
         = Os.files (fs w0) !! swap_extension (Os.join d b));
    [by intros [_ ?]|].
  apply (pass_invariant
           (λ w, frame w0 w
                 ∧ Os.files (fs w) !! swap_extension (Os.join d b)
                   = Os.files (fs w0) !! swap_extension (Os.join d b)));
    [| |split; [apply frame_refl|done]].
  - intros d' b' w [Hw Hk]. split.
    + eapply frame_trans; [done|]. apply visit_file_frame.
    + by rewrite broken_kept.
  - intros e w [Hw Hk]. split; [|done]. eapply frame_trans; [done|].
    apply (frame_events w [Uncaught e]). by repeat constructor.
Qed.

End Broken.

(** X24.  A source file that the walk lists and on which the parser raises
    is reported by the pass with the parser's message and the path of the
    file: printed at load time, shown in a dialog otherwise.  This holds in
    a tree where every source file and generated file can be decoded, so
    that no exception ends the pass before it reaches the file. *)
Theorem pass_reports_broken_source
    os_linesep root onload force w d b text msg :
  snippets_decodable (fs w) →
  d ∈ Os.walk (fs w) root → b ∈ Os.listdir (fs w) d →
  Py.endswith EXT_SANESNIPPET b = true →
  read_file w (Os.join d b) = Some text →
  parse_snippet os_linesep (Os.join d b)
    (Os.splitext (Os.basename (Os.join d b))).1 text
  = Raise (SyntaxError msg) →
  failure_report onload msg (Os.join d b)
  ∈ trace (regenerate_snippets os_linesep root onload force w).
Proof.
  intros Hdec Hd Hb Hsrc Hread Hparse.
  by apply (pass_reported os_linesep onload force w d b text msg).
Qed.

Lemma pass_reports_broken_source_witness :
  ErrorMessage (malformed_error ++ py " in file "
                ++ quoted (Os.join (py "pkg/sub") (py "broken.sane-snippet")))
  ∈ trace (regenerate_snippets [Py.LF] (py "pkg") false false sample_world).
Proof.
  apply (pass_reports_broken_source [Py.LF] (py "pkg") false false sample_world
           (py "pkg/sub") (py "broken.sane-snippet") (py "no header")
           malformed_error).
  - apply (bool_decide_unpack _). vm_compute. exact I.
  - apply (bool_decide_unpack _). vm_compute. exact I.
  - apply (bool_decide_unpack _). vm_compute. exact I.
  - reflexivity.
  - reflexivity.
  - vm_compute. reflexivity.
Defined.

(** X25.  The generated file of a source file on which the parser raises is
    left as it is, present or not, in a tree where swapping the extension
    twice gives back the path of each source file. *)
Theorem pass_keeps_file_of_broken_source
    os_linesep root onload force w d b text msg :
  swaps_back (fs w) → b ∈ Os.listdir (fs w) d →
  Py.endswith EXT_SANESNIPPET b = true →
  read_file w (Os.join d b) = Some text →
  parse_snippet os_linesep (Os.join d b)
    (Os.splitext (Os.basename (Os.join d b))).1 text
  = Raise (SyntaxError msg) →
  Os.files (fs (regenerate_snippets os_linesep root onload force w))
    !! swap_extension (Os.join d b)
  = Os.files (fs w) !! swap_extension (Os.join d b).
Proof.
  intros Hswap Hb Hsrc Hread Hparse.
  by apply (pass_kept os_linesep onload force w d b text msg).
Qed.

Lemma pass_keeps_file_of_broken_source_witness :
  Os.files (fs (regenerate_snippets [Py.LF] (py "pkg") false true broken_world))
    !! swap_extension (Os.join (py "pkg") (py "hello.sane-snippet"))
  = Os.files (fs broken_world)
      !! swap_extension (Os.join (py "pkg") (py "hello.sane-snippet")).
Proof.
  apply (pass_keeps_file_of_broken_source [Py.LF] (py "pkg") false true
           broken_world (py "pkg") (py "hello.sane-snippet") (py "no header")
           malformed_error).
  - apply (bool_decide_unpack _). vm_compute. exact I.
  - apply (bool_decide_unpack _). vm_compute. exact I.
  - reflexivity.
  - reflexivity.
  - vm_compute. reflexivity.
Defined.

(** ** Source files that cannot be decoded *)

Lemma for_each_raises {B} (I : world → Prop)
    (f : B → world → outcome unit) l b w :
  (∀ x w, I w → I (world_of (f x w))) →
  (∀ w, I w → ∃ w', f b w = Raised w') →
  b ∈ l → I w → ∃ w', for_each f l w = Raised w'.
Proof.
  intros HI Hb. revert w.
  induction l as [|x l IH]; intros w Hin Hw; [by apply elem_of_nil in Hin|].
  cbn [for_each]. pose proof (HI x w Hw) as Hx.
  destruct (f x w) as [[] w'|w'] eqn:E; [|by exists w'].
  apply elem_of_cons in Hin as [->|Hin]; [|by apply IH].
  destruct (Hb w Hw) as [w'' E']. congruence.
Qed.

(** X26.  A source file that the walk lists, that can be opened and that
    cannot be decoded ends the pass, whatever the other files of the tree
    are: the exception that [f.read()] raises, at this file or at an
    earlier one, is caught nowhere, the loops are left, and the call ends
    with this exception. *)
Theorem undecodable_source_ends_pass os_linesep root onload force w d b :
  d ∈ Os.walk (fs w) root → b ∈ Os.listdir (fs w) d →
  Py.endswith EXT_SANESNIPPET b = true →
  Os.join d b ∈ Os.undecodable (fs w) →
  Os.join d b ∉ Os.unreadable (fs w) →
  ∃ w', visit_tree os_linesep root onload force w = Raised w'
        ∧ regenerate_snippets os_linesep root onload force w
          = emit (Uncaught (py "UnicodeDecodeError")) w'.
Proof.
  intros Hd Hb Hsrc Hdec Hread.
  assert (Py.endswith EXT_SNIPPET_SANE (Os.join d b) = false) as Hg
    by by apply source_not_generated, join_endswith.
  pose proof Hb as ([x Hx] & Hbn & Hne)%elem_of_listdir.
  assert (open_read w (Os.join d b) = ReadRaises) as Hr.
  { unfold open_read. rewrite Hx.
    by rewrite bool_decide_eq_false_2, bool_decide_eq_true_2. }
  assert (∀ w', frame w w' →
            visit_file os_linesep onload force d b w' = Raised w') as Hstep.
  { intros w' (_ & _ & _ & _ & Hf & _). destruct (Hf _ Hg) as [_ Hr'].
    unfold visit_file, regenerate_snippet.
    by rewrite (source_not_generated b Hsrc), Hsrc, Hr', Hr. }
  assert (∀ d' b' w', frame w w' →
            frame w (world_of (visit_file os_linesep onload force d' b' w')))
    as Hkeep.
  { intros d' b' w' Hw'. eapply frame_trans; [done|]. apply visit_file_frame. }
  cut (∃ w', visit_tree os_linesep root onload force w = Raised w').
  { intros [w' E]. exists w'. split; [done|].
    unfold regenerate_snippets. by rewrite E. }
  unfold visit_tree.
  apply (for_each_raises (frame w)) with (b := d); [| |done|apply frame_refl].
  - intros d' w' Hw'. apply (for_each_invariant (frame w)); [|done].
    intros b' w'' _. apply Hkeep.
  - intros w' Hw'.
    apply (for_each_raises (frame w)) with (b := b); [| | |done].
    + intros b' w''. apply Hkeep.
    + intros w'' Hw''. exists w''. by apply Hstep.
    + apply elem_of_listdir. split_and!; [|done..].
      destruct Hw' as (_ & _ & _ & _ & Hf & _).
      destruct (Hf _ Hg) as [-> _]. by exists x.
Qed.

Lemma undecodable_source_ends_pass_witness :
  ∃ w', visit_tree [Py.LF] (py "pkg") false false undecodable_world = Raised w'
        ∧ regenerate_snippets [Py.LF] (py "pkg") false false undecodable_world
          = emit (Uncaught (py "UnicodeDecodeError")) w'.
Proof.
  apply (undecodable_source_ends_pass [Py.LF] (py "pkg") false false
           undecodable_world (py "pkg") (py "bad.sane-snippet")).
  - apply (bool_decide_unpack _). vm_compute. exact I.
  - apply (bool_decide_unpack _). vm_compute. exact I.
  - reflexivity.
  - apply (bool_decide_unpack _). vm_compute. exact I.
  - apply (bool_decide_unpack _). vm_compute. exact I.
Defined.

(** X27.  In that tree the pass leaves the source file that parses without
    generated file: the file that cannot be decoded is listed first, and
    the exception ends the pass before the other file is visited. *)
Theorem undecodable_source_starves_sibling :
  Os.files (fs (regenerate_snippets [Py.LF] (py "pkg") false false
                  undecodable_world))
    !! py "pkg/hello.sane.sublime-snippet" = None
  ∧ trace (regenerate_snippets [Py.LF] (py "pkg") false false
             undecodable_world)
    = [Uncaught (py "UnicodeDecodeError")].
Proof. split; vm_compute; reflexivity. Qed.
